(** * Xsens sensor interface: telemetry store, scaling and analytics

    A shallow embedding of [src/sensors.py] (the [dancers] store constructor and the
    [Sensors] class) and of the packet handling of [XdaDevice.recording_loop] in
    [src/xda_device.py].

    Python [float]s and NumPy [float64]s are IEEE 754 binary64 numbers: they are
    modelled by Rocq's primitive floats, whose operations are the same correctly
    rounded ones.  The integer literals the program mixes with them ([0], [1] in the
    bounds and in the zero-filled series, the hit flag) are written as the floats they
    are promoted to in every arithmetic operation and comparison.

    Python objects are mutated in place and keep their mutations when an exception is
    raised, so every method is a function from the object's state to an outcome
    (a value or an exception) and the state left behind. *)

From Stdlib Require Import Floats ZArith List String Ascii Bool Arith Lia DecimalString DecimalNat.
Import ListNotations.
Local Open Scope string_scope.
Local Open Scope list_scope.

(** ** Comparisons of binary64 numbers *)

(** [x <= y] and [x < y] as the program's comparisons decide them. *)
Definition fle (x y : float) : Prop := PrimFloat.leb x y = true.
Definition flt (x y : float) : Prop := PrimFloat.ltb x y = true.

Definition fcmp (x y : float) : option comparison := SFcompare (Prim2SF x) (Prim2SF y).

(** ** Python runtime: exceptions, outcomes and in-place mutation *)

Inductive exn : Type :=
| KeyError (key : string)
| IndexError
| ZeroDivisionError
| TypeError
| AttributeError
| UnboundLocalError (name : string)
| ParameterError.                      (* librosa's *)

Inductive result (A : Type) : Type :=
| Ok (a : A)
| Raise (e : exn).
Arguments Ok {A} a.
Arguments Raise {A} e.

(** A method run on an object in state [S]: the outcome and the state it leaves. *)
Definition M (S A : Type) : Type := S -> result A * S.

Definition ret {S A} (a : A) : M S A := fun s => (Ok a, s).
Definition raise {S A} (e : exn) : M S A := fun s => (Raise e, s).
Definition bind {S A B} (m : M S A) (k : A -> M S B) : M S B :=
  fun s => match m s with
           | (Ok a, s') => k a s'
           | (Raise e, s') => (Raise e, s')
           end.
Definition get {S} : M S S := fun s => (Ok s, s).
Definition put {S} (s : S) : M S unit := fun _ => (Ok tt, s).
Definition lift_opt {S A} (e : exn) (o : option A) : M S A :=
  match o with Some a => ret a | None => raise e end.
(** A call of a function that returns or raises and touches no state. *)
Definition call {S A} (r : result A) : M S A := fun s => (r, s).

Declare Scope py_scope.
Delimit Scope py_scope with py.
Notation "x <- m ;; k" := (bind m (fun x => k))
  (at level 61, m at next level, right associativity) : py_scope.
Notation "m ;; k" := (bind m (fun _ => k))
  (at level 61, right associativity) : py_scope.
Local Open Scope py_scope.

(** [for x in l: body x]. *)
Fixpoint for_each {S A} (l : list A) (body : A -> M S unit) : M S unit :=
  match l with
  | [] => ret tt
  | x :: l' => body x ;; for_each l' body
  end.

(** A Python [dict] with string keys: insertion ordered, one entry per key. *)
Definition dict (V : Type) : Type := list (string * V).

Fixpoint dict_get {V} (k : string) (d : dict V) : option V :=
  match d with
  | [] => None
  | (k', v) :: d' => if String.eqb k k' then Some v else dict_get k d'
  end.

(** [d[k] = v]: the entry is replaced where it stands, or added at the end. *)
Fixpoint dict_set {V} (k : string) (v : V) (d : dict V) : dict V :=
  match d with
  | [] => [(k, v)]
  | (k', v') :: d' => if String.eqb k k' then (k', v) :: d' else (k', v') :: dict_set k v d'
  end.

(** The object stored under [k] is mutated by [f]; the dict's keys do not change. *)
Fixpoint dict_upd {V} (k : string) (f : V -> V) (d : dict V) : dict V :=
  match d with
  | [] => []
  | (k', v) :: d' => if String.eqb k k' then (k', f v) :: d' else (k', v) :: dict_upd k f d'
  end.

Definition dict_mem {V} (k : string) (d : dict V) : bool :=
  match dict_get k d with Some _ => true | None => false end.

Definition dict_keys {V} (d : dict V) : list string := map fst d.

(** The element at index [i] of a list is mutated by [f]. *)
Fixpoint list_upd {A} (i : nat) (f : A -> A) (l : list A) : list A :=
  match l, i with
  | [], _ => []
  | x :: l', O => f x :: l'
  | x :: l', S i' => x :: list_upd i' f l'
  end.

(** [str(n)] for a natural number, as f-strings format it. *)
Definition str (n : nat) : string := NilEmpty.string_of_uint (Nat.to_uint n).

(** [sub in s] for strings. *)
Definition contains (sub s : string) : bool :=
  match String.index 0 sub s with Some _ => true | None => false end.

(** [l[i]]: [IndexError] outside the list. *)
Definition index {S A} (l : list A) (i : nat) : M S A := lift_opt IndexError (nth_error l i).

(** Python's [/] on floats raises on a zero divisor instead of returning inf or nan. *)
Definition py_div {S} (a b : float) : M S float :=
  if PrimFloat.eqb b 0 then raise ZeroDivisionError else ret (PrimFloat.div a b).

(** ** The telemetry store built by [dancers] (sensors.py, lines 6-62) *)

(** What a sensor's dictionary holds under a label: a series of samples, or, under a
    [correlation_<label>] key, a dictionary of correlation series. *)
Inductive entry : Type :=
| Series (xs : list float)
| Corr (m : dict (list float)).

Abbreviation sensor_dict := (dict entry) (only parsing).
Abbreviation dancer_dict := (dict (dict entry)) (only parsing).
Abbreviation store := (list (dict (dict entry))) (only parsing).

Definition labels : list string :=
  ["tot_a"; "b_tot_a"; "rot"; "ori_p"; "ori_r"; "ori_y"; "acc_x"; "acc_y"; "acc_z";
   "gyr_x"; "gyr_y"; "gyr_z"; "mag_x"; "mag_y"; "mag_z"].

(** [[0] * 500] *)
Definition zeros500 : list float := repeat 0%float 500.

Definition snsr (i : nat) : string := "snsr_" ++ str i.
Definition dancer_key (i : nat) : string := "dancer_" ++ str i.
Definition correlation_key (label : string) : string := "correlation_" ++ label.

(** The dictionary created for [dancer1[sens]['correlation_<label>']]: one series per
    sensor of the dancer (its own included) and one per other dancer. *)
Definition new_correlation (dancer1_idx number_of_dancers number_of_sensors : nat)
  : dict (list float) :=
  let m := fold_left (fun m jj => dict_set (snsr jj) zeros500 m)
                     (seq 1 number_of_sensors) [] in
  fold_left (fun m dancer2_idx =>
               if Nat.eqb dancer2_idx dancer1_idx then m
               else dict_set (dancer_key (dancer2_idx + 1)) zeros500 m)
            (seq 0 number_of_dancers) m.

(** The body of the second loop of [dancers] for one dancer. *)
Definition fill_dancer (dancer1_idx number_of_dancers number_of_sensors : nat)
    (dancer1 : dancer_dict) : dancer_dict :=
  let with_series :=
    fold_left (fun d i =>
      fold_left (fun d label => dict_upd (snsr i) (dict_set label (Series zeros500)) d)
                labels d)
      (seq 1 number_of_sensors) dancer1 in
  fold_left (fun d i =>
    fold_left (fun d j =>
      fold_left (fun d label =>
        fold_left (fun d sens =>
          match dict_get sens d with
          | Some sd =>
              if dict_mem (correlation_key label) sd then d
              else dict_upd sens
                     (dict_set (correlation_key label)
                        (Corr (new_correlation dancer1_idx number_of_dancers
                                               number_of_sensors))) d
          | None => d
          end)
          [snsr i; snsr j] d)
        labels d)
      (seq (i + 1) (number_of_sensors - i)) d)
    (seq 1 (number_of_sensors - 1)) with_series.

Definition dancers (number_of_dancers number_of_sensors : nat) : store :=
  let empty : dancer_dict :=
    fold_left (fun d sensor_num => dict_set (snsr sensor_num) [] d)
              (seq 1 number_of_sensors) [] in
  map (fun dancer1_idx => fill_dancer dancer1_idx number_of_dancers number_of_sensors empty)
      (seq 0 number_of_dancers).

(** ** The [Sensors] class *)

(** [Sensors.locations]: hardware id -> (position name, dancer number, sensor number). *)
Definition locations : dict (string * nat * nat) :=
  [("00B4F11A", ("left", 1, 1)); ("00B4F114", ("right", 1, 2)); ("00B4F115", ("torso", 1, 3));
   ("00B4F11B", ("left", 2, 1)); ("00B4F116", ("right", 2, 2)); ("00B4F119", ("torso", 2, 3));
   ("00B4F11C", ("left", 3, 1)); ("00B4F107", ("right", 3, 2)); ("00B4F11D", ("torso", 3, 3))].

Definition loc_dancer (loc : string * nat * nat) : nat := snd (fst loc).
Definition loc_sensor (loc : string * nat * nat) : nat := snd loc.

(** [Sensors.correlation_others_combos] *)
Definition correlation_others_combos : list (nat * nat) := [(12, 22)].

(** One dictionary of [self.minmax]: the sensor id and the bound vectors, keyed
    [<data_type>_min] and [<data_type>_max]. *)
Record MinMax : Type := { mm_id : option string; mm_bounds : dict (list float) }.

Record Sensors : Type := {
  s_axes : list string;
  s_sensors : option (list string);   (* the device id of each XsDevice pointer *)
  s_minmax : list MinMax;
  s_dancers : store;
  s_nSensors : nat;
  s_nDancers : nat
}.

Definition minmax_init : MinMax :=
  {| mm_id := None;
     mm_bounds :=
       [("acc_min", [0; 0; 0]); ("gyr_min", [0; 0; 0]); ("mag_min", [0; 0; 0]);
        ("ori_min", [0; 0; 0]); ("tot_a_min", [0]); ("rot_min", [0]);
        ("acc_max", [1; 1; 1]); ("gyr_max", [1; 1; 1]); ("mag_max", [1; 1; 1]);
        ("ori_max", [1; 1; 1]); ("tot_a_max", [1]); ("rot_max", [1])]%float |}.

(** [Sensors.__init__] *)
Definition Sensors_init : Sensors :=
  let ds := dancers 3 3 in
  {| s_axes := ["x"; "y"; "z"];
     s_sensors := None;
     s_minmax := repeat minmax_init 9;
     s_dancers := ds;
     s_nSensors := match ds with d :: _ => List.length d | [] => 0 end;
     s_nDancers := List.length ds |}.

Definition with_minmax (self : Sensors) (mm : list MinMax) : Sensors :=
  {| s_axes := s_axes self; s_sensors := s_sensors self; s_minmax := mm;
     s_dancers := s_dancers self; s_nSensors := s_nSensors self;
     s_nDancers := s_nDancers self |}.

Definition with_dancers (self : Sensors) (ds : store) : Sensors :=
  {| s_axes := s_axes self; s_sensors := s_sensors self; s_minmax := s_minmax self;
     s_dancers := ds; s_nSensors := s_nSensors self; s_nDancers := s_nDancers self |}.

Definition set_mm_id (sensor_id : string) (mm : MinMax) : MinMax :=
  {| mm_id := Some sensor_id; mm_bounds := mm_bounds mm |}.

(** [Sensors.set_ids]: the dashboard calls ([dpg.configure_item]) only relabel
    widgets and are left out. *)
Definition set_ids : M Sensors unit :=
  self <- get ;;
  sensors <- lift_opt TypeError (s_sensors self) ;;
  for_each (combine (seq 0 (List.length sensors)) sensors) (fun '(i, sensor_id) =>
    _ <- lift_opt (KeyError sensor_id) (dict_get sensor_id locations) ;;
    self <- get ;;
    _ <- index (s_minmax self) i ;;
    put (with_minmax self (list_upd i (set_mm_id sensor_id) (s_minmax self)))).

(** *** [Sensors.scale_data] (lines 153-173) *)

Definition id_is (sensor_id : string) (sensor : MinMax) : bool :=
  match mm_id sensor with Some i => String.eqb i sensor_id | None => false end.

(** Position of the first dictionary of [self.minmax] with the given id: the object
    that [[sensor for sensor in self.minmax if sensor['id'] == sensor_id][0]] names. *)
Fixpoint find_sensor (sensor_id : string) (mm : list MinMax) : option nat :=
  match mm with
  | [] => None
  | s :: mm' => if id_is sensor_id s then Some 0
                else option_map S (find_sensor sensor_id mm')
  end.

(** [sensor[key][i]] *)
Definition bound_get (idx : nat) (key : string) (i : nat) : M Sensors float :=
  self <- get ;;
  sensor <- index (s_minmax self) idx ;;
  vec <- lift_opt (KeyError key) (dict_get key (mm_bounds sensor)) ;;
  index vec i.

Definition set_bound (key : string) (i : nat) (val : float) (sensor : MinMax) : MinMax :=
  {| mm_id := mm_id sensor;
     mm_bounds := dict_upd key (list_upd i (fun _ => val)) (mm_bounds sensor) |}.

(** [sensor[key][i] = val], for a key and index that were just read. *)
Definition bound_set (idx : nat) (key : string) (i : nat) (val : float) : M Sensors unit :=
  self <- get ;;
  put (with_minmax self (list_upd idx (set_bound key i val) (s_minmax self))).

Fixpoint scale_loop (idx : nat) (data_type : string) (value : list float) (i : nat)
    (scaled_data : list float) : M Sensors (list float) :=
  match value with
  | [] => ret scaled_data
  | val :: rest =>
      minimum <- bound_get idx (data_type ++ "_min") i ;;
      maximum <- bound_get idx (data_type ++ "_max") i ;;
      (if PrimFloat.ltb val minimum then bound_set idx (data_type ++ "_min") i val
       else if PrimFloat.ltb maximum val then bound_set idx (data_type ++ "_max") i val
       else ret tt) ;;
      q <- py_div (PrimFloat.sub val minimum) (PrimFloat.sub maximum minimum) ;;
      scale_loop idx data_type rest (S i) (scaled_data ++ [q])
  end.

Definition scale_data (sensor_id data_type : string) (value : list float)
  : M Sensors (list float) :=
  self <- get ;;
  idx <- lift_opt IndexError (find_sensor sensor_id (s_minmax self)) ;;
  scale_loop idx data_type value 0 [].

(** *** Access to [self.dancers[d_idx][sensor_key][label]] *)

Definition get_sensor (d_idx : nat) (sensor_key : string) : M Sensors sensor_dict :=
  self <- get ;;
  dancer <- index (s_dancers self) d_idx ;;
  lift_opt (KeyError sensor_key) (dict_get sensor_key dancer).

Definition get_entry (d_idx : nat) (sensor_key label : string) : M Sensors entry :=
  sd <- get_sensor d_idx sensor_key ;;
  lift_opt (KeyError label) (dict_get label sd).

(** The object under [label] is replaced by its mutated version. *)
Definition put_entry (d_idx : nat) (sensor_key label : string) (e : entry) : M Sensors unit :=
  self <- get ;;
  put (with_dancers self
         (list_upd d_idx (dict_upd sensor_key (dict_upd label (fun _ => e)))
                   (s_dancers self))).

(** [len(x)] of a list or of a dict. *)
Definition entry_len (e : entry) : nat :=
  match e with Series xs => List.length xs | Corr m => List.length m end.

(** [self.dancers[d_idx][sensor_key][label].append(arg)]: the list is looked up
    before the argument is evaluated; a dict has no [append]. *)
Definition list_append (d_idx : nat) (sensor_key label : string) (arg : option float)
  : M Sensors unit :=
  e <- get_entry d_idx sensor_key label ;;
  match e with
  | Series xs =>
      val <- lift_opt IndexError arg ;;
      put_entry d_idx sensor_key label (Series (xs ++ [val]))
  | Corr _ => raise AttributeError
  end.

(** [cutoff = len(x) - 500; if cutoff > 0: del x[0]] for
    [x = self.dancers[d_idx][sensor_key][label]]. *)
Definition trim (d_idx : nat) (sensor_key label : string) : M Sensors unit :=
  e <- get_entry d_idx sensor_key label ;;
  let cutoff := (Z.of_nat (entry_len e) - 500)%Z in
  if (0 <? cutoff)%Z then
    e' <- get_entry d_idx sensor_key label ;;
    match e' with
    | Series (_ :: xs) => put_entry d_idx sensor_key label (Series xs)
    | Series [] => raise IndexError
    | Corr _ => raise (KeyError "0")
    end
  else ret tt.

(** [enumerate(value)] *)
Definition enumerate {A} (value : list A) : list (nat * A) :=
  combine (seq 0 (List.length value)) value.

(** *** [Sensors.send_data] (lines 175-255)

    The calls of [dpg.configure_item] hand the updated list to the dashboard and do
    not touch the store; they are left out.  In the [tot_a] branch the two tests
    compare a list with [0] and with [1], which is [False] in Python, so neither
    branch that follows them runs. *)
Definition send_data (sensor_id data_type : string) (value : list float) : M Sensors unit :=
  loc <- lift_opt (KeyError sensor_id) (dict_get sensor_id locations) ;;
  let s_idx := loc_sensor loc in
  let d_idx := loc_dancer loc - 1 in
  let sensor_key := snsr s_idx in
  if existsb (String.eqb data_type) ["acc"; "gyr"; "mag"] then
    for_each (enumerate value) (fun '(i, val) =>
      self <- get ;;
      axis <- index (s_axes self) i ;;
      let data_label := (data_type ++ "_" ++ axis)%string in
      list_append d_idx sensor_key data_label (Some val) ;;
      trim d_idx sensor_key data_label)
  else if data_type =? "ori" then
    list_append d_idx sensor_key (data_type ++ "_p") (nth_error value 0) ;;
    list_append d_idx sensor_key (data_type ++ "_r") (nth_error value 1) ;;
    list_append d_idx sensor_key (data_type ++ "_y") (nth_error value 2) ;;
    for_each ["p"; "r"; "y"] (fun pry =>
      trim d_idx sensor_key (data_type ++ "_" ++ pry))
  else if data_type =? "rot" then
    list_append d_idx sensor_key data_type (nth_error value 0) ;;
    trim d_idx sensor_key data_type
  else if data_type =? "tot_a" then
    list_append d_idx sensor_key data_type (nth_error value 0) ;;
    list_append d_idx sensor_key ("b_" ++ data_type) (nth_error value 1) ;;
    trim d_idx sensor_key data_type ;;
    trim d_idx sensor_key ("b_" ++ data_type)
  else ret tt.

(** *** The analytics methods (lines 257-401) *)

(** [np.pi] *)
Definition np_pi : float := 0x1.921fb54442d18p+1%float.

(** The labels every analytics loop passes over with [continue]. *)
Definition excluded (label : string) : bool :=
  (label =? "tot_a") || (label =? "b_tot_a") || (label =? "rot")
  || contains "correlation" label.

(** [x[len(x) - 32:len(x)]] for a list of at least 32 elements. *)
Definition window32 (xs : list float) : list float := skipn (List.length xs - 32) xs.

(** Slicing a dict raises. *)
Definition slice32 (e : entry) : M Sensors (list float) :=
  match e with Series xs => ret (window32 xs) | Corr _ => raise TypeError end.

(** A loop whose body appends to a local output list: the body returns what it
    appended, in order. *)
Fixpoint for_yield {S A B} (l : list A) (body : A -> M S (list B)) : M S (list B) :=
  match l with
  | [] => ret []
  | x :: l' => ys <- body x ;; zs <- for_yield l' body ;; ret (ys ++ zs)
  end.

(** [dancer[sensor_key][ckey][key].append(val)] followed by the 500-sample cutoff. *)
Definition corr_append (d_idx : nat) (sensor_key ckey key : string) (val : float)
  : M Sensors unit :=
  e <- get_entry d_idx sensor_key ckey ;;
  match e with
  | Corr m =>
      xs <- lift_opt (KeyError key) (dict_get key m) ;;
      put_entry d_idx sensor_key ckey (Corr (dict_upd key (fun _ => xs ++ [val]) m))
  | Series _ => raise TypeError
  end.

Definition corr_trim (d_idx : nat) (sensor_key ckey key : string) : M Sensors unit :=
  e <- get_entry d_idx sensor_key ckey ;;
  match e with
  | Corr m =>
      xs <- lift_opt (KeyError key) (dict_get key m) ;;
      let cutoff := (Z.of_nat (List.length xs) - 500)%Z in
      if (0 <? cutoff)%Z then
        match xs with
        | _ :: xs' => put_entry d_idx sensor_key ckey (Corr (dict_upd key (fun _ => xs') m))
        | [] => raise IndexError
        end
      else ret tt
  | Series _ => raise TypeError
  end.

(** [round(n / 10)] for a natural number [n]: Python rounds a tie to the even
    neighbour. *)
Definition round_div10 (n : nat) : nat :=
  let q := n / 10 in
  let r := n mod 10 in
  if (r <? 5)%nat then q else if (5 <? r)%nat then q + 1 else if Nat.even q then q else q + 1.

(** [l[z]] resolves a negative index from the end of the list. *)
Definition py_pos (len : nat) (z : Z) : option nat :=
  if (z <? 0)%Z then
    if (z + Z.of_nat len <? 0)%Z then None else Some (Z.to_nat (z + Z.of_nat len))
  else if (z <? Z.of_nat len)%Z then Some (Z.to_nat z) else None.

(** What [calculate_mfcc] passes as the signal [y]: the NumPy array an elementwise
    operation returned, or the slice of a Python list as it is. *)
Inductive audio : Type :=
| NdArray (xs : list float)
| PyList (xs : list float).

Section Analytics.

(** The numerical libraries the methods call: NumPy and librosa. *)
Variable np_cos : float -> float.
(** [np.fft.rfft]: the spectrum as (real, imaginary) pairs; [np.abs] of one. *)
Variable np_fft_rfft : list float -> list (float * float).
Variable np_abs_complex : float * float -> float.
(** [mfcc(y, sr, n_fft, n_mfcc)] of librosa: one row per coefficient, one column
    per frame, unless it raises. *)
Variable mfcc : audio -> float -> nat -> nat -> result (list (list float)).
(** [np.corrcoef(x, y)[1][0]] *)
Variable np_corrcoef : list float -> list float -> float.

(** The transform applied to a window before the spectral analysis: the cosine of
    twice an orientation sample, the cosine of [2 pi (1 + v)] for a magnetometer
    sample [v], the sample itself otherwise. *)
Definition periodic (label : string) (w : list float) : list float :=
  if contains "ori" label then map (fun v => np_cos (2 * v)%float) w
  else if contains "mag" label then map (fun v => np_cos (2 * np_pi * (1.0 + v))%float) w
  else w.

(** The signal [calculate_mfcc] passes for a window: the transformed window is an
    array; a window that needs no transform is passed as the list slice. *)
Definition mfcc_input (label : string) (w : list float) : audio :=
  if contains "ori" label then NdArray (periodic label w)
  else if contains "mag" label then NdArray (periodic label w)
  else PyList w.

(** The body of the innermost loop of [calculate_mfcc] (lines 265-292): what it
    appends to [mfccAll] for one label. *)
Definition mfcc_channel (fs : float) (d_idx : nat) (sensor1 label : string)
  : M Sensors (list (list (list float))) :=
  if excluded label then ret [] else
  e <- get_entry d_idx sensor1 label ;;
  let lenVec1 := entry_len e in
  if (lenVec1 <? 32)%nat then ret [] else
  w <- slice32 e ;;
  cc <- call (mfcc (mfcc_input label w) fs 32 13) ;;
  ret [map (map PrimFloat.abs) cc].

Definition calculate_mfcc (fs : float) : M Sensors (list (list (list float))) :=
  self <- get ;;
  for_yield (seq 0 (List.length (s_dancers self))) (fun d_idx =>
    self <- get ;;
    for_yield (seq 1 (s_nSensors self)) (fun i =>
      let sensor1 := snsr i in
      sd <- get_sensor d_idx sensor1 ;;
      for_yield (dict_keys sd) (mfcc_channel fs d_idx sensor1))).

(** The body of the innermost loop of [calculate_fft] (lines 303-321). *)
Definition fft_channel (d_idx : nat) (sensor1 label : string)
  : M Sensors (list (list float)) :=
  if excluded label then ret [] else
  e <- get_entry d_idx sensor1 label ;;
  let lenVec1 := entry_len e in
  if (lenVec1 <? 32)%nat then ret [] else
  w <- slice32 e ;;
  let fft := np_fft_rfft (periodic label w) in
  ret [map np_abs_complex fft].

Definition calculate_fft : M Sensors (list (list float)) :=
  self <- get ;;
  for_yield (seq 0 (List.length (s_dancers self))) (fun d_idx =>
    self <- get ;;
    for_yield (seq 1 (s_nSensors self)) (fun i =>
      let sensor1 := snsr i in
      sd <- get_sensor d_idx sensor1 ;;
      for_yield (dict_keys sd) (fft_channel d_idx sensor1))).

(** [corrVal = 0; if not np.isnan(c): corrVal = c] *)
Definition corrVal_of (correlation : float) : float :=
  if PrimFloat.is_nan correlation then 0%float else correlation.

(** The body shared by the two correlation loops: the windows of [label] at
    ([d1], [sensor1]) and ([d2], [sensor2]) are correlated and the coefficient is
    stored under [key] of [d1]'s [sensor1]. *)
Definition correlate (d1 : nat) (sensor1 : string) (d2 : nat) (sensor2 : string)
    (key label : string) : M Sensors (list (string * float)) :=
  if excluded label then ret [] else
  e1 <- get_entry d1 sensor1 label ;;
  let lenVec1 := entry_len e1 in
  e2 <- get_entry d2 sensor2 label ;;
  let lenVec2 := entry_len e2 in
  if (lenVec1 <? 32)%nat || (lenVec2 <? 32)%nat then ret [] else
  w1 <- slice32 e1 ;;
  w2 <- slice32 e2 ;;
  let corrVal := corrVal_of (np_corrcoef w1 w2) in
  corr_append d1 sensor1 (correlation_key label) key corrVal ;;
  corr_trim d1 sensor1 (correlation_key label) key ;;
  ret [(label, corrVal)].

Definition calculate_correlation_self : M Sensors (list (string * float)) :=
  self <- get ;;
  for_yield (seq 0 (List.length (s_dancers self))) (fun d_idx =>
    self <- get ;;
    for_yield (seq 1 (s_nSensors self - 1)) (fun i =>
      self <- get ;;
      for_yield (seq (i + 1) (s_nSensors self - i)) (fun j =>
        let sensor1 := snsr i in
        let sensor2 := snsr j in
        sd <- get_sensor d_idx sensor1 ;;
        for_yield (dict_keys sd) (fun label =>
          correlate d_idx sensor1 d_idx sensor2 sensor2 label)))).

Definition calculate_correlation_others : M Sensors (list (string * float)) :=
  for_yield correlation_others_combos (fun '(sensor1_label, sensor2_label) =>
    if (sensor1_label =? sensor2_label)%nat then ret [] else
    self <- get ;;
    let dancer1_idx := round_div10 sensor1_label in
    d1 <- lift_opt IndexError
            (py_pos (List.length (s_dancers self)) (Z.of_nat dancer1_idx - 1)) ;;
    let sensor1_idx := sensor1_label mod 10 in
    let sensor1 := snsr sensor1_idx in
    let dancer2_idx := round_div10 sensor2_label in
    d2 <- lift_opt IndexError
            (py_pos (List.length (s_dancers self)) (Z.of_nat dancer2_idx - 1)) ;;
    let sensor2_idx := sensor2_label mod 10 in
    let sensor2 := snsr sensor2_idx in
    sd <- get_sensor d1 sensor1 ;;
    for_yield (dict_keys sd) (fun label =>
      correlate d1 sensor1 d2 sensor2 (dancer_key (dancer2_idx + 1)) label)).

End Analytics.

(** ** [XdaDevice.recording_loop] (xda_device.py, lines 271-519) *)

(** What the loop reads from a data packet, and the two readings of [time()] that
    handling it may take. *)
Record Packet : Type := {
  containsStoredDeviceId : bool;
  deviceId : string;
  containsCalibratedData : bool;
  freeAcceleration : float * float * float;
  calibratedGyroscopeData : float * float * float;
  calibratedMagneticField : float * float * float;
  containsOrientation : bool;
  orientationEuler : float * float * float;             (* x(), y(), z() in degrees *)
  orientationQuaternion : float * float * float * float;
  time_readings : float * float
}.

Inductive osc_arg : Type :=
| OscInt (n : nat)
| OscFloat (x : float).

(** The state of a running loop: the [Sensors] object, the threshold attribute, the
    local variables that outlive an iteration (unbound until first assigned) and the
    OSC messages sent so far. *)
Record Recorder : Type := {
  r_sensors : Sensors;
  r_acc_threshold : float;
  r_timer : float;
  r_sensor_id : option string;
  r_dancer : option nat;
  r_sensor : option nat;
  r_sent : list (string * list osc_arg)
}.

Definition recorder_start (sensors : Sensors) (threshold : float) : Recorder :=
  {| r_sensors := sensors; r_acc_threshold := threshold; r_timer := 0%float;
     r_sensor_id := None; r_dancer := None; r_sensor := None; r_sent := [] |}.

(** A method of [self.sensors] called from the loop. *)
Definition on_sensors {A} (m : M Sensors A) : M Recorder A :=
  fun r =>
    let (res, s) := m (r_sensors r) in
    (res, {| r_sensors := s; r_acc_threshold := r_acc_threshold r; r_timer := r_timer r;
             r_sensor_id := r_sensor_id r; r_dancer := r_dancer r;
             r_sensor := r_sensor r; r_sent := r_sent r |}).

Definition assign_sensor_id (sensor_id : string) : M Recorder unit :=
  fun r => (Ok tt,
    {| r_sensors := r_sensors r; r_acc_threshold := r_acc_threshold r;
       r_timer := r_timer r; r_sensor_id := Some sensor_id; r_dancer := r_dancer r;
       r_sensor := r_sensor r; r_sent := r_sent r |}).

Definition assign_dancer (dancer : nat) : M Recorder unit :=
  fun r => (Ok tt,
    {| r_sensors := r_sensors r; r_acc_threshold := r_acc_threshold r;
       r_timer := r_timer r; r_sensor_id := r_sensor_id r; r_dancer := Some dancer;
       r_sensor := r_sensor r; r_sent := r_sent r |}).

Definition assign_sensor (sensor : nat) : M Recorder unit :=
  fun r => (Ok tt,
    {| r_sensors := r_sensors r; r_acc_threshold := r_acc_threshold r;
       r_timer := r_timer r; r_sensor_id := r_sensor_id r; r_dancer := r_dancer r;
       r_sensor := Some sensor; r_sent := r_sent r |}).

Definition assign_timer (t : float) : M Recorder unit :=
  fun r => (Ok tt,
    {| r_sensors := r_sensors r; r_acc_threshold := r_acc_threshold r;
       r_timer := t; r_sensor_id := r_sensor_id r; r_dancer := r_dancer r;
       r_sensor := r_sensor r; r_sent := r_sent r |}).

(** [osc_send(oscbuildparse.OSCMessage(address, None, osc_msg), 'OSC_client')] *)
Definition osc_send (address : string) (osc_msg : list osc_arg) : M Recorder unit :=
  fun r => (Ok tt,
    {| r_sensors := r_sensors r; r_acc_threshold := r_acc_threshold r;
       r_timer := r_timer r; r_sensor_id := r_sensor_id r; r_dancer := r_dancer r;
       r_sensor := r_sensor r; r_sent := r_sent r ++ [(address, osc_msg)] |}).

(** Reading a local variable that no iteration has assigned yet. *)
Definition local {A} (name : string) (f : Recorder -> option A) : M Recorder A :=
  r <- get ;; lift_opt (UnboundLocalError name) (f r).

(** [sqrt(v[0]**2 + v[1]**2 + v[2]**2)] *)
Definition norm3 (v : float * float * float) : float :=
  let '(x, y, z) := v in PrimFloat.sqrt (x * x + y * y + z * z)%float.

Section Recording.

Variable np_corrcoef : list float -> list float -> float.
(** [round(x, 5)] on a NumPy scalar and on a Python float. *)
Variable np_round5 : float -> float.
Variable py_round5 : float -> float.

(** The block run when the packet carries calibrated data (lines 334-374): the
    entries it appends to [osc_msg]. *)
Definition calibrated_block (packet : Packet) : M Recorder (list osc_arg) :=
  let '(a0, a1, a2) := freeAcceleration packet in
  let acc := (a0 / 100.0, a1 / 100.0, a2 / 100.0)%float in
  let '(c0, c1, c2) := acc in
  let acc_value := [np_round5 c0; np_round5 c1; np_round5 c2] in
  let tot_acc0 := norm3 acc in
  r <- get ;;
  let check_threshold := PrimFloat.ltb (r_acc_threshold r) tot_acc0 in
  let hit := check_threshold
             && PrimFloat.ltb (r_acc_threshold r)
                              (fst (time_readings packet) - r_timer r)%float in
  (if hit then assign_timer (snd (time_readings packet)) else ret tt) ;;
  let tot_acc := [tot_acc0; if hit then 1%float else 0%float] in
  sensor_id <- local "sensor_id" r_sensor_id ;;
  on_sensors (send_data sensor_id "acc" acc_value) ;;
  on_sensors (send_data sensor_id "tot_a" tot_acc) ;;
  let gyr := calibratedGyroscopeData packet in
  let '(g0, g1, g2) := gyr in
  rot_value <- on_sensors (scale_data sensor_id "rot" [norm3 gyr]) ;;
  let gyr_value := [np_round5 g0; np_round5 g1; np_round5 g2] in
  rot0 <- index rot_value 0 ;;
  on_sensors (send_data sensor_id "gyr" gyr_value) ;;
  on_sensors (send_data sensor_id "rot" rot_value) ;;
  let '(m0, m1, m2) := calibratedMagneticField packet in
  on_sensors (send_data sensor_id "mag" [m0; m1; m2]) ;;
  ret (map OscFloat
         (acc_value ++ [py_round5 tot_acc0; if hit then 1%float else 0%float]
          ++ gyr_value ++ [py_round5 rot0]
          ++ [np_round5 m0; np_round5 m1; np_round5 m2])).

(** [euler_value] (lines 380-384). *)
Definition euler_value (euler : float * float * float) : list float :=
  let '(x, y, z) := euler in
  [np_pi * x / 180.0 + 1.0; np_pi * y / 180.0; np_pi * z / 180.0 + 1.0]%float.

(** The three Euler entries appended to [osc_msg] (lines 395-397). *)
Definition euler_outbound (euler : float * float * float) : list float :=
  map (fun v => (v + np_pi)%float) (euler_value euler).

(** The block run when the packet carries an orientation (lines 376-406). *)
Definition orientation_block (packet : Packet) : M Recorder (list osc_arg) :=
  let euler := orientationEuler packet in
  let '(q0, q1, q2, q3) := orientationQuaternion packet in
  let q1' := [q0; (- q1)%float; q3; q2] in
  sensor_id <- local "sensor_id" r_sensor_id ;;
  on_sensors (send_data sensor_id "ori" (euler_value euler)) ;;
  ret (map OscFloat (euler_outbound euler ++ q1')).

(** One iteration of the loop with a packet available (lines 315-516).  Writing the
    log line and the dashboard status only read the values computed here. *)
Definition handle_packet (packet : Packet) : M Recorder unit :=
  osc_id <- (if containsStoredDeviceId packet then
               let sensor_id := deviceId packet in
               assign_sensor_id sensor_id ;;
               loc <- lift_opt (KeyError sensor_id) (dict_get sensor_id locations) ;;
               assign_dancer (loc_dancer loc) ;;
               assign_sensor (loc_sensor loc) ;;
               ret [OscInt (loc_dancer loc * 10 + loc_sensor loc)]
             else ret []) ;;
  calibrated <- (if containsCalibratedData packet then calibrated_block packet
                 else ret []) ;;
  orientation <- (if containsOrientation packet then orientation_block packet
                  else ret []) ;;
  let osc_msg := osc_id ++ calibrated ++ orientation in
  dancer <- local "dancer" r_dancer ;;
  sensor <- local "sensor" r_sensor ;;
  osc_send ("/xsens" ++ str dancer ++ str sensor) osc_msg ;;
  if ((sensor =? 1) && (dancer =? 1))%nat then
    correlations <- on_sensors (calculate_correlation_others np_corrcoef) ;;
    osc_send ("/xsens" ++ str dancer ++ str sensor ++ "-correlation-others")
             (map (fun corr_value => OscFloat (py_round5 (snd corr_value))) correlations)
  else ret tt.

(** The loop over the packets that arrive while [self.recording] holds.  No
    statement of the loop catches the exceptions raised in [handle_packet]: the
    first one ends the loop, with the remaining packets unread. *)
Definition recording_loop (packets : list Packet) : M Recorder unit :=
  for_each packets handle_packet.

End Recording.

(** ** Reference versions of the library functions

    They make the model run on concrete inputs.  [ref_corrcoef] follows NumPy's
    [corrcoef] (covariance of the mean-centred rows, divided by the two standard
    deviations, clipped to [[-1, 1]]), [ref_round5] NumPy's [round], [ref_rfft] the
    definition of the real-input discrete Fourier transform with series for sine and
    cosine.  [ref_mfcc] checks the signal as librosa does before it computes anything
    ([util.valid_audio], called from [stft]): a signal that is not a NumPy array, or
    one that holds an infinity or a NaN, raises [ParameterError].  For a valid
    signal it only has the shape of librosa's result ([n_mfcc] rows, one column per
    frame of 512 samples): its entries are not cepstral coefficients. *)

Fixpoint float_of_nat (n : nat) : float :=
  match n with O => 0%float | S k => (float_of_nat k + 1)%float end.

Definition fsum (xs : list float) : float := fold_left PrimFloat.add xs 0%float.

Definition dot (xs ys : list float) : float :=
  fsum (map (fun p => (fst p * snd p)%float) (combine xs ys)).

(** [np.clip(x, -1, 1)]: a NaN passes through. *)
Definition clip1 (x : float) : float :=
  if PrimFloat.ltb x (-1)%float then (-1)%float
  else if PrimFloat.ltb 1%float x then 1%float else x.

Definition ref_corrcoef (xs ys : list float) : float :=
  let centre (l : list float) :=
    let avg := (fsum l / float_of_nat (List.length l))%float in
    map (fun v => (v - avg)%float) l in
  let fact := (float_of_nat (List.length xs) - 1)%float in
  let dx := centre xs in
  let dy := centre ys in
  let cxx := (dot dx dx / fact)%float in
  let cyy := (dot dy dy / fact)%float in
  let cyx := (dot dy dx / fact)%float in
  clip1 (cyx / PrimFloat.sqrt cyy / PrimFloat.sqrt cxx)%float.

(** Rounding to the nearest integer, ties to even, below [2^51] in magnitude. *)
Definition rint (y : float) : float :=
  if PrimFloat.ltb (PrimFloat.abs y) 0x1p51%float
  then (y + 0x1.8p52 - 0x1.8p52)%float else y.

Definition ref_round5 (x : float) : float := (rint (x * 100000) / 100000)%float.

(** [terms] terms of the series of cosine ([from = 0]) or sine ([from = 1]). *)
Fixpoint trig_series (terms : nat) (x term : float) (k : nat) : float :=
  match terms with
  | O => 0%float
  | S t =>
      (term + trig_series t x
                (- term * x * x / (float_of_nat (k + 1) * float_of_nat (k + 2))) (k + 2))%float
  end.

Definition ref_cos (x : float) : float := trig_series 16 x 1%float 0.
Definition ref_sin (x : float) : float := trig_series 16 x x 1.

Definition ref_rfft (xs : list float) : list (float * float) :=
  let n := List.length xs in
  map (fun k =>
         let angle (j : nat) :=
           let t := (2 * np_pi * float_of_nat ((k * j) mod n) / float_of_nat n)%float in
           if PrimFloat.ltb np_pi t then (t - 2 * np_pi)%float else t in
         (fsum (map (fun p => (snd p * ref_cos (angle (fst p)))%float) (enumerate xs)),
          fsum (map (fun p => (- (snd p * ref_sin (angle (fst p))))%float) (enumerate xs))))
      (seq 0 (n / 2 + 1)).

Definition ref_abs_complex (z : float * float) : float :=
  PrimFloat.sqrt (fst z * fst z + snd z * snd z)%float.

(** [np.isfinite] *)
Definition is_finite (x : float) : bool :=
  negb (PrimFloat.is_nan x || PrimFloat.is_infinity x).

Definition ref_mfcc (y : audio) (sr : float) (n_fft n_mfcc : nat)
  : result (list (list float)) :=
  match y with
  | NdArray xs =>
      if forallb is_finite xs
      then Ok (repeat (repeat 0%float (1 + List.length xs / 512)) n_mfcc)
      else Raise ParameterError
  | PyList _ => Raise ParameterError
  end.

(** A [Sensors] object whose sensors were registered by [configure_device]. *)
Definition with_sensors (self : Sensors) (ids : list string) : Sensors :=
  {| s_axes := s_axes self; s_sensors := Some ids; s_minmax := s_minmax self;
     s_dancers := s_dancers self; s_nSensors := s_nSensors self;
     s_nDancers := s_nDancers self |}.

(** The object after [__init__], registration of the nine sensors of [locations]
    and [set_ids]. *)
Definition Sensors_ready : Sensors :=
  snd (set_ids (with_sensors Sensors_init (dict_keys locations))).


(** ** Observations the statements are about *)

(** [self.minmax[idx][key][i]], when it exists. *)
Definition bound_at (self : Sensors) (idx : nat) (key : string) (i : nat) : option float :=
  match nth_error (s_minmax self) idx with
  | Some sensor =>
      match dict_get key (mm_bounds sensor) with
      | Some vec => nth_error vec i
      | None => None
      end
  | None => None
  end.

(** A call [scale_data(sensor_id, data_type, value)]. *)
Definition scale_call : Type := (string * string * list float)%type.

(** The object after a sequence of [scale_data] calls, whatever each one returned or
    raised. *)
Fixpoint scale_calls (calls : list scale_call) (self : Sensors) : Sensors :=
  match calls with
  | [] => self
  | (sensor_id, data_type, value) :: calls' =>
      scale_calls calls' (snd (scale_data sensor_id data_type value self))
  end.

(** Every stored minimum of [self'] is at or below the one [self] stores in the same
    place, and every stored maximum at or above. *)
Definition widened (self self' : Sensors) : Prop :=
  forall idx data_type i,
    (forall lo, bound_at self idx (data_type ++ "_min") i = Some lo ->
       exists lo', bound_at self' idx (data_type ++ "_min") i = Some lo'
                   /\ (lo' = lo \/ flt lo' lo)) /\
    (forall hi, bound_at self idx (data_type ++ "_max") i = Some hi ->
       exists hi', bound_at self' idx (data_type ++ "_max") i = Some hi'
                   /\ (hi' = hi \/ flt hi hi')).

(** Every stored minimum is at most 0 and every stored maximum at least 1. *)
Definition bounds_apart (self : Sensors) : Prop :=
  forall idx data_type i,
    (forall lo, bound_at self idx (data_type ++ "_min") i = Some lo -> fle lo 0) /\
    (forall hi, bound_at self idx (data_type ++ "_max") i = Some hi -> fle 1 hi).

(** The bound vectors are the ones [__init__] wrote. *)
Definition initial_bounds (self : Sensors) : Prop :=
  Forall (fun sensor => mm_bounds sensor = mm_bounds minmax_init) (s_minmax self).

(** [self.dancers[d][s][l]], when it exists, and the series it holds. *)
Definition entry_at (self : Sensors) (d : nat) (s l : string) : option entry :=
  match nth_error (s_dancers self) d with
  | Some dancer =>
      match dict_get s dancer with
      | Some sd => dict_get l sd
      | None => None
      end
  | None => None
  end.

Definition series_at (self : Sensors) (d : nat) (s l : string) : option (list float) :=
  match entry_at self d s l with
  | Some (Series xs) => Some xs
  | _ => None
  end.

(** A call [send_data(sensor_id, data_type, value)]. *)
Definition send_call : Type := (string * string * list float)%type.

(** The calls made one after the other, as the recording loop makes them: the first
    exception ends the run. *)
Definition send_calls (calls : list send_call) : M Sensors unit :=
  for_each calls (fun '(sensor_id, data_type, value) => send_data sensor_id data_type value).

(** The dispatch rule in the spec's words (section 4.3): the samples a call delivers,
    each with the label of the series it goes to.  Vector channels send each axis to
    its own series, orientation sends pitch, roll and yaw, rate of turn its scalar,
    total acceleration its scalar and the hit flag. *)
Definition routes (axes : list string) (data_type : string) (value : list float)
  : list (string * float) :=
  if existsb (String.eqb data_type) ["acc"; "gyr"; "mag"] then
    flat_map (fun p : nat * float =>
                match nth_error axes (fst p) with
                | Some axis => [((data_type ++ "_" ++ axis)%string, snd p)]
                | None => []
                end)
             (enumerate value)
  else if data_type =? "ori" then combine ["ori_p"; "ori_r"; "ori_y"] value
  else if data_type =? "rot" then combine ["rot"] value
  else if data_type =? "tot_a" then combine ["tot_a"; "b_tot_a"] value
  else [].

(** The samples a call delivers to the series [l] of sensor [s] of dancer [d]. *)
Definition delivered (axes : list string) (d : nat) (s l : string) (call : send_call)
  : list float :=
  let '(sensor_id, data_type, value) := call in
  match dict_get sensor_id locations with
  | Some loc =>
      if ((d =? loc_dancer loc - 1)%nat && (s =? snsr (loc_sensor loc))%string)%bool
      then map snd (filter (fun p => (l =? fst p)%string) (routes axes data_type value))
      else []
  | None => []
  end.

(** The last [n] elements of a list (the whole list when it is shorter). *)
Definition lastn {A} (n : nat) (l : list A) : list A := skipn (List.length l - n) l.

(** The 500-sample cutoff, and an append followed by it. *)
Definition cut (xs : list float) : list float :=
  if (0 <? Z.of_nat (List.length xs) - 500)%Z then tl xs else xs.

Definition push (xs : list float) (v : float) : list float := cut (xs ++ [v]).

Definition same_path (d : nat) (s l : string) (d0 : nat) (s0 l0 : string) : bool :=
  ((d =? d0)%nat && (s =? s0)%string && (l =? l0)%string)%bool.

(** Run on an object whose [axes] attribute is [axes], the method [m], when it
    returns, leaves [axes] alone and changes the series at ([d], [s], [l]) by [f]. *)
Definition acts (axes : list string) (d : nat) (s l : string)
    (m : M Sensors unit) (f : list float -> list float) : Prop :=
  forall self self',
    s_axes self = axes ->
    m self = (Ok tt, self') ->
    s_axes self' = axes /\
    series_at self' d s l = option_map f (series_at self d s l).

(** An append and a cutoff that reach the series only when they are aimed at it. *)
Definition app_if (here : bool) (arg : option float) (xs : list float) : list float :=
  match arg with
  | Some v => if here then xs ++ [v] else xs
  | None => xs
  end.

Definition cut_if (here : bool) (xs : list float) : list float :=
  if here then cut xs else xs.

(** 501 rate-of-turn samples 1.0, 2.0, ..., 501.0 of the left sensor of dancer 1. *)
Definition rot_stream : list send_call :=
  map (fun n => ("00B4F11A", "rot", [float_of_nat n])) (seq 1 501).

(** The Euler entries as the specification words them: the angle in radians shifted
    by [pi] and by an additional [pi]. *)
Definition euler_as_specified (euler : float * float * float) : list float :=
  let '(x, y, z) := euler in
  [np_pi * x / 180.0 + np_pi + np_pi; np_pi * y / 180.0 + np_pi + np_pi;
   np_pi * z / 180.0 + np_pi + np_pi]%float.

(** A packet with an orientation and nothing else. *)
Definition orientation_packet (sensor_id : string) (euler : float * float * float) : Packet :=
  {| containsStoredDeviceId := true; deviceId := sensor_id;
     containsCalibratedData := false;
     freeAcceleration := (0, 0, 0)%float;
     calibratedGyroscopeData := (0, 0, 0)%float;
     calibratedMagneticField := (0, 0, 0)%float;
     containsOrientation := true;
     orientationEuler := euler;
     orientationQuaternion := (1, 0, 0, 0)%float;
     time_readings := (0, 0)%float |}.

(** A recorder about to read its first packet, with the default threshold 30. *)
Definition recorder_ready : Recorder := recorder_start Sensors_ready 30%float.

(** [self.dancers[d][s][l][k]] for a correlation dictionary under [l]. *)
Definition corr_at (self : Sensors) (d : nat) (s l k : string) : option (list float) :=
  match entry_at self d s l with
  | Some (Corr m) => dict_get k m
  | _ => None
  end.

(** Every dancer has the sensors [snsr_1] .. [snsr_<nSensors>], and every label of
    a sensor that the analytics loops do not pass over holds a series. *)
Definition well_formed (self : Sensors) : bool :=
  forallb (fun dancer =>
    forallb (fun i =>
      match dict_get (snsr i) dancer with
      | Some sd =>
          forallb (fun label =>
                     excluded label
                     || match dict_get label sd with
                        | Some (Series _) => true
                        | _ => false
                        end)
                  (dict_keys sd)
      | None => false
      end)
      (seq 1 (s_nSensors self)))
    (s_dancers self).

(** The channels a spectral method works on, in the order of its loops: every
    dancer, every sensor position, every label that is not passed over and whose
    series holds at least 32 samples; [f] says what is collected for each. *)
Definition over_channels {B} (self : Sensors)
    (f : nat -> string -> string -> list float -> list B) : list B :=
  flat_map (fun d =>
    match nth_error (s_dancers self) d with
    | Some dancer =>
        flat_map (fun i =>
          match dict_get (snsr i) dancer with
          | Some sd =>
              flat_map (fun label =>
                if excluded label then []
                else match dict_get label sd with
                     | Some (Series xs) =>
                         if (List.length xs <? 32)%nat then [] else f d (snsr i) label xs
                     | _ => []
                     end)
                (dict_keys sd)
          | None => []
          end)
          (seq 1 (s_nSensors self))
    | None => []
    end)
    (seq 0 (List.length (s_dancers self))).

Definition channel : Type := (nat * string * string * list float)%type.

Definition eligible_channels (self : Sensors) : list channel :=
  over_channels self (fun d s label xs => [(d, s, label, xs)]).

Definition channel_label (c : channel) : string := snd (fst c).
Definition channel_series (c : channel) : list float := snd c.

(** A coefficient between -1 and 1 (so neither a NaN nor an infinity). *)
Definition in_unit_range (v : float) : Prop := fle (-1) v /\ fle v 1.

(** The attributes of the object other than the content of the store. *)
Definition same_attributes (self self' : Sensors) : Prop :=
  s_axes self' = s_axes self /\ s_sensors self' = s_sensors self /\
  s_minmax self' = s_minmax self /\ s_nSensors self' = s_nSensors self /\
  s_nDancers self' = s_nDancers self /\
  List.length (s_dancers self') = List.length (s_dancers self).

(** The correlation series [calculate_correlation_self] computes: under sensor [i],
    for a label that is not passed over, the series keyed by a sensor [j] with
    [i < j]. *)
Definition self_target (nSensors : nat) (d : nat) (s l k : string) : Prop :=
  exists label i j,
    excluded label = false /\ l = correlation_key label /\
    s = snsr i /\ k = snsr j /\ 1 <= i /\ i < j /\ j <= nSensors.

(** The correlation series [calculate_correlation_others] computes: for a
    configured pair of composite ids, under the dancer and sensor of the first id,
    the series keyed [dancer_<n>] with [n] one more than the dancer number of the
    second id. *)
Definition others_target (nDancers : nat) (d : nat) (s l k : string) : Prop :=
  exists label a b,
    In (a, b) correlation_others_combos /\ a <> b /\
    excluded label = false /\ l = correlation_key label /\
    py_pos nDancers (Z.of_nat (round_div10 a) - 1) = Some d /\
    s = snsr (a mod 10) /\ k = dancer_key (round_div10 b + 1).

(** [self'] differs from [self] at most in the correlation series [T] selects. *)
Definition frame (T : nat -> string -> string -> string -> Prop) (self self' : Sensors)
  : Prop :=
  same_attributes self self' /\
  (forall d s l, series_at self' d s l = series_at self d s l) /\
  (forall d s l k, corr_at self' d s l k = corr_at self d s l k \/ T d s l k).

(** Every coefficient stored in [self'] was already stored in the same series of
    [self] or lies in [[-1, 1]]. *)
Definition new_coefficients_in_range (self self' : Sensors) : Prop :=
  same_attributes self self' /\
  forall d s l k ys,
    corr_at self' d s l k = Some ys ->
    exists xs, corr_at self d s l k = Some xs /\
               Forall (fun v => In v xs \/ in_unit_range v) ys.

(** A property of the object kept by the two mutations of a correlation series
    (an append of a value satisfying [V], the removal of the first element) made
    at a place selected by [T]. *)
Definition corr_updates_keep (P : Sensors -> Prop) (V : float -> Prop)
    (T : nat -> string -> string -> string -> Prop) : Prop :=
  forall self d0 s0 l0 key m xs ys,
    P self ->
    entry_at self d0 s0 l0 = Some (Corr m) ->
    dict_get key m = Some xs ->
    T d0 s0 l0 key ->
    ((exists v, V v /\ ys = xs ++ [v]) \/ (exists x, xs = x :: ys)) ->
    P (snd (put_entry d0 s0 l0 (Corr (dict_upd key (fun _ => ys) m)) self)).

(** Two acceleration samples for the left and for the right sensor of dancer 1. *)
Definition few_samples : list send_call :=
  [("00B4F11A", "acc", [1; 2; 3]); ("00B4F114", "acc", [2; 1; 5]);
   ("00B4F11A", "acc", [2; 0; 1]); ("00B4F114", "acc", [5; 3; 2])]%float.

(** An object whose only series holds three samples. *)
Definition short_store : Sensors :=
  with_dancers Sensors_init
    [[("snsr_1", [("acc_x", Series [1; 2; 3]%float)]);
      ("snsr_2", [("acc_x", Series [3; 2; 1]%float)])]].

(** A property of the object kept by the two guarded assignments of the loop is kept
    by [scale_data]. *)
Definition guarded_updates_keep (P : Sensors -> Prop) : Prop :=
  forall self idx data_type i val lo hi,
    P self ->
    bound_at self idx (data_type ++ "_min") i = Some lo ->
    bound_at self idx (data_type ++ "_max") i = Some hi ->
    (flt val lo -> P (snd (bound_set idx (data_type ++ "_min") i val self))) /\
    (flt hi val -> P (snd (bound_set idx (data_type ++ "_max") i val self))).

(** What one iteration of the vector-channel loop does to the series. *)
Definition axis_step (axes : list string) (here : bool) (l data_type : string)
    (p : nat * float) (xs : list float) : list float :=
  match nth_error axes (fst p) with
  | Some axis =>
      if (here && (l =? data_type ++ "_" ++ axis)%string)%bool then push xs (snd p) else xs
  | None => xs
  end.

(** A method that cannot return acts as anything. *)
Definition never (m : M Sensors unit) : Prop :=
  forall self self', m self <> (Ok tt, self').

Section Features.

Variable np_cos : float -> float.
Variable np_fft_rfft : list float -> list (float * float).
Variable np_abs_complex : float * float -> float.
Variable mfcc : audio -> float -> nat -> nat -> result (list (list float)).

(** The feature vector [calculate_fft] computes from a series. *)
Definition fft_feature (c : channel) : list float :=
  map np_abs_complex
      (np_fft_rfft (periodic np_cos (channel_label c) (window32 (channel_series c)))).

(** The exceptions a run of [calculate_mfcc] on a store in place can end with: the
    [ParameterError] of a signal librosa does not take, or what [mfcc] raised on an
    array. *)
Definition mfcc_exception (fs : float) (e : exn) : Prop :=
  e = ParameterError \/ exists xs, mfcc (NdArray xs) fs 32 13 = Raise e.

End Features.

(** A channel whose window [calculate_mfcc] passes to [mfcc] as the list slice it
    is (lines 287-290): its label holds neither [ori] nor [mag]. *)
Definition list_channel (c : channel) : bool :=
  negb (contains "ori" (channel_label c)) && negb (contains "mag" (channel_label c)).

(** Outcomes of a computation run in state [s].  It settles: the state is left as
    it was, and an exception, if one is raised, is one of [E].  It fails: it raises
    an exception of [E] and leaves the state as it was. *)
Definition settles {S A} (E : exn -> Prop) (s : S) (out : result A * S) : Prop :=
  snd out = s /\ match fst out with Ok _ => True | Raise e => E e end.

Definition fails {S A} (E : exn -> Prop) (s : S) (out : result A * S) : Prop :=
  exists e, out = (Raise e, s) /\ E e.

(** ** Further observations: scaling and registration *)

(** The ratio [(val - minimum) / (maximum - minimum)] for component [i], from the
    bounds the object stores. *)
Definition ratio_at (self : Sensors) (idx : nat) (data_type : string) (i : nat)
    (val : float) : option float :=
  match bound_at self idx (data_type ++ "_min") i,
        bound_at self idx (data_type ++ "_max") i with
  | Some lo, Some hi => Some ((val - lo) / (hi - lo))%float
  | _, _ => None
  end.

(** Component [i] of a call's [value] lies within the stored bounds, as the two
    comparisons of the loop decide it (a NaN does). *)
Definition within_bounds (self : Sensors) (idx : nat) (data_type : string)
    (value : list float) : Prop :=
  forall i val lo hi,
    nth_error value i = Some val ->
    bound_at self idx (data_type ++ "_min") i = Some lo ->
    bound_at self idx (data_type ++ "_max") i = Some hi ->
    PrimFloat.ltb val lo = false /\ PrimFloat.ltb hi val = false.

(** No dictionary of [self.minmax] carries an id: the object as [__init__] leaves
    it. *)
Definition no_ids (self : Sensors) : Prop :=
  Forall (fun sensor => mm_id sensor = None) (s_minmax self).

(** The ids are keys of [Sensors.locations]. *)
Definition known_ids (ids : list string) : Prop :=
  Forall (fun sensor_id => dict_mem sensor_id locations = true) ids.

(** ** Replaying a log (sensors.py, lines 418-546) *)

(** [send_log_data] is handed the list [dancers] itself: the list is all the state
    it mutates.  An access [dancers[d][sensor_key][label]] made through the list
    alone is the access the methods make through [self.dancers]. *)
Definition on_dancers {A} (m : M Sensors A) : M store A :=
  fun dancers =>
    let (res, self) := m (with_dancers Sensors_init dancers) in (res, s_dancers self).

(** [dancers[d_idx]...] for an index computed as a dancer number minus one, which
    is [-1] for a dancer number 0: the access at the position the index resolves
    to. *)
Definition at_dancer {A} (d_idx : Z) (access : nat -> M Sensors A) : M store A :=
  dancers <- get ;;
  d <- lift_opt IndexError (py_pos (List.length dancers) d_idx) ;;
  on_dancers (access d).

(** [send_log_data] (lines 467-546).  In the [ori] branch the label is formatted
    from [pry] before the [for] statement that binds it: [pry] is a local of the
    function, unbound at that line. *)
Definition send_log_data (sensor_id data_type : string) (value : list float)
    (locations : dict (string * nat * nat)) (axes : list string) : M store unit :=
  loc <- lift_opt (KeyError sensor_id) (dict_get sensor_id locations) ;;
  let s_idx := loc_sensor loc in
  let d_idx := (Z.of_nat (loc_dancer loc) - 1)%Z in
  let sensor_key := snsr s_idx in
  if existsb (String.eqb data_type) ["acc"; "gyr"; "mag"] then
    for_each (enumerate value) (fun '(i, val) =>
      axis <- index axes i ;;
      let data_label := (data_type ++ "_" ++ axis)%string in
      at_dancer d_idx (fun d => list_append d sensor_key data_label (Some val)) ;;
      at_dancer d_idx (fun d => trim d sensor_key data_label))
  else if data_type =? "ori" then
    at_dancer d_idx (fun d =>
      list_append d sensor_key (data_type ++ "_p") (nth_error value 0)) ;;
    at_dancer d_idx (fun d =>
      list_append d sensor_key (data_type ++ "_r") (nth_error value 1)) ;;
    at_dancer d_idx (fun d =>
      list_append d sensor_key (data_type ++ "_y") (nth_error value 2)) ;;
    pry <- lift_opt (UnboundLocalError "pry") (@None string) ;;
    let data_label := (data_type ++ "_" ++ pry)%string in
    for_each ["p"; "r"; "y"] (fun pry =>
      at_dancer d_idx (fun d => trim d sensor_key data_label))
  else if data_type =? "rot" then
    at_dancer d_idx (fun d => list_append d sensor_key data_type (nth_error value 0)) ;;
    at_dancer d_idx (fun d => trim d sensor_key data_type)
  else if data_type =? "tot_a" then
    at_dancer d_idx (fun d => list_append d sensor_key data_type (nth_error value 0)) ;;
    at_dancer d_idx (fun d =>
      list_append d sensor_key ("b_" ++ data_type) (nth_error value 1)) ;;
    at_dancer d_idx (fun d => trim d sensor_key data_type) ;;
    at_dancer d_idx (fun d => trim d sensor_key ("b_" ++ data_type))
  else ret tt.

(** The characters [str.split()] splits at, among the ASCII ones. *)
Definition is_space (c : ascii) : bool :=
  let n := nat_of_ascii c in
  ((9 <=? n) && (n <=? 13) || (28 <=? n) && (n <=? 32))%nat.

(** [s.split()]: the maximal runs of characters that are not white space. *)
Fixpoint split_ws (cur : string) (s : string) : list string :=
  match s with
  | EmptyString => if (cur =? "")%string then [] else [cur]
  | String c s' =>
      if is_space c
      then (if (cur =? "")%string then split_ws "" s' else cur :: split_ws "" s')
      else split_ws (cur ++ String c "") s'
  end.

(** [s.split(sep)] for a separator that is not empty: [skip] counts the characters
    of a separator still to pass over. *)
Fixpoint split_sep (sep : string) (skip : nat) (cur : string) (s : string) : list string :=
  match s with
  | EmptyString => [cur]
  | String c s' =>
      match skip with
      | S k => split_sep sep k cur s'
      | O => if String.prefix sep s
             then cur :: split_sep sep (String.length sep - 1) "" s'
             else split_sep sep 0 (cur ++ String c "") s'
      end
  end.

(** [l[a:b]] for [0 <= a <= b]. *)
Definition slice {A} (a b : nat) (l : list A) : list A := firstn (b - a) (skipn a l).

(** The chain of comparisons of [plot_log] (lines 433-450) on the first token of a
    line: the sensor id it selects, the one of the line before when no branch
    matches. *)
Definition log_sensor_id (token : string) (sensor_id : option string) : option string :=
  if token =? "11:" then Some "00B4F115"
  else if token =? "12:" then Some "00B4F116"
  else if token =? "13:" then Some "00B4F11D"
  else if token =? "21:" then Some "00B42D56"
  else if token =? "22:" then Some "00B42D32"
  else if token =? "23:" then Some "00B42D44"
  else if token =? "31:" then Some "00B42D54"
  else if token =? "32:" then Some "00B42D4E"
  else if token =? "33:" then Some "00B42B48"
  else sensor_id.

Section LogReplay.

(** [float(s)] for a string: the number, or the exception. *)
Variable py_float : string -> result float.

(** [[float(val) for val in fields]] *)
Fixpoint floats (fields : list string) : M store (list float) :=
  match fields with
  | [] => ret []
  | val :: rest => x <- call (py_float val) ;; xs <- floats rest ;; ret (x :: xs)
  end.

(** The body of the loop of [plot_log] for one line (lines 431-465); it returns the
    sensor id the next line starts with.  [locations[None]], for a first line that
    selects no sensor, raises [KeyError] with the key [None]. *)
Definition plot_line (line : string) (sensor_id : option string) (axes : list string)
  : M store (option string) :=
  let split := split_ws "" line in
  token <- index split 0 ;;
  let sensor_id := log_sensor_id token sensor_id in
  let split := split_sep ": " 0 "" line in
  acc_value <- floats (slice 1 4 split) ;;
  field <- index split 4 ;;
  tot_a <- call (py_float field) ;;
  let tot_a_value := [tot_a; 0%float] in
  gyr_value <- floats (slice 5 8 split) ;;
  field <- index split 8 ;;
  rot <- call (py_float field) ;;
  let rot_value := [rot] in
  mag_value <- floats (slice 9 12 split) ;;
  euler_value <- floats (slice 12 15 split) ;;
  let send data_type value :=
    match sensor_id with
    | Some sensor_id => send_log_data sensor_id data_type value locations axes
    | None => raise (KeyError "None")
    end in
  send "acc" acc_value ;;
  send "tot_a" tot_a_value ;;
  send "gyr" gyr_value ;;
  send "rot" rot_value ;;
  send "mag" mag_value ;;
  send "ori" euler_value ;;
  ret sensor_id.

Fixpoint plot_lines (lines : list string) (sensor_id : option string) (axes : list string)
  : M store unit :=
  match lines with
  | [] => ret tt
  | line :: rest =>
      sensor_id <- plot_line line sensor_id axes ;;
      plot_lines rest sensor_id axes
  end.

(** [plot_log(file_path, dancers, axes)], for the lines [readlines()] returns. *)
Definition plot_log (lines : list string) (axes : list string) : M store unit :=
  plot_lines lines None axes.

End LogReplay.

(** The composite id [recording_loop] puts first in a message and in a log line for
    the sensor at a location: [dancer * 10 + sensor] (xda_device.py, line 331), and
    the first token of the line written for it ([f'{elem}: '], line 413). *)
Definition osc_id (loc : string * nat * nat) : nat := loc_dancer loc * 10 + loc_sensor loc.
Definition log_token (loc : string * nat * nat) : string := str (osc_id loc) ++ ":".

(** ** Further observations: the store *)

(** A property of the object kept by replacing a series of sensor [s0] of dancer
    [d0] by another series. *)
Definition series_updates_keep (P : Sensors -> Prop) (d0 : nat) (s0 : string) : Prop :=
  forall self l xs ys,
    P self ->
    entry_at self d0 s0 l = Some (Series xs) ->
    P (snd (put_entry d0 s0 l (Series ys) self)).

(** [self'] differs from [self] at most in the content of series of sensor [s0] of
    dancer [d0]: the attributes, the keys of every dictionary, the correlation
    series and the series of the other sensors are the same. *)
Definition only_series_of (d0 : nat) (s0 : string) (self self' : Sensors) : Prop :=
  same_attributes self self' /\
  (forall d s l k, corr_at self' d s l k = corr_at self d s l k) /\
  (forall d s l, d <> d0 \/ s <> s0 -> entry_at self' d s l = entry_at self d s l) /\
  (forall d s l,
     match entry_at self d s l with
     | Some (Series _) => exists ys, entry_at self' d s l = Some (Series ys)
     | other => entry_at self' d s l = other
     end).

(** [dancers[d][s][l]] for a store handed around as a list, when it is a series. *)
Definition series_in (dancers : store) (d : nat) (s l : string) : option (list float) :=
  series_at (with_dancers Sensors_init dancers) d s l.

(** A function on the store alone does what a method does through [self.dancers],
    on an object whose [axes] attribute is [axes]: same outcome, same store. *)
Definition replays {A} (axes : list string) (f : M store A) (m : M Sensors A) : Prop :=
  forall self,
    s_axes self = axes ->
    f (s_dancers self) = (fst (m self), s_dancers (snd (m self))) /\
    s_axes (snd (m self)) = axes.

(** ** Further observations: the recording loop *)

(** The loop's variables that outlive an iteration, the threshold and the messages
    sent are the same in [r'] as in [r]. *)
Definition same_locals (r r' : Recorder) : Prop :=
  r_sent r' = r_sent r /\ r_dancer r' = r_dancer r /\ r_sensor r' = r_sensor r /\
  r_sensor_id r' = r_sensor_id r /\ r_acc_threshold r' = r_acc_threshold r.

(** A packet that carries no device id, with calibrated data and an orientation. *)
Definition anonymous_packet : Packet :=
  {| containsStoredDeviceId := false; deviceId := "";
     containsCalibratedData := true;
     freeAcceleration := (100, 200, 300)%float;
     calibratedGyroscopeData := (1, 2, 3)%float;
     calibratedMagneticField := (0.5, 0.25, 0.125)%float;
     containsOrientation := true;
     orientationEuler := (10, 20, 30)%float;
     orientationQuaternion := (1, 0, 0, 0)%float;
     time_readings := (50, 51)%float |}.

(** The same data sent by a sensor. *)
Definition full_packet (sensor_id : string) : Packet :=
  {| containsStoredDeviceId := true; deviceId := sensor_id;
     containsCalibratedData := true;
     freeAcceleration := (100, 200, 300)%float;
     calibratedGyroscopeData := (1, 2, 3)%float;
     calibratedMagneticField := (0.5, 0.25, 0.125)%float;
     containsOrientation := true;
     orientationEuler := (10, 20, 30)%float;
     orientationQuaternion := (1, 0, 0, 0)%float;
     time_readings := (50, 51)%float |}.

(** ** Further observations: the correlation methods *)

(** The keys of [self.dancers[d][s]], in their order. *)
Definition keys_at (self : Sensors) (d : nat) (s : string) : option (list string) :=
  match nth_error (s_dancers self) d with
  | Some dancer => option_map dict_keys (dict_get s dancer)
  | None => None
  end.

Section Coefficients.

Variable np_corrcoef : list float -> list float -> float.

(** What a correlation loop yields for one label of the pair ([d1], [s1]),
    ([d2], [s2]), from the series the object holds: nothing for a label that is
    passed over or a series shorter than 32, else the label with the coefficient of
    the two windows, 0 standing for a NaN. *)
Definition label_coefficient (self : Sensors) (d1 : nat) (s1 : string) (d2 : nat)
    (s2 label : string) : list (string * float) :=
  if excluded label then []
  else match series_at self d1 s1 label, series_at self d2 s2 label with
       | Some xs, Some ys =>
           if ((List.length xs <? 32)%nat || (List.length ys <? 32)%nat)%bool then []
           else [(label, corrVal_of (np_corrcoef (window32 xs) (window32 ys)))]
       | _, _ => []
       end.

(** The same for every label of ([d1], [s1]), in the order of its keys. *)
Definition pair_coefficients (self : Sensors) (d1 : nat) (s1 : string) (d2 : nat)
    (s2 : string) : list (string * float) :=
  match keys_at self d1 s1 with
  | Some keys => flat_map (label_coefficient self d1 s1 d2 s2) keys
  | None => []
  end.

End Coefficients.

(** The store holds what a correlation loop looks up for the pair: the sensor
    [s1] of dancer [d1] exists and, for each of its labels that is not passed
    over, both sensors hold a series and, when both are long enough, the first
    sensor holds a correlation series under [key]. *)
Definition pair_ready (self : Sensors) (d1 : nat) (s1 : string) (d2 : nat)
    (s2 key : string) : bool :=
  match keys_at self d1 s1 with
  | Some keys =>
      forallb (fun label =>
        excluded label
        || match series_at self d1 s1 label, series_at self d2 s2 label with
           | Some xs, Some ys =>
               (List.length xs <? 32)%nat || (List.length ys <? 32)%nat
               || match corr_at self d1 s1 (correlation_key label) key with
                  | Some _ => true
                  | None => false
                  end
           | _, _ => false
           end) keys
  | None => false
  end.

(** The same for every pair [calculate_correlation_self] visits. *)
Definition self_ready (self : Sensors) : bool :=
  forallb (fun d =>
    forallb (fun i =>
      forallb (fun j => pair_ready self d (snsr i) d (snsr j) (snsr j))
              (seq (i + 1) (s_nSensors self - i)))
      (seq 1 (s_nSensors self - 1)))
    (seq 0 (List.length (s_dancers self))).

(** [self'] has the attributes, the keys and the series of [self], and a
    correlation series wherever [self] has one. *)
Definition store_kept (self self' : Sensors) : Prop :=
  same_attributes self self' /\
  (forall d s l, series_at self' d s l = series_at self d s l) /\
  (forall d s, keys_at self' d s = keys_at self d s) /\
  (forall d s l k, corr_at self d s l k <> None -> corr_at self' d s l k <> None).

(** What [calculate_correlation_self] is to return: for every dancer, every pair
    of sensors [i < j] in the order of the loops, the coefficients of the pair. *)
Definition self_coefficients (np_corrcoef : list float -> list float -> float)
    (self : Sensors) : list (string * float) :=
  flat_map (fun d =>
    flat_map (fun i =>
      flat_map (fun j => pair_coefficients np_corrcoef self d (snsr i) d (snsr j))
               (seq (i + 1) (s_nSensors self - i)))
      (seq 1 (s_nSensors self - 1)))
    (seq 0 (List.length (s_dancers self))).

(** The object after the four calls of [few_samples]. *)
Definition sampled : Sensors := snd (send_calls few_samples Sensors_ready).

(** ** Further observations: the store [dancers] builds *)

(** The store in closed form.  A correlation dictionary holds a series per sensor
    of the dancer and one per other dancer; a sensor holds the fifteen series and,
    when the dancer has at least two sensors, a correlation dictionary per label. *)
Definition corr_template (dancer1_idx number_of_dancers number_of_sensors : nat)
  : dict (list float) :=
  map (fun jj => (snsr jj, zeros500)) (seq 1 number_of_sensors)
  ++ map (fun dancer2_idx => (dancer_key (dancer2_idx + 1), zeros500))
         (filter (fun dancer2_idx => negb (dancer2_idx =? dancer1_idx)%nat)
                 (seq 0 number_of_dancers)).

Definition sensor_template (dancer1_idx number_of_dancers number_of_sensors : nat)
  : dict entry :=
  map (fun label => (label, Series zeros500)) labels
  ++ (if (2 <=? number_of_sensors)%nat
      then map (fun label =>
                  (correlation_key label,
                   Corr (corr_template dancer1_idx number_of_dancers number_of_sensors)))
               labels
      else []).

Definition store_template (number_of_dancers number_of_sensors : nat) : store :=
  map (fun dancer1_idx =>
         map (fun i => (snsr i,
                        sensor_template dancer1_idx number_of_dancers number_of_sensors))
             (seq 1 number_of_sensors))
      (seq 0 number_of_dancers).

(** ** Further observations: the division of [scale_data] *)

(** A binary64 number that is neither a zero nor a NaN. *)
Definition SFnonzero (f : spec_float) : Prop :=
  match f with
  | S754_finite _ _ _ | S754_infinity _ => True
  | _ => False
  end.

(** The outcome is a [ZeroDivisionError]. *)
Definition divides_by_zero {A} (r : result A) : bool :=
  match r with
  | Raise ZeroDivisionError => true
  | _ => false
  end.

(** The first [n] components of both bound vectors of [data_type] exist in
    dictionary [idx]. *)
Definition has_bounds (self : Sensors) (idx : nat) (data_type : string) (n : nat) : Prop :=
  forall i, i < n ->
    bound_at self idx (data_type ++ "_min") i <> None /\
    bound_at self idx (data_type ++ "_max") i <> None.

(** ** Further observations: calls that return *)

(** The number [n] of components of the value is one the branch of [send_data]
    for the data type can read: at most one per axis in the vector channels, at
    least the components the branch indexes in the others. *)
Definition arity_ok (data_type : string) (n : nat) : bool :=
  if existsb (String.eqb data_type) ["acc"; "gyr"; "mag"] then (n <=? 3)%nat
  else if data_type =? "ori" then (3 <=? n)%nat
  else if data_type =? "rot" then (1 <=? n)%nat
  else if data_type =? "tot_a" then (2 <=? n)%nat
  else true.

(** The axes are the ones [__init__] sets and sensor [s] of dancer [d] holds a
    series under each of the fifteen labels. *)
Definition holds_series (d : nat) (s : string) (self : Sensors) : Prop :=
  s_axes self = ["x"; "y"; "z"] /\
  forall l, In l labels -> series_at self d s l <> None.

(** [x is not None] *)
Definition present {A} (o : option A) : bool :=
  match o with Some _ => true | None => false end.

(** What the loop needs of the object for a sensor at [loc]: a series under each of
    the fifteen labels, a dictionary of [self.minmax] with the sensor's id, and in
    it the first component of both bounds of [rot]. *)
Definition located_ready (self : Sensors) (sensor_id : string) (loc : string * nat * nat)
  : bool :=
  forallb (fun l => present (series_at self (loc_dancer loc - 1) (snsr (loc_sensor loc)) l))
          labels
  && match find_sensor sensor_id (s_minmax self) with
     | Some idx => present (bound_at self idx "rot_min" 0)
                   && present (bound_at self idx "rot_max" 0)
     | None => false
     end.

(** What [calculate_correlation_others] needs for its one pair of composite ids:
    for every label of sensor 2 of the first dancer that is not passed over, both
    series and the correlation series keyed [dancer_3]. *)
Definition others_ready (self : Sensors) : bool :=
  match keys_at self 0 "snsr_2" with
  | Some keys =>
      forallb (fun label =>
        excluded label
        || (present (series_at self 0 "snsr_2" label)
            && present (series_at self 1 "snsr_2" label)
            && present (corr_at self 0 "snsr_2" (correlation_key label) "dancer_3")))
        keys
  | None => false
  end.

(** The invariant of the recording loop on the [Sensors] object: the axes of
    [__init__], bounds apart, every located sensor ready, at least two dancers, and
    the correlated pair ready. *)
Definition recording_ready (self : Sensors) : Prop :=
  s_axes self = ["x"; "y"; "z"] /\
  bounds_apart self /\
  forallb (fun kv => located_ready self (fst kv) (snd kv)) locations = true /\
  1 < List.length (s_dancers self) /\
  others_ready self = true.

(** [self'] has the axes, the number of dancers, the keys and the sensor ids of
    [self], and a series, a correlation series and a bound wherever [self] has
    one. *)
Definition shape_kept (self self' : Sensors) : Prop :=
  s_axes self' = s_axes self /\
  List.length (s_dancers self') = List.length (s_dancers self) /\
  (forall d s, keys_at self' d s = keys_at self d s) /\
  (forall d s l, present (series_at self d s l) = true ->
                 present (series_at self' d s l) = true) /\
  (forall d s l k, present (corr_at self d s l k) = true ->
                   present (corr_at self' d s l k) = true) /\
  (forall sensor_id, find_sensor sensor_id (s_minmax self')
                     = find_sensor sensor_id (s_minmax self)) /\
  (forall idx key i, present (bound_at self idx key i) = true ->
                     present (bound_at self' idx key i) = true).

(** Total correctness with an invariant: run in a state satisfying [I], [m]
    returns a value satisfying [Q] and leaves a state satisfying [I]. *)
Definition returns {S A} (I : S -> Prop) (m : M S A) (Q : A -> Prop) : Prop :=
  forall s, I s -> exists a s', m s = (Ok a, s') /\ I s' /\ Q a.

(** The invariant of the loop once a packet with a device id was handled: the
    object is ready and the loop variables hold a located id, its dancer and its
    sensor number. *)
Definition loop_ready (r : Recorder) : Prop :=
  recording_ready (r_sensors r) /\
  exists sensor_id loc,
    dict_get sensor_id locations = Some loc /\ r_sensor_id r = Some sensor_id /\
    r_dancer r = Some (loc_dancer loc) /\ r_sensor r = Some (loc_sensor loc).

(** A packet that carries a device id carries one [locations] has. *)
Definition known_sender (packet : Packet) : bool :=
  if containsStoredDeviceId packet then dict_mem (deviceId packet) locations else true.

(** The first packet, if there is one, carries a device id. *)
Definition starts_identified (packets : list Packet) : bool :=
  match packets with
  | [] => true
  | packet :: _ => containsStoredDeviceId packet
  end.
(** * Proofs

    ** Order facts on binary64 numbers

    The kernel specifies float comparison through [SFcompare] on the decoded number;
    the lemmas below are the part of the order theory the program's tests rely on. *)

Lemma SFcompare_lt_trans a b c :
  SFcompare a b = Some Lt -> SFcompare b c = Some Lt -> SFcompare a c = Some Lt.
Proof.
  destruct a as [sa|sa| |sa ma ea], b as [sb|sb| |sb mb eb], c as [sc|sc| |sc mc ec];
    simpl; try discriminate;
    try (destruct sa; try discriminate); try (destruct sb; try discriminate);
    try (destruct sc; try discriminate); try reflexivity; try discriminate.
  all: change (PosDef.Pos.compare_cont Eq) with Pos.compare.
  all: destruct (Z.compare_spec ea eb), (Z.compare_spec eb ec), (Z.compare_spec ea ec);
       try discriminate; try reflexivity; try lia; subst.
  all: destruct (Pos.compare_spec ma mb), (Pos.compare_spec mb mc), (Pos.compare_spec ma mc);
       simpl; try discriminate; try reflexivity; try lia.
Qed.

Lemma SFcompare_eq_l a b c r :
  SFcompare a b = Some Eq -> SFcompare b c = Some r -> SFcompare a c = Some r.
Proof.
  destruct a as [sa|sa| |sa ma ea], b as [sb|sb| |sb mb eb], c as [sc|sc| |sc mc ec];
    simpl; try discriminate;
    try (destruct sa; try discriminate); try (destruct sb; try discriminate);
    try (destruct sc; try discriminate); try (intros _ H; exact H); try discriminate.
  all: change (PosDef.Pos.compare_cont Eq) with Pos.compare.
  all: destruct (Z.compare_spec ea eb); try discriminate; subst.
  all: destruct (Pos.compare_spec ma mb); simpl; try discriminate; subst.
  all: intros _ H; exact H.
Qed.

Lemma SFcompare_eq_r a b c r :
  SFcompare a b = Some r -> SFcompare b c = Some Eq -> SFcompare a c = Some r.
Proof.
  destruct a as [sa|sa| |sa ma ea], b as [sb|sb| |sb mb eb], c as [sc|sc| |sc mc ec];
    simpl; try discriminate;
    try (destruct sa; try discriminate); try (destruct sb; try discriminate);
    try (destruct sc; try discriminate); try (intros H _; exact H); try discriminate.
  all: change (PosDef.Pos.compare_cont Eq) with Pos.compare.
  all: destruct (Z.compare_spec eb ec); try discriminate; subst.
  all: destruct (Pos.compare_spec mb mc); simpl; try discriminate; subst.
  all: intros H _; exact H.
Qed.

Lemma SFcompare_antisym a b :
  SFcompare b a = option_map CompOpp (SFcompare a b).
Proof.
  destruct a as [sa|sa| |sa ma ea], b as [sb|sb| |sb mb eb]; simpl; try reflexivity;
    try (destruct sa); try (destruct sb); try reflexivity.
  all: change (PosDef.Pos.compare_cont Eq) with Pos.compare.
  all: rewrite (Z.compare_antisym ea eb); destruct (ea ?= eb)%Z; simpl; try reflexivity.
  all: rewrite (Pos.compare_antisym ma mb); destruct (ma ?= mb)%positive; reflexivity.
Qed.

Lemma flt_fcmp x y : flt x y <-> fcmp x y = Some Lt.
Proof.
  unfold flt, fcmp. rewrite FloatAxioms.ltb_spec. unfold SFltb.
  destruct (SFcompare (Prim2SF x) (Prim2SF y)) as [[]|]; split; congruence.
Qed.

Lemma fle_fcmp x y : fle x y <-> fcmp x y = Some Lt \/ fcmp x y = Some Eq.
Proof.
  unfold fle, fcmp. rewrite FloatAxioms.leb_spec. unfold SFleb.
  destruct (SFcompare (Prim2SF x) (Prim2SF y)) as [[]|]; split;
    (congruence || (intros [?|?]; congruence) || auto).
Qed.

Lemma feqb_fcmp x y : PrimFloat.eqb x y = true <-> fcmp x y = Some Eq.
Proof.
  unfold fcmp. rewrite FloatAxioms.eqb_spec. unfold SFeqb.
  destruct (SFcompare (Prim2SF x) (Prim2SF y)) as [[]|]; split; congruence.
Qed.

Lemma flt_trans x y z : flt x y -> flt y z -> flt x z.
Proof. rewrite !flt_fcmp. apply SFcompare_lt_trans. Qed.

Lemma flt_fle x y : flt x y -> fle x y.
Proof. rewrite flt_fcmp, fle_fcmp. auto. Qed.

Lemma flt_fle_trans x y z : flt x y -> fle y z -> flt x z.
Proof.
  rewrite !flt_fcmp, fle_fcmp. intros H [H'|H'].
  - eapply SFcompare_lt_trans; eassumption.
  - eapply SFcompare_eq_r; eassumption.
Qed.

Lemma fle_flt_trans x y z : fle x y -> flt y z -> flt x z.
Proof.
  rewrite !flt_fcmp, fle_fcmp. intros [H|H] H'.
  - eapply SFcompare_lt_trans; eassumption.
  - eapply SFcompare_eq_l; eassumption.
Qed.

Lemma fle_trans x y z : fle x y -> fle y z -> fle x z.
Proof.
  intros H H'. apply fle_fcmp in H. destruct H as [H|H].
  - apply flt_fle. apply flt_fle_trans with y; [apply flt_fcmp|]; assumption.
  - apply fle_fcmp in H'. apply fle_fcmp. unfold fcmp in *.
    destruct H' as [H'|H']; [left|right]; eapply SFcompare_eq_l; eassumption.
Qed.

(** A strict inequality excludes Python's [==] in both directions. *)
Lemma flt_neqb x y : flt x y -> PrimFloat.eqb x y = false /\ PrimFloat.eqb y x = false.
Proof.
  rewrite flt_fcmp. unfold fcmp. intros H. rewrite !FloatAxioms.eqb_spec. unfold SFeqb.
  rewrite (SFcompare_antisym (Prim2SF x) (Prim2SF y)), H. simpl. auto.
Qed.

Lemma flt_irrefl x : ~ flt x x.
Proof.
  intros H. apply flt_fcmp in H. unfold fcmp in H.
  pose proof (SFcompare_antisym (Prim2SF x) (Prim2SF x)) as A.
  rewrite H in A. discriminate.
Qed.

(** Outside [x < a] and [b < x] a number is a NaN or lies between [a] and [b]. *)
Lemma not_ltb_cases x y :
  PrimFloat.ltb x y = false -> PrimFloat.is_nan x = true \/ PrimFloat.is_nan y = true \/ fle y x.
Proof.
  unfold PrimFloat.is_nan, fle. rewrite FloatAxioms.ltb_spec, FloatAxioms.leb_spec, !FloatAxioms.eqb_spec.
  unfold SFltb, SFleb, SFeqb.
  rewrite (SFcompare_antisym (Prim2SF x) (Prim2SF y)).
  destruct (Prim2SF x) as [sa|sa| |sa ma ea] eqn:Ex, (Prim2SF y) as [sb|sb| |sb mb eb] eqn:Ey;
    simpl; auto.
  all: try (destruct sa, sb; simpl; auto; discriminate).
  all: try (destruct sa; simpl; auto; discriminate).
  all: try (destruct sb; simpl; auto; discriminate).
  destruct sa, sb; simpl; auto; try discriminate.
  all: destruct (ea ?= eb)%Z; simpl; auto; try discriminate.
  all: destruct (PosDef.Pos.compare_cont Eq ma mb); simpl; auto; discriminate.
Qed.

(** ** Dictionaries and lists mutated in place *)

Lemma nth_error_list_upd {A} (f : A -> A) (l : list A) (i j : nat) :
  nth_error (list_upd i f l) j
  = if (j =? i)%nat then option_map f (nth_error l j) else nth_error l j.
Proof.
  revert i j. induction l as [|x l IH]; intros i j.
  - destruct i, j; simpl; try reflexivity. destruct (j =? i)%nat; reflexivity.
  - destruct i, j; simpl; try reflexivity. apply IH.
Qed.

Lemma length_list_upd {A} (f : A -> A) (l : list A) (i : nat) :
  List.length (list_upd i f l) = List.length l.
Proof.
  revert i. induction l as [|x l IH]; intros [|i]; simpl; auto.
Qed.

Lemma dict_get_upd {V} (f : V -> V) (d : dict V) (k k' : string) :
  dict_get k' (dict_upd k f d)
  = if (k' =? k)%string then option_map f (dict_get k' d) else dict_get k' d.
Proof.
  induction d as [|[k0 v] d IH]; simpl.
  - destruct (k' =? k)%string; reflexivity.
  - destruct (String.eqb_spec k k0) as [E|Hk]; simpl.
    + subst k0. destruct (String.eqb_spec k' k) as [E'|Hk']; simpl; reflexivity.
    + destruct (String.eqb_spec k' k0) as [E'|Hk']; simpl.
      * subst k0. destruct (String.eqb_spec k' k); [congruence|reflexivity].
      * apply IH.
Qed.

Lemma dict_keys_upd {V} (f : V -> V) (d : dict V) (k : string) :
  dict_keys (dict_upd k f d) = dict_keys d.
Proof.
  unfold dict_keys. induction d as [|[k0 v] d IH]; simpl; auto.
  destruct (k =? k0)%string; simpl; congruence.
Qed.

Lemma dict_get_In {V} (d : dict V) (k : string) (v : V) :
  dict_get k d = Some v -> In (k, v) d.
Proof.
  induction d as [|[k0 v0] d IH]; simpl; [discriminate|].
  destruct (String.eqb_spec k k0) as [->|Hk]; intros H.
  - injection H as ->. auto.
  - auto.
Qed.

(** A key ending in [_min] is not a key ending in [_max]. *)
Lemma string_length_app (a b : string) :
  String.length (a ++ b) = String.length a + String.length b.
Proof. induction a; simpl; auto. Qed.

Lemma min_key_not_max_key (a b : string) : (a ++ "_min")%string <> (b ++ "_max")%string.
Proof.
  revert b. induction a as [|c a IH]; intros b H.
  - destruct b as [|c' b]; [discriminate|].
    apply (f_equal String.length) in H. simpl in H.
    rewrite string_length_app in H. simpl in H. lia.
  - destruct b as [|c' b].
    + apply (f_equal String.length) in H. simpl in H.
      rewrite string_length_app in H. simpl in H. lia.
    + simpl in H. injection H as _ H. exact (IH b H).
Qed.

(** ** The state-and-exception monad *)

Ltac munfold := cbv [bind get put ret raise lift_opt index py_div] in *.

Lemma for_each_keeps {S A} (P : S -> Prop) (body : A -> M S unit) (l : list A) :
  (forall x s, P s -> P (snd (body x s))) ->
  forall s, P s -> P (snd (for_each l body s)).
Proof.
  intros Hbody. induction l as [|x l IH]; intros s Hs; simpl; [exact Hs|].
  unfold bind. pose proof (Hbody x s Hs) as H.
  destruct (body x s) as [[[]|e] s']; simpl in *; auto.
Qed.

Lemma for_yield_keeps {S A B} (P : S -> Prop) (body : A -> M S (list B)) (l : list A) :
  (forall x s, P s -> P (snd (body x s))) ->
  forall s, P s -> P (snd (for_yield l body s)).
Proof.
  intros Hbody. induction l as [|x l IH]; intros s Hs; simpl; [exact Hs|].
  unfold bind. pose proof (Hbody x s Hs) as H.
  destruct (body x s) as [[ys|e] s']; simpl in *; auto.
  pose proof (IH s' H) as H'.
  destruct (for_yield l body s') as [[zs|e] s'']; simpl in *; auto.
Qed.

(** ** [scale_data]: the bounds *)

Lemma bound_get_state idx key i self : snd (bound_get idx key i self) = self.
Proof.
  unfold bound_get. munfold.
  destruct (nth_error (s_minmax self) idx) as [sensor|]; simpl; auto.
  destruct (dict_get key (mm_bounds sensor)) as [vec|]; simpl; auto.
  destruct (nth_error vec i); reflexivity.
Qed.

Lemma bound_get_ok idx key i self v self' :
  bound_get idx key i self = (Ok v, self') -> bound_at self idx key i = Some v.
Proof.
  unfold bound_get, bound_at. munfold.
  destruct (nth_error (s_minmax self) idx) as [sensor|]; simpl; [|discriminate].
  destruct (dict_get key (mm_bounds sensor)) as [vec|]; simpl; [|discriminate].
  destruct (nth_error vec i); unfold ret, raise; intros H; inversion H; reflexivity.
Qed.

Lemma bound_at_set self idx key i val idx' key' i' :
  bound_at (snd (bound_set idx key i val self)) idx' key' i'
  = if ((idx' =? idx)%nat && (key' =? key)%string && (i' =? i)%nat)%bool
    then option_map (fun _ => val) (bound_at self idx' key' i')
    else bound_at self idx' key' i'.
Proof.
  unfold bound_set, bound_at. munfold. simpl.
  rewrite nth_error_list_upd.
  destruct (idx' =? idx)%nat; simpl; [|reflexivity].
  destruct (nth_error (s_minmax self) idx') as [sensor|]; simpl; [|destruct (_ && _); reflexivity].
  rewrite dict_get_upd.
  destruct (key' =? key)%string; simpl; [|reflexivity].
  destruct (dict_get key' (mm_bounds sensor)) as [vec|]; simpl; [|destruct (i' =? i)%nat; reflexivity].
  rewrite nth_error_list_upd. reflexivity.
Qed.

Lemma scale_loop_keeps P :
  guarded_updates_keep P ->
  forall value idx data_type i scaled self,
    P self -> P (snd (scale_loop idx data_type value i scaled self)).
Proof.
  intros HP. induction value as [|val rest IH]; intros idx dt i scaled self Hself;
    simpl; [exact Hself|].
  unfold bind at 1.
  pose proof (bound_get_state idx (dt ++ "_min") i self) as Hs1.
  destruct (bound_get idx (dt ++ "_min") i self) as [[lo|e] s1] eqn:E1; simpl in Hs1; subst s1;
    [|exact Hself].
  unfold bind at 1.
  pose proof (bound_get_state idx (dt ++ "_max") i self) as Hs2.
  destruct (bound_get idx (dt ++ "_max") i self) as [[hi|e] s2] eqn:E2; simpl in Hs2; subst s2;
    [|exact Hself].
  apply bound_get_ok in E1. apply bound_get_ok in E2.
  destruct (HP self idx dt i val lo hi Hself E1 E2) as [Hmin Hmax].
  assert (Hupd : exists self',
             (if PrimFloat.ltb val lo then bound_set idx (dt ++ "_min") i val
              else if PrimFloat.ltb hi val then bound_set idx (dt ++ "_max") i val
              else ret tt) self = (Ok tt, self') /\ P self').
  { destruct (PrimFloat.ltb val lo) eqn:L1.
    - eexists; split; [reflexivity|]. apply (Hmin L1).
    - destruct (PrimFloat.ltb hi val) eqn:L2.
      + eexists; split; [reflexivity|]. apply (Hmax L2).
      + eexists; split; [reflexivity|]. exact Hself. }
  destruct Hupd as [self' [Eupd Hself']].
  unfold bind at 1. rewrite Eupd.
  unfold bind at 1. unfold py_div.
  destruct (PrimFloat.eqb (hi - lo) 0); simpl; [exact Hself'|].
  apply IH. exact Hself'.
Qed.

Lemma scale_data_keeps P :
  guarded_updates_keep P ->
  forall sensor_id data_type value self,
    P self -> P (snd (scale_data sensor_id data_type value self)).
Proof.
  intros HP sensor_id dt value self Hself. unfold scale_data. munfold.
  destruct (find_sensor sensor_id (s_minmax self)) as [idx|]; simpl; [|exact Hself].
  apply scale_loop_keeps; assumption.
Qed.

Lemma scale_calls_keeps P :
  guarded_updates_keep P ->
  forall calls self, P self -> P (scale_calls calls self).
Proof.
  intros HP. induction calls as [|[[sensor_id dt] value] calls IH]; intros self Hself;
    simpl; [exact Hself|].
  apply IH. apply scale_data_keeps; assumption.
Qed.

Lemma same_place idx key i idx' key' i' :
  ((idx' =? idx)%nat && (key' =? key)%string && (i' =? i)%nat)%bool = true ->
  idx' = idx /\ key' = key /\ i' = i.
Proof.
  rewrite !andb_true_iff, !Nat.eqb_eq, String.eqb_eq. tauto.
Qed.

Lemma other_key idx key i idx' key' i' :
  key' <> key ->
  ((idx' =? idx)%nat && (key' =? key)%string && (i' =? i)%nat)%bool = false.
Proof.
  intros H. apply String.eqb_neq in H. rewrite H.
  rewrite andb_false_r. reflexivity.
Qed.

Lemma widened_refl self : widened self self.
Proof. intros idx dt i; split; intros v E; exists v; auto. Qed.

Lemma widened_guarded self0 : guarded_updates_keep (widened self0).
Proof.
  intros self idx dt i val lo hi Hw Elo Ehi.
  split; intros Hlt idx' dt' i'; destruct (Hw idx' dt' i') as [Hmin Hmax]; split.
  - intros lo0 E0. destruct (Hmin lo0 E0) as [lo1 [E1 Hrel]].
    rewrite bound_at_set.
    destruct (_ && _ && _)%bool eqn:C.
    + apply same_place in C. destruct C as [-> [C ->]]. rewrite C in E1.
      rewrite Elo in E1. injection E1 as <-.
      rewrite C, Elo. simpl. exists val. split; [reflexivity|]. right.
      destruct Hrel as [->|Hrel]; [exact Hlt|]. exact (flt_trans _ _ _ Hlt Hrel).
    + exists lo1. auto.
  - intros hi0 E0. destruct (Hmax hi0 E0) as [hi1 [E1 Hrel]].
    rewrite bound_at_set, other_key.
    + exists hi1. auto.
    + intros C. symmetry in C. exact (min_key_not_max_key _ _ C).
  - intros lo0 E0. destruct (Hmin lo0 E0) as [lo1 [E1 Hrel]].
    rewrite bound_at_set, other_key.
    + exists lo1. auto.
    + exact (min_key_not_max_key _ _).
  - intros hi0 E0. destruct (Hmax hi0 E0) as [hi1 [E1 Hrel]].
    rewrite bound_at_set.
    destruct (_ && _ && _)%bool eqn:C.
    + apply same_place in C. destruct C as [-> [C ->]]. rewrite C in E1.
      rewrite Ehi in E1. injection E1 as <-.
      rewrite C, Ehi. simpl. exists val. split; [reflexivity|]. right.
      destruct Hrel as [->|Hrel]; [exact Hlt|]. exact (flt_trans _ _ _ Hrel Hlt).
    + exists hi1. auto.
Qed.

(** C8. Across any sequence of [scale_data] calls, for every sensor dictionary, data
    type and vector component, the stored minimum after the calls is the one stored
    before or a smaller number, and the stored maximum is the one stored before or a
    larger number: the bounds only widen, whatever the raw values are and whether a
    call returns or raises. *)
Theorem scale_data_bounds_only_widen (calls : list scale_call) (self : Sensors) :
  widened self (scale_calls calls self).
Proof.
  apply scale_calls_keeps.
  - apply widened_guarded.
  - apply widened_refl.
Qed.

Lemma Forall_list_upd {A} (P : A -> Prop) (f : A -> A) (l : list A) (i : nat) :
  (forall x, P x -> P (f x)) -> Forall P l -> Forall P (list_upd i f l).
Proof.
  intros Hf H. revert i. induction H as [|x l Hx Hl IH]; intros [|i]; simpl;
    constructor; auto.
Qed.

Lemma Sensors_init_initial_bounds : initial_bounds Sensors_init.
Proof.
  unfold initial_bounds. simpl. repeat constructor.
Qed.

Lemma set_ids_initial_bounds self :
  initial_bounds self -> initial_bounds (snd (set_ids self)).
Proof.
  intros H. unfold set_ids. munfold.
  destruct (s_sensors self) as [sensors|]; cbn [snd]; [|exact H].
  apply for_each_keeps; [|exact H].
  intros [i sensor_id] s Hs. munfold.
  destruct (dict_get sensor_id locations); cbn [snd]; [|exact Hs].
  destruct (nth_error (s_minmax s) i); cbn [snd]; [|exact Hs].
  unfold initial_bounds. cbn [s_minmax with_minmax]. apply Forall_list_upd; [|exact Hs].
  intros x Hx. exact Hx.
Qed.

Ltac settle_component :=
  let Hv := fresh "Hv" in
  solve [ intros Hv; apply nth_error_In in Hv; simpl in Hv;
          repeat (destruct Hv as [Hv|Hv]; [subst; vm_compute; reflexivity|]);
          destruct Hv ].

Lemma initial_bounds_apart self : initial_bounds self -> bounds_apart self.
Proof.
  intros H idx dt i. unfold bound_at.
  destruct (nth_error (s_minmax self) idx) as [sensor|] eqn:E;
    [|split; intros ?; discriminate].
  apply nth_error_In in E.
  unfold initial_bounds in H. rewrite Forall_forall in H. rewrite (H _ E).
  split; intros v.
  - destruct (dict_get (dt ++ "_min") (mm_bounds minmax_init)) as [vec|] eqn:G;
      [|discriminate].
    apply dict_get_In in G. simpl in G.
    repeat (destruct G as [G|G];
            [ injection G as Hk Hvec; subst vec;
              first [ settle_component
                    | exfalso; symmetry in Hk;
                      first [ exact (min_key_not_max_key dt "acc" Hk)
                            | exact (min_key_not_max_key dt "gyr" Hk)
                            | exact (min_key_not_max_key dt "mag" Hk)
                            | exact (min_key_not_max_key dt "ori" Hk)
                            | exact (min_key_not_max_key dt "tot_a" Hk)
                            | exact (min_key_not_max_key dt "rot" Hk) ] ]
            | ]).
    destruct G.
  - destruct (dict_get (dt ++ "_max") (mm_bounds minmax_init)) as [vec|] eqn:G;
      [|discriminate].
    apply dict_get_In in G. simpl in G.
    repeat (destruct G as [G|G];
            [ injection G as Hk Hvec; subst vec;
              first [ settle_component
                    | exfalso;
                      first [ exact (min_key_not_max_key "acc" dt Hk)
                            | exact (min_key_not_max_key "gyr" dt Hk)
                            | exact (min_key_not_max_key "mag" dt Hk)
                            | exact (min_key_not_max_key "ori" dt Hk)
                            | exact (min_key_not_max_key "tot_a" dt Hk)
                            | exact (min_key_not_max_key "rot" dt Hk) ] ]
            | ]).
    destruct G.
Qed.

Lemma bounds_apart_guarded : guarded_updates_keep bounds_apart.
Proof.
  intros self idx dt i val lo hi Hb Elo Ehi.
  split; intros Hlt idx' dt' i'; destruct (Hb idx' dt' i') as [Hmin Hmax]; split.
  - intros v. rewrite bound_at_set.
    destruct (_ && _ && _)%bool eqn:C; [|apply Hmin].
    apply same_place in C. destruct C as [-> [C ->]]. rewrite C, Elo. simpl.
    intros Hv. injection Hv as <-. apply flt_fle.
    apply flt_fle_trans with lo; [exact Hlt|].
    destruct (Hb idx dt i) as [Hmin' _]. exact (Hmin' lo Elo).
  - intros v. rewrite bound_at_set, other_key; [apply Hmax|].
    intros C. symmetry in C. exact (min_key_not_max_key _ _ C).
  - intros v. rewrite bound_at_set, other_key; [apply Hmin|].
    exact (min_key_not_max_key _ _).
  - intros v. rewrite bound_at_set.
    destruct (_ && _ && _)%bool eqn:C; [|apply Hmax].
    apply same_place in C. destruct C as [-> [C ->]]. rewrite C, Ehi. simpl.
    intros Hv. injection Hv as <-. apply flt_fle.
    apply fle_flt_trans with hi; [|exact Hlt].
    destruct (Hb idx dt i) as [_ Hmax']. exact (Hmax' hi Ehi).
Qed.

(** From the bounds written by [__init__], every sequence of calls keeps each
    minimum at most 0 and each maximum at least 1. *)
Lemma bounds_apart_reachable (ids : list string) (calls : list scale_call) :
  bounds_apart (scale_calls calls (snd (set_ids (with_sensors Sensors_init ids)))).
Proof.
  apply scale_calls_keeps; [apply bounds_apart_guarded|].
  apply initial_bounds_apart, set_ids_initial_bounds.
  exact Sensors_init_initial_bounds.
Qed.

Lemma bounds_apart_ready (calls : list scale_call) :
  bounds_apart (scale_calls calls Sensors_ready).
Proof.
  unfold Sensors_ready. apply bounds_apart_reachable.
Qed.

Lemma apart_never_equal lo hi : fle lo 0 -> fle 1 hi -> flt lo hi /\ PrimFloat.eqb hi lo = false.
Proof.
  intros Hlo Hhi.
  assert (H : flt lo hi).
  { apply fle_flt_trans with 0%float; [exact Hlo|].
    apply flt_fle_trans with 1%float; [reflexivity|exact Hhi]. }
  split; [exact H|]. apply (flt_neqb _ _ H).
Qed.

(** C7 (as amended). Starting from the bounds written by [__init__] (every minimum
    0, every maximum 1) and any registration of sensor ids, after any sequence of
    [scale_data] calls every stored minimum is at most 0 and every stored maximum
    at least 1; a minimum is therefore strictly below the maximum of the same
    component, and [max == min] is false in every reachable state. *)
Theorem scale_data_bounds_never_meet
    (ids : list string) (calls : list scale_call)
    (idx : nat) (data_type : string) (i : nat) (lo hi : float) :
  let self := scale_calls calls (snd (set_ids (with_sensors Sensors_init ids))) in
  bound_at self idx (data_type ++ "_min") i = Some lo ->
  bound_at self idx (data_type ++ "_max") i = Some hi ->
  fle lo 0 /\ fle 1 hi /\ flt lo hi /\ PrimFloat.eqb hi lo = false.
Proof.
  intros self Elo Ehi.
  destruct (bounds_apart_reachable ids calls idx data_type i) as [Hmin Hmax].
  pose proof (Hmin lo Elo) as Hlo. pose proof (Hmax hi Ehi) as Hhi.
  destruct (apart_never_equal lo hi Hlo Hhi) as [Hlt Hne].
  auto.
Qed.

Lemma scale_data_bounds_never_meet_witness :
  let self := scale_calls [("00B4F11A", "rot", [5%float]); ("00B4F11A", "rot", [5%float])]
                          Sensors_ready in
  (bound_at self 0 "rot_min" 0 = Some 0%float /\
   bound_at self 0 "rot_max" 0 = Some 5%float) /\
  (fle 0 0 /\ fle 1 5 /\ flt 0 5 /\ PrimFloat.eqb 5 0 = false).
Proof.
  split.
  - split; vm_compute; reflexivity.
  - apply (scale_data_bounds_never_meet (dict_keys locations)
             [("00B4F11A", "rot", [5%float]); ("00B4F11A", "rot", [5%float])]
             0 "rot" 0 0%float 5%float); vm_compute; reflexivity.
Defined.

(** C7, the claim as stated fails: a stream of identical values 5 moves the maximum
    of [rot] to 5 once and leaves the minimum at 0, and no stream of identical
    values, for any sensor and data type, reaches bounds with [max == min]. *)
Lemma identical_stream_never_degenerate :
  (let self := scale_calls (repeat ("00B4F11A", "rot", [5%float]) 3) Sensors_ready in
   bound_at self 0 "rot_min" 0 = Some 0%float /\
   bound_at self 0 "rot_max" 0 = Some 5%float) /\
  ~ (exists (sensor_id data_type : string) (v : float) (n idx i : nat) (lo hi : float),
       let self := scale_calls (repeat (sensor_id, data_type, [v]) n) Sensors_ready in
       bound_at self idx (data_type ++ "_min") i = Some lo /\
       bound_at self idx (data_type ++ "_max") i = Some hi /\
       PrimFloat.eqb hi lo = true).
Proof.
  split.
  - split; vm_compute; reflexivity.
  - intros (sensor_id & dt & v & n & idx & i & lo & hi & Elo & Ehi & Heq).
    destruct (bounds_apart_ready (repeat (sensor_id, dt, [v]) n) idx dt i)
      as [Hmin Hmax].
    destruct (apart_never_equal lo hi (Hmin lo Elo) (Hmax hi Ehi)) as [_ Hne].
    congruence.
Qed.

(** C1. From the initial bounds [[0], [1]] of [rot], the raw value 5 sets a new
    maximum and is returned as 5.0, not 1.0; the raw value -3 sets a new minimum and
    is returned as -3.0, not 0.0: the ratio is computed from the bounds read before
    the update. *)
Theorem scale_data_ratio_uses_stale_bounds :
  (fst (scale_data "00B4F11A" "rot" [5%float] Sensors_ready) = Ok [5%float] /\
   bound_at (snd (scale_data "00B4F11A" "rot" [5%float] Sensors_ready)) 0 "rot_max" 0
   = Some 5%float) /\
  (fst (scale_data "00B4F11A" "rot" [(-3)%float] Sensors_ready) = Ok [(-3)%float] /\
   bound_at (snd (scale_data "00B4F11A" "rot" [(-3)%float] Sensors_ready)) 0 "rot_min" 0
   = Some (-3)%float).
Proof.
  split; split; vm_compute; reflexivity.
Qed.

(** ** The 500-sample window *)

Lemma push_short xs v : List.length xs < 500 -> push xs v = xs ++ [v].
Proof.
  intros H. unfold push, cut. rewrite length_app. simpl.
  destruct (Z.ltb_spec 0 (Z.of_nat (List.length xs + 1) - 500)); [lia|reflexivity].
Qed.

Lemma push_full x xs v : List.length (x :: xs) = 500 -> push (x :: xs) v = xs ++ [v].
Proof.
  intros H. unfold push, cut. rewrite length_app. rewrite H. reflexivity.
Qed.

Lemma length_push xs v : List.length xs <= 500 -> List.length (push xs v) <= 500.
Proof.
  intros H. destruct (Nat.eq_dec (List.length xs) 500) as [E|E].
  - destruct xs as [|x xs]; [discriminate|].
    rewrite (push_full _ _ _ E). rewrite length_app. simpl in *. lia.
  - rewrite push_short by lia. rewrite length_app. simpl. lia.
Qed.

Lemma lastn_cons_long {A} (n : nat) (x : A) (l : list A) :
  n <= List.length l -> lastn n (x :: l) = lastn n l.
Proof.
  intros H. unfold lastn. simpl List.length.
  replace (S (List.length l) - n) with (S (List.length l - n)) by lia.
  reflexivity.
Qed.

Lemma fold_push_lastn vs : forall xs,
  List.length xs <= 500 ->
  fold_left push vs xs = lastn 500 (xs ++ vs) /\ List.length (fold_left push vs xs) <= 500.
Proof.
  induction vs as [|v vs IH]; intros xs H; simpl.
  - rewrite app_nil_r. split; [|exact H].
    unfold lastn. replace (List.length xs - 500) with 0 by lia. reflexivity.
  - destruct (IH (push xs v) (length_push xs v H)) as [E L]. split; [|exact L].
    rewrite E. destruct (Nat.eq_dec (List.length xs) 500) as [E5|E5].
    + destruct xs as [|x xs]; [discriminate|].
      rewrite (push_full _ _ _ E5). rewrite <- app_assoc. simpl.
      symmetry. apply lastn_cons_long.
      rewrite length_app. simpl in *. lia.
    + rewrite push_short by lia. rewrite <- app_assoc. reflexivity.
Qed.

Lemma lastn_app_long {A} (n : nat) (l1 l2 : list A) :
  n <= List.length l2 -> lastn n (l1 ++ l2) = lastn n l2.
Proof.
  intros H. unfold lastn. rewrite length_app, skipn_app.
  rewrite skipn_all2 by lia. simpl. f_equal. lia.
Qed.

Lemma length_lastn {A} (n : nat) (l : list A) :
  n <= List.length l -> List.length (lastn n l) = n.
Proof. intros H. unfold lastn. rewrite length_skipn. lia. Qed.

(** ** Methods acting on one series of the store *)

Lemma bind_ok {S A B} (m : M S A) (k : A -> M S B) s b s'' :
  bind m k s = (Ok b, s'') ->
  exists a s', m s = (Ok a, s') /\ k a s' = (Ok b, s'').
Proof.
  unfold bind. destruct (m s) as [[a|e] s']; [|discriminate].
  intros H. exists a, s'. auto.
Qed.

Lemma get_entry_state d s l self : snd (get_entry d s l self) = self.
Proof.
  unfold get_entry, get_sensor. munfold.
  destruct (nth_error (s_dancers self) d) as [dancer|]; cbn [snd]; auto.
  destruct (dict_get s dancer) as [sd|]; cbn [snd]; auto.
  destruct (dict_get l sd); reflexivity.
Qed.

Lemma get_entry_ok d s l self e self' :
  get_entry d s l self = (Ok e, self') -> self' = self /\ entry_at self d s l = Some e.
Proof.
  intros H. pose proof (get_entry_state d s l self) as Hs. rewrite H in Hs.
  simpl in Hs. split; [exact Hs|].
  revert H. unfold get_entry, get_sensor, entry_at. munfold.
  destruct (nth_error (s_dancers self) d) as [dancer|]; [|discriminate].
  destruct (dict_get s dancer) as [sd|]; [|discriminate].
  destruct (dict_get l sd); intros H; inversion H; reflexivity.
Qed.

Lemma entry_at_put self d0 s0 l0 e d s l :
  entry_at (snd (put_entry d0 s0 l0 e self)) d s l
  = if same_path d s l d0 s0 l0
    then option_map (fun _ => e) (entry_at self d s l)
    else entry_at self d s l.
Proof.
  unfold put_entry, entry_at, same_path. munfold. cbn [snd s_dancers with_dancers].
  rewrite nth_error_list_upd.
  destruct (d =? d0)%nat; simpl; [|reflexivity].
  destruct (nth_error (s_dancers self) d) as [dancer|]; simpl;
    [|destruct (_ && _)%bool; reflexivity].
  rewrite dict_get_upd.
  destruct (s =? s0)%string; simpl; [|reflexivity].
  destruct (dict_get s dancer) as [sd|]; simpl; [|destruct (l =? l0)%string; reflexivity].
  rewrite dict_get_upd. reflexivity.
Qed.

Lemma same_path_eq d s l d0 s0 l0 :
  same_path d s l d0 s0 l0 = true -> d = d0 /\ s = s0 /\ l = l0.
Proof.
  unfold same_path. rewrite !andb_true_iff, Nat.eqb_eq, !String.eqb_eq. tauto.
Qed.

Section OneSeries.

Variable axes : list string.
Variables (d : nat) (s l : string).

Lemma acts_ext m f g : (forall xs, f xs = g xs) -> acts axes d s l m f -> acts axes d s l m g.
Proof.
  intros E H self self' Ha Hm. destruct (H self self' Ha Hm) as [H1 H2].
  split; [exact H1|]. rewrite H2. destruct (series_at self d s l); simpl; congruence.
Qed.

Lemma acts_ret : acts axes d s l (ret tt) (fun xs => xs).
Proof.
  intros self self' Ha H. inversion H; subst. split; [reflexivity|].
  destruct (series_at self' d s l); reflexivity.
Qed.

Lemma acts_bind m k f g :
  acts axes d s l m f -> acts axes d s l k g ->
  acts axes d s l (bind m (fun _ => k)) (fun xs => g (f xs)).
Proof.
  intros Hm Hk self self' Ha H.
  apply bind_ok in H. destruct H as ([] & s1 & H1 & H2).
  destruct (Hm self s1 Ha H1) as [Ha1 E1].
  destruct (Hk s1 self' Ha1 H2) as [Ha2 E2].
  split; [exact Ha2|]. rewrite E2, E1.
  destruct (series_at self d s l); reflexivity.
Qed.

Lemma acts_for_each {A} (body : A -> M Sensors unit) (F : A -> list float -> list float)
    (items : list A) :
  (forall x, acts axes d s l (body x) (F x)) ->
  acts axes d s l (for_each items body) (fun xs => fold_left (fun xs x => F x xs) items xs).
Proof.
  intros Hbody. induction items as [|x items IH]; simpl.
  - apply acts_ret.
  - apply (acts_bind _ _ _ _ (Hbody x) IH).
Qed.

Lemma put_entry_axes d0 s0 l0 e self : s_axes (snd (put_entry d0 s0 l0 e self)) = s_axes self.
Proof. reflexivity. Qed.

Lemma acts_list_append d0 s0 l0 arg :
  acts axes d s l (list_append d0 s0 l0 arg) (app_if (same_path d s l d0 s0 l0) arg).
Proof.
  unfold app_if.
  intros self self' Ha H. unfold list_append in H.
  apply bind_ok in H. destruct H as (e & s1 & H1 & H2).
  apply get_entry_ok in H1. destruct H1 as [-> He].
  destruct e as [xs|m]; [|discriminate].
  apply bind_ok in H2. destruct H2 as (v & s2 & H2 & H3).
  destruct arg as [v'|]; [|discriminate].
  inversion H2; subst v' s2. clear H2.
  assert (Hs : self' = snd (put_entry d0 s0 l0 (Series (xs ++ [v])) self))
    by (rewrite H3; reflexivity).
  subst self'. split; [exact Ha|].
  unfold series_at. rewrite entry_at_put.
  destruct (same_path d s l d0 s0 l0) eqn:P.
  - apply same_path_eq in P. destruct P as (-> & -> & ->). rewrite He. reflexivity.
  - destruct (entry_at self d s l) as [[|]|]; reflexivity.
Qed.

Lemma acts_trim d0 s0 l0 :
  acts axes d s l (trim d0 s0 l0) (cut_if (same_path d s l d0 s0 l0)).
Proof.
  unfold cut_if.
  intros self self' Ha H. unfold trim in H.
  apply bind_ok in H. destruct H as (e & s1 & H1 & H2).
  apply get_entry_ok in H1. destruct H1 as [-> He].
  destruct (0 <? Z.of_nat (entry_len e) - 500)%Z eqn:C.
  - apply bind_ok in H2. destruct H2 as (e' & s2 & H2 & H3).
    apply get_entry_ok in H2. destruct H2 as [-> He'].
    rewrite He in He'. injection He' as <-.
    destruct e as [[|x xs]|m]; try discriminate.
    assert (Hs : self' = snd (put_entry d0 s0 l0 (Series xs) self))
      by (rewrite H3; reflexivity).
    subst self'. split; [exact Ha|].
    unfold series_at. rewrite entry_at_put.
    destruct (same_path d s l d0 s0 l0) eqn:P.
    + apply same_path_eq in P. destruct P as (-> & -> & ->). rewrite He.
      cbn [option_map]. unfold cut.
      change (entry_len (Series (x :: xs))) with (List.length (x :: xs)) in C.
      rewrite C. reflexivity.
    + destruct (entry_at self d s l) as [[|]|]; reflexivity.
  - inversion H2; subst self'. split; [exact Ha|].
    unfold series_at.
    destruct (same_path d s l d0 s0 l0) eqn:P.
    + apply same_path_eq in P. destruct P as (-> & -> & ->). rewrite He.
      destruct e as [xs|m]; cbn [option_map]; [|reflexivity].
      unfold cut. change (entry_len (Series xs)) with (List.length xs) in C.
      rewrite C. reflexivity.
    + destruct (entry_at self d s l) as [[|]|]; reflexivity.
Qed.

End OneSeries.

Lemma never_acts axes d s l m f : never m -> acts axes d s l m f.
Proof. intros H self self' _ Hm. destruct (H self self' Hm). Qed.

Lemma never_bind_l m (k : M Sensors unit) : never m -> never (m ;; k).
Proof.
  intros H self self' Hm. apply bind_ok in Hm.
  destruct Hm as ([] & s1 & H1 & _). exact (H self s1 H1).
Qed.

Lemma never_bind_r (m k : M Sensors unit) : never k -> never (m ;; k).
Proof.
  intros H self self' Hm. apply bind_ok in Hm.
  destruct Hm as ([] & s1 & _ & H2). exact (H s1 self' H2).
Qed.

Lemma never_list_append_None d0 s0 l0 : never (list_append d0 s0 l0 None).
Proof.
  intros self self' H. unfold list_append in H.
  apply bind_ok in H. destruct H as (e & s1 & _ & H2).
  destruct e; discriminate.
Qed.

(** *** [send_data] on one series *)

Lemma acts_with_axis axes d s l i (k : string -> M Sensors unit)
    (F : string -> list float -> list float) :
  (forall axis, acts axes d s l (k axis) (F axis)) ->
  acts axes d s l (self <- get ;; axis <- index (s_axes self) i ;; k axis)
       (fun xs => match nth_error axes i with Some axis => F axis xs | None => xs end).
Proof.
  intros Hk self self' Ha H.
  apply bind_ok in H. destruct H as (self0 & s1 & H1 & H2).
  inversion H1; subst self0 s1. clear H1.
  apply bind_ok in H2. destruct H2 as (axis & s2 & H2 & H3).
  unfold index, lift_opt in H2. rewrite Ha in H2.
  destruct (nth_error axes i) as [axis'|]; [|discriminate].
  inversion H2; subst axis' s2. exact (Hk axis self self' Ha H3).
Qed.

Lemma axis_steps_deliver axes here l data_type items : forall xs,
  fold_left (fun xs p => axis_step axes here l data_type p xs) items xs
  = fold_left push
      (if here
       then map snd (filter (fun p => (l =? fst p)%string)
              (flat_map (fun p : nat * float =>
                           match nth_error axes (fst p) with
                           | Some axis => [((data_type ++ "_" ++ axis)%string, snd p)]
                           | None => []
                           end) items))
       else []) xs.
Proof.
  induction items as [|p items IH]; intros xs; simpl.
  - destruct here; reflexivity.
  - rewrite IH. unfold axis_step at 1.
    destruct here; simpl.
    + rewrite filter_app, map_app, fold_left_app. f_equal.
      destruct (nth_error axes (fst p)) as [axis|]; simpl; [|reflexivity].
      destruct (l =? _)%string; reflexivity.
    + destruct (nth_error axes (fst p)); reflexivity.
Qed.

Ltac by_label l :=
  repeat match goal with
         | |- context [(l =? ?c)%string] =>
             destruct (String.eqb_spec l c); [subst l; simpl|]
         end;
  try reflexivity.

Lemma acts_send_data axes d s l sensor_id data_type value :
  acts axes d s l (send_data sensor_id data_type value)
       (fun xs => fold_left push (delivered axes d s l (sensor_id, data_type, value)) xs).
Proof.
  intros self self' Ha H. unfold send_data in H.
  apply bind_ok in H. destruct H as (loc & s1 & H1 & H2).
  unfold delivered.
  destruct (dict_get sensor_id locations) as [loc'|]; [|discriminate].
  inversion H1; subst loc' s1. clear H1. cbv zeta in H2.
  set (d0 := loc_dancer loc - 1) in *. set (s0 := snsr (loc_sensor loc)) in *.
  revert self self' Ha H2.
  match goal with
  | |- forall self self', _ -> ?m self = _ -> _ /\ _ = option_map ?f _ =>
      change (acts axes d s l m f)
  end.
  unfold routes.
  pose (here := fun l0 => same_path d s l d0 s0 l0).
  destruct (existsb (String.eqb data_type) ["acc"; "gyr"; "mag"]).
  { (* acceleration, gyroscope, magnetometer *)
    apply (acts_ext axes d s l _
             (fun xs => fold_left
                (fun xs p => axis_step axes ((d =? d0)%nat && (s =? s0)%string) l data_type p xs)
                (enumerate value) xs)).
    { intros xs. apply axis_steps_deliver. }
    apply (acts_for_each axes d s l _
             (axis_step axes ((d =? d0)%nat && (s =? s0)%string) l data_type)).
    intros [i val].
    apply (acts_ext axes d s l _
             (fun xs => match nth_error axes i with
                        | Some axis =>
                            cut_if (here (data_type ++ "_" ++ axis)%string)
                              (app_if (here (data_type ++ "_" ++ axis)%string) (Some val) xs)
                        | None => xs
                        end)).
    { intros xs. unfold axis_step, here, same_path, push, cut_if, app_if. simpl.
      destruct (nth_error axes i) as [axis|]; [|reflexivity].
      destruct ((d =? d0)%nat && (s =? s0)%string && (l =? _)%string)%bool;
        reflexivity. }
    apply (acts_with_axis axes d s l i _
             (fun axis xs =>
                cut_if (here (data_type ++ "_" ++ axis)%string)
                  (app_if (here (data_type ++ "_" ++ axis)%string) (Some val) xs))).
    intros axis.
    apply (acts_bind axes d s l _ _
             (app_if (here (data_type ++ "_" ++ axis)%string) (Some val))
             (cut_if (here (data_type ++ "_" ++ axis)%string)));
      [apply acts_list_append|apply acts_trim]. }
  destruct (String.eqb_spec data_type "ori") as [->|_].
  { (* orientation *)
    destruct value as [|a [|b [|c rest]]];
      [ apply never_acts, never_bind_l, never_list_append_None
      | apply never_acts, never_bind_r, never_bind_l, never_list_append_None
      | apply never_acts, never_bind_r, never_bind_r, never_bind_l, never_list_append_None
      | ].
    set (value := a :: b :: c :: rest).
    apply (acts_ext axes d s l _
             (fun xs =>
                fold_left (fun xs pry => cut_if (here ("ori" ++ "_" ++ pry)%string) xs)
                  ["p"; "r"; "y"]
                  (app_if (here "ori_y") (nth_error value 2)
                     (app_if (here "ori_r") (nth_error value 1)
                        (app_if (here "ori_p") (nth_error value 0) xs))))).
    { intros xs. unfold here, same_path, push, cut_if, app_if. simpl.
      destruct ((d =? d0)%nat && (s =? s0)%string)%bool; simpl; [|reflexivity].
      by_label l. }
    apply (acts_bind axes d s l _ _ (app_if (here "ori_p") (nth_error value 0))
             (fun xs =>
                fold_left (fun xs pry => cut_if (here ("ori" ++ "_" ++ pry)%string) xs)
                  ["p"; "r"; "y"]
                  (app_if (here "ori_y") (nth_error value 2)
                     (app_if (here "ori_r") (nth_error value 1) xs))));
      [apply acts_list_append|].
    apply (acts_bind axes d s l _ _ (app_if (here "ori_r") (nth_error value 1))
             (fun xs =>
                fold_left (fun xs pry => cut_if (here ("ori" ++ "_" ++ pry)%string) xs)
                  ["p"; "r"; "y"]
                  (app_if (here "ori_y") (nth_error value 2) xs)));
      [apply acts_list_append|].
    apply (acts_bind axes d s l _ _ (app_if (here "ori_y") (nth_error value 2))
             (fun xs =>
                fold_left (fun xs pry => cut_if (here ("ori" ++ "_" ++ pry)%string) xs)
                  ["p"; "r"; "y"] xs));
      [apply acts_list_append|].
    apply (acts_for_each axes d s l _
             (fun pry => cut_if (here ("ori" ++ "_" ++ pry)%string))).
    intros pry. apply acts_trim. }
  destruct (String.eqb_spec data_type "rot") as [->|_].
  { (* rate of turn *)
    destruct value as [|a rest];
      [ apply never_acts, never_bind_l, never_list_append_None | ].
    set (value := a :: rest).
    apply (acts_ext axes d s l _
             (fun xs => cut_if (here "rot") (app_if (here "rot") (nth_error value 0) xs))).
    { intros xs. unfold here, same_path, push, cut_if, app_if. simpl.
      destruct ((d =? d0)%nat && (s =? s0)%string)%bool; simpl; [|reflexivity].
      by_label l. }
    apply (acts_bind axes d s l _ _ (app_if (here "rot") (nth_error value 0))
             (cut_if (here "rot")));
      [apply acts_list_append|apply acts_trim]. }
  destruct (String.eqb_spec data_type "tot_a") as [->|_].
  { (* total acceleration and the hit flag *)
    destruct value as [|a [|b rest]];
      [ apply never_acts, never_bind_l, never_list_append_None
      | apply never_acts, never_bind_r, never_bind_l, never_list_append_None
      | ].
    set (value := a :: b :: rest).
    apply (acts_ext axes d s l _
             (fun xs =>
                cut_if (here "b_tot_a")
                  (cut_if (here "tot_a")
                     (app_if (here "b_tot_a") (nth_error value 1)
                        (app_if (here "tot_a") (nth_error value 0) xs))))).
    { intros xs. unfold here, same_path, push, cut_if, app_if. simpl.
      destruct ((d =? d0)%nat && (s =? s0)%string)%bool; simpl; [|reflexivity].
      by_label l. }
    apply (acts_bind axes d s l _ _ (app_if (here "tot_a") (nth_error value 0))
             (fun xs =>
                cut_if (here "b_tot_a")
                  (cut_if (here "tot_a") (app_if (here "b_tot_a") (nth_error value 1) xs))));
      [apply acts_list_append|].
    apply (acts_bind axes d s l _ _ (app_if (here "b_tot_a") (nth_error value 1))
             (fun xs => cut_if (here "b_tot_a") (cut_if (here "tot_a") xs)));
      [apply acts_list_append|].
    apply (acts_bind axes d s l _ _ (cut_if (here "tot_a")) (cut_if (here "b_tot_a")));
      apply acts_trim. }
  apply (acts_ext axes d s l _ (fun xs => xs)); [|apply acts_ret].
  intros xs. destruct ((d =? d0)%nat && (s =? s0)%string)%bool; reflexivity.
Qed.

Lemma acts_send_calls axes d s l calls :
  acts axes d s l (send_calls calls)
       (fun xs => fold_left push (flat_map (delivered axes d s l) calls) xs).
Proof.
  unfold send_calls.
  apply (acts_ext axes d s l _
           (fun xs => fold_left
              (fun xs call => fold_left push (delivered axes d s l call) xs) calls xs)).
  - induction calls as [|call calls IH]; intros xs; simpl; [reflexivity|].
    rewrite fold_left_app. apply IH.
  - apply (acts_for_each axes d s l _
             (fun call xs => fold_left push (delivered axes d s l call) xs)).
    intros [[sensor_id data_type] value]. apply acts_send_data.
Qed.

Lemma for_each_app {S A} (body : A -> M S unit) (l1 l2 : list A) s s' :
  for_each (l1 ++ l2) body s = (Ok tt, s') ->
  exists mid, for_each l1 body s = (Ok tt, mid) /\ for_each l2 body mid = (Ok tt, s').
Proof.
  revert s. induction l1 as [|x l1 IH]; intros s H; simpl in *.
  - exists s. auto.
  - apply bind_ok in H. destruct H as ([] & s1 & H1 & H2).
    destruct (IH s1 H2) as (mid & Hl & Hr). exists mid. split; [|exact Hr].
    unfold bind. rewrite H1. exact Hl.
Qed.

Lemma run_ok {S A} (m : M S A) (s : S) (a : A) : fst (m s) = Ok a -> m s = (Ok a, snd (m s)).
Proof. destruct (m s) as [r s']. simpl. intros ->. reflexivity. Qed.

(** C2. Take any series of the store that holds at most 500 samples and any
    sequence of [send_data] calls that all return.  Afterwards the series holds the
    last 500 elements of its old content followed by the samples the calls
    delivered to it, in order; when more than 500 samples were delivered it holds
    exactly 500 values, the last 500 delivered.  After every call of the sequence
    the series holds at most 500 values. *)
Theorem send_data_window_is_last_500
    (calls : list send_call) (self : Sensors) (d : nat) (s l : string) (xs : list float) :
  series_at self d s l = Some xs ->
  List.length xs <= 500 ->
  fst (send_calls calls self) = Ok tt ->
  let appended := flat_map (delivered (s_axes self) d s l) calls in
  (exists ys,
     series_at (snd (send_calls calls self)) d s l = Some ys /\
     ys = lastn 500 (xs ++ appended) /\
     (500 < List.length appended ->
      List.length ys = 500 /\ ys = lastn 500 appended)) /\
  (forall calls1 calls2, calls = calls1 ++ calls2 ->
     exists zs,
       fst (send_calls calls1 self) = Ok tt /\
       series_at (snd (send_calls calls1 self)) d s l = Some zs /\
       List.length zs <= 500).
Proof.
  intros Hxs Hlen Hok appended. apply run_ok in Hok. split.
  - destruct (acts_send_calls (s_axes self) d s l calls self _ eq_refl Hok) as [_ E].
    rewrite Hxs in E. simpl in E.
    destruct (fold_push_lastn appended xs Hlen) as [E' L].
    fold appended in E. exists (fold_left push appended xs).
    split; [exact E|]. split; [exact E'|].
    intros Hlong. rewrite E'. rewrite lastn_app_long by lia.
    split; [|reflexivity]. apply length_lastn. lia.
  - intros calls1 calls2 ->. unfold send_calls in Hok.
    apply for_each_app in Hok. destruct Hok as (mid & H1 & _).
    fold (send_calls calls1) in H1.
    destruct (acts_send_calls (s_axes self) d s l calls1 self mid eq_refl H1) as [_ E].
    rewrite Hxs in E. simpl in E.
    destruct (fold_push_lastn (flat_map (delivered (s_axes self) d s l) calls1) xs Hlen)
      as [_ L].
    rewrite H1. simpl. eexists. split; [reflexivity|]. split; [exact E|exact L].
Qed.

Lemma send_data_window_is_last_500_witness :
  (series_at Sensors_ready 0 "snsr_1" "rot" = Some zeros500 /\
   List.length zeros500 <= 500 /\
   fst (send_calls rot_stream Sensors_ready) = Ok tt) /\
  let appended := flat_map (delivered (s_axes Sensors_ready) 0 "snsr_1" "rot") rot_stream in
  (exists ys,
     series_at (snd (send_calls rot_stream Sensors_ready)) 0 "snsr_1" "rot" = Some ys /\
     ys = lastn 500 (zeros500 ++ appended) /\
     (500 < List.length appended ->
      List.length ys = 500 /\ ys = lastn 500 appended)) /\
  (forall calls1 calls2, rot_stream = calls1 ++ calls2 ->
     exists zs,
       fst (send_calls calls1 Sensors_ready) = Ok tt /\
       series_at (snd (send_calls calls1 Sensors_ready)) 0 "snsr_1" "rot" = Some zs /\
       List.length zs <= 500).
Proof.
  assert (H1 : series_at Sensors_ready 0 "snsr_1" "rot" = Some zeros500)
    by (vm_compute; reflexivity).
  assert (H2 : List.length zeros500 <= 500) by (vm_compute; lia).
  assert (H3 : fst (send_calls rot_stream Sensors_ready) = Ok tt)
    by (vm_compute; reflexivity).
  split; [auto|].
  exact (send_data_window_is_last_500 rot_stream Sensors_ready 0 "snsr_1" "rot" zeros500
           H1 H2 H3).
Defined.

(** ** The recording loop *)

Section RecordingFacts.

Variable np_corrcoef : list float -> list float -> float.
Variable np_round5 : float -> float.
Variable py_round5 : float -> float.

(** C4 (as amended). For a sensor id that is not a key of [locations], [send_data]
    raises [KeyError] for that id and leaves the object as it was; a packet that
    carries such an id makes [recording_loop] raise the same [KeyError] at its own
    lookup, before any method of the store is called: no series is modified, no
    message is sent, and the loop ends there, the remaining packets unread. *)
Theorem unknown_sensor_ends_recording_loop
    (packet : Packet) (rest : list Packet) (r : Recorder) :
  containsStoredDeviceId packet = true ->
  dict_get (deviceId packet) locations = None ->
  (forall data_type value self,
     send_data (deviceId packet) data_type value self
     = (Raise (KeyError (deviceId packet)), self)) /\
  let out := recording_loop np_corrcoef np_round5 py_round5 (packet :: rest) r in
  fst out = Raise (KeyError (deviceId packet)) /\
  r_sensors (snd out) = r_sensors r /\
  r_sent (snd out) = r_sent r.
Proof.
  intros Hid Hloc. split.
  - intros data_type value self. unfold send_data, bind, lift_opt.
    rewrite Hloc. reflexivity.
  - unfold recording_loop. simpl for_each. unfold handle_packet.
    rewrite Hid. unfold bind, assign_sensor_id, lift_opt. rewrite Hloc.
    simpl. auto.
Qed.


End RecordingFacts.

Lemma unknown_sensor_ends_recording_loop_witness :
  let packet := orientation_packet "00B42D56" (0, 0, 0)%float in
  (containsStoredDeviceId packet = true /\ dict_get (deviceId packet) locations = None) /\
  (forall data_type value self,
     send_data (deviceId packet) data_type value self
     = (Raise (KeyError (deviceId packet)), self)) /\
  let out := recording_loop ref_corrcoef ref_round5 ref_round5
               [packet; orientation_packet "00B4F114" (0, 0, 0)%float] recorder_ready in
  fst out = Raise (KeyError (deviceId packet)) /\
  r_sensors (snd out) = r_sensors recorder_ready /\
  r_sent (snd out) = r_sent recorder_ready.
Proof.
  split; [split; reflexivity|].
  exact (unknown_sensor_ends_recording_loop ref_corrcoef ref_round5 ref_round5
           (orientation_packet "00B42D56" (0, 0, 0)%float)
           [orientation_packet "00B4F114" (0, 0, 0)%float] recorder_ready
           eq_refl eq_refl).
Defined.

(** C4, the claim as stated fails: after a packet of the unregistered sensor
    00B42D56 the loop has raised [KeyError] and has sent nothing, although the next
    packet comes from a registered sensor; that packet alone is handled and
    answered with one message. *)
Lemma unknown_sensor_loop_does_not_continue :
  let unknown := orientation_packet "00B42D56" (0, 0, 0)%float in
  let known := orientation_packet "00B4F114" (0, 0, 0)%float in
  (fst (recording_loop ref_corrcoef ref_round5 ref_round5 [unknown; known] recorder_ready)
   = Raise (KeyError "00B42D56") /\
   r_sent (snd (recording_loop ref_corrcoef ref_round5 ref_round5 [unknown; known]
                  recorder_ready)) = []) /\
  (fst (recording_loop ref_corrcoef ref_round5 ref_round5 [known] recorder_ready) = Ok tt /\
   map fst (r_sent (snd (recording_loop ref_corrcoef ref_round5 ref_round5 [known]
                           recorder_ready))) = ["/xsens12"]).
Proof.
  split; split; vm_compute; reflexivity.
Qed.



(** ** The analytics methods *)

Lemma for_yield_pure {S A B} (body : A -> M S (list B)) (f : A -> list B) (l : list A) s :
  (forall x, In x l -> body x s = (Ok (f x), s)) ->
  for_yield l body s = (Ok (flat_map f l), s).
Proof.
  induction l as [|x l IH]; intros H; simpl; [reflexivity|].
  unfold bind. rewrite (H x (or_introl eq_refl)).
  rewrite IH by (intros y Hy; apply H; right; exact Hy). reflexivity.
Qed.

Lemma map_flat_map {A B C} (g : B -> C) (f : A -> list B) (l : list A) :
  map g (flat_map f l) = flat_map (fun x => map g (f x)) l.
Proof.
  induction l as [|x l IH]; simpl; [reflexivity|]. rewrite map_app, IH. reflexivity.
Qed.

Lemma flat_map_ext_in {A B} (f g : A -> list B) (l : list A) :
  (forall x, In x l -> f x = g x) -> flat_map f l = flat_map g l.
Proof.
  induction l as [|x l IH]; intros H; simpl; [reflexivity|].
  rewrite (H x (or_introl eq_refl)), IH by (intros y Hy; apply H; right; exact Hy).
  reflexivity.
Qed.

Lemma over_channels_map {B} self (g : channel -> B) :
  over_channels self (fun d s label xs => [g (d, s, label, xs)])
  = map g (eligible_channels self).
Proof.
  unfold eligible_channels, over_channels.
  rewrite map_flat_map. apply flat_map_ext_in. intros d _.
  destruct (nth_error (s_dancers self) d) as [dancer|]; [|reflexivity].
  rewrite map_flat_map. apply flat_map_ext_in. intros i _.
  destruct (dict_get (snsr i) dancer) as [sd|]; [|reflexivity].
  rewrite map_flat_map. apply flat_map_ext_in. intros label _.
  destruct (excluded label); [reflexivity|].
  destruct (dict_get label sd) as [[xs|m]|]; try reflexivity.
  destruct (List.length xs <? 32)%nat; reflexivity.
Qed.

Lemma get_sensor_some self d s dancer sd :
  nth_error (s_dancers self) d = Some dancer -> dict_get s dancer = Some sd ->
  get_sensor d s self = (Ok sd, self).
Proof.
  intros Hd Hs. unfold get_sensor. munfold. rewrite Hd, Hs. reflexivity.
Qed.

Lemma get_entry_some self d s l e :
  entry_at self d s l = Some e -> get_entry d s l self = (Ok e, self).
Proof.
  unfold entry_at, get_entry, get_sensor. munfold.
  destruct (nth_error (s_dancers self) d) as [dancer|]; [|discriminate].
  destruct (dict_get s dancer) as [sd|]; [|discriminate].
  intros ->. reflexivity.
Qed.

Lemma length_window32 xs : 32 <= List.length xs -> List.length (window32 xs) = 32.
Proof. intros H. unfold window32. rewrite length_skipn. lia. Qed.

(** Running the three loops of a spectral method whose innermost body returns
    [out d s label] and leaves the object alone. *)
Lemma spectral_loops {B} (body : nat -> string -> string -> M Sensors (list B))
    (f : nat -> string -> string -> list float -> list B) self :
  well_formed self = true ->
  (forall d s label, excluded label = true -> body d s label self = (Ok [], self)) ->
  (forall d s label xs,
     excluded label = false -> entry_at self d s label = Some (Series xs) ->
     body d s label self
     = (Ok (if (List.length xs <? 32)%nat then [] else f d s label xs), self)) ->
  (self <- get ;;
   for_yield (seq 0 (List.length (s_dancers self))) (fun d_idx =>
     self <- get ;;
     for_yield (seq 1 (s_nSensors self)) (fun i =>
       let sensor1 := snsr i in
       sd <- get_sensor d_idx sensor1 ;;
       for_yield (dict_keys sd) (body d_idx sensor1)))) self
  = (Ok (over_channels self f), self).
Proof.
  intros Hwf Hex Hin. unfold well_formed in Hwf. rewrite forallb_forall in Hwf.
  unfold bind at 1, get at 1. unfold over_channels.
  apply for_yield_pure. intros d Hd. apply in_seq in Hd.
  destruct (nth_error (s_dancers self) d) as [dancer|] eqn:Ed;
    [|apply nth_error_None in Ed; lia].
  pose proof (Hwf dancer (nth_error_In _ _ Ed)) as Hdancer.
  rewrite forallb_forall in Hdancer.
  unfold bind at 1, get at 1.
  apply for_yield_pure. intros i Hi.
  specialize (Hdancer i Hi). cbv beta in Hdancer.
  destruct (dict_get (snsr i) dancer) as [sd|] eqn:Es; [|discriminate Hdancer].
  rewrite forallb_forall in Hdancer.
  cbv zeta. unfold bind at 1. rewrite (get_sensor_some self d (snsr i) dancer sd Ed Es).
  apply for_yield_pure. intros label Hl.
  specialize (Hdancer label Hl). cbv beta in Hdancer.
  destruct (excluded label) eqn:Ex; [apply Hex; exact Ex|].
  simpl in Hdancer.
  destruct (dict_get label sd) as [[xs|m]|] eqn:El; try discriminate Hdancer.
  apply Hin; [exact Ex|]. unfold entry_at. rewrite Ed, Es. exact El.
Qed.

Section SpectralFacts.

Variable np_cos : float -> float.
Variable np_fft_rfft : list float -> list (float * float).
Variable np_abs_complex : float * float -> float.

Lemma length_periodic label w : List.length (periodic np_cos label w) = List.length w.
Proof.
  unfold periodic. destruct (contains "ori" label); [apply length_map|].
  destruct (contains "mag" label); [apply length_map|reflexivity].
Qed.

Lemma fft_channel_excluded self d s label :
  excluded label = true ->
  fft_channel np_cos np_fft_rfft np_abs_complex d s label self = (Ok [], self).
Proof. intros H. unfold fft_channel. rewrite H. reflexivity. Qed.

Lemma fft_channel_series self d s label xs :
  excluded label = false -> entry_at self d s label = Some (Series xs) ->
  fft_channel np_cos np_fft_rfft np_abs_complex d s label self
  = (Ok (if (List.length xs <? 32)%nat then [] else [fft_feature np_cos np_fft_rfft np_abs_complex (d, s, label, xs)]), self).
Proof.
  intros Hex He. unfold fft_channel. rewrite Hex.
  unfold bind at 1. rewrite (get_entry_some _ _ _ _ _ He). cbn [entry_len].
  destruct (List.length xs <? 32)%nat; reflexivity.
Qed.

Lemma eligible_channels_long self c :
  In c (eligible_channels self) ->
  excluded (channel_label c) = false /\ 32 <= List.length (channel_series c) /\
  entry_at self (fst (fst (fst c))) (snd (fst (fst c))) (channel_label c)
  = Some (Series (channel_series c)).
Proof.
  unfold eligible_channels, over_channels. intros H.
  apply in_flat_map in H. destruct H as (d & _ & H).
  destruct (nth_error (s_dancers self) d) as [dancer|] eqn:Ed; [|destruct H].
  apply in_flat_map in H. destruct H as (i & _ & H).
  destruct (dict_get (snsr i) dancer) as [sd|] eqn:Es; [|destruct H].
  apply in_flat_map in H. destruct H as (label & _ & H).
  destruct (excluded label) eqn:Ex; [destruct H|].
  destruct (dict_get label sd) as [[xs|m]|] eqn:El; try destruct H.
  destruct (Nat.ltb_spec (List.length xs) 32) as [Hlt|Hge]; [destruct H|].
  destruct H as [<-|[]]. unfold channel_label, channel_series, entry_at. simpl.
  rewrite Ed, Es, El. auto.
Qed.

(** The output size NumPy documents: a real FFT of [n] samples has [n // 2 + 1]
    bins. *)
Hypothesis rfft_length : forall xs, List.length (np_fft_rfft xs) = List.length xs / 2 + 1.

(** X23. On an object whose sensors and series are in place, [calculate_fft]
    returns, leaves the object as it was, and returns one vector per channel that
    is not passed over and holds at least 32 samples, in the order of the loops
    (dancers, then positions, then labels): the magnitudes of the real FFT of the
    transformed last 32 samples, 17 numbers. *)
Theorem calculate_fft_features_per_channel (self : Sensors) :
  well_formed self = true ->
  calculate_fft np_cos np_fft_rfft np_abs_complex self
  = (Ok (map (fft_feature np_cos np_fft_rfft np_abs_complex) (eligible_channels self)), self) /\
  Forall (fun v => List.length v = 17)
         (map (fft_feature np_cos np_fft_rfft np_abs_complex) (eligible_channels self)).
Proof.
  intros Hwf. split.
  - rewrite <- over_channels_map. unfold calculate_fft.
    apply (spectral_loops (fft_channel np_cos np_fft_rfft np_abs_complex)
             (fun d s label xs => [fft_feature np_cos np_fft_rfft np_abs_complex (d, s, label, xs)]) self Hwf).
    + intros d s label. apply fft_channel_excluded.
    + intros d s label xs. apply fft_channel_series.
  - apply Forall_map, Forall_forall. intros c Hc.
    destruct (eligible_channels_long self c Hc) as (_ & Hlen & _).
    unfold fft_feature. rewrite length_map, rfft_length, length_periodic.
    rewrite (length_window32 _ Hlen). reflexivity.
Qed.

End SpectralFacts.

(** ** The correlation series *)

Lemma corr_at_put self d0 s0 l0 key m ys d s l k :
  entry_at self d0 s0 l0 = Some (Corr m) ->
  corr_at (snd (put_entry d0 s0 l0 (Corr (dict_upd key (fun _ => ys) m)) self)) d s l k
  = if (same_path d s l d0 s0 l0 && (k =? key)%string)%bool
    then option_map (fun _ => ys) (corr_at self d s l k)
    else corr_at self d s l k.
Proof.
  intros He. unfold corr_at. rewrite entry_at_put.
  destruct (same_path d s l d0 s0 l0) eqn:P; simpl; [|reflexivity].
  apply same_path_eq in P. destruct P as (-> & -> & ->). rewrite He. simpl.
  rewrite dict_get_upd. reflexivity.
Qed.

Lemma series_at_put_corr self d0 s0 l0 m m' d s l :
  entry_at self d0 s0 l0 = Some (Corr m) ->
  series_at (snd (put_entry d0 s0 l0 (Corr m') self)) d s l = series_at self d s l.
Proof.
  intros He. unfold series_at. rewrite entry_at_put.
  destruct (same_path d s l d0 s0 l0) eqn:P; [|reflexivity].
  apply same_path_eq in P. destruct P as (-> & -> & ->). rewrite He. reflexivity.
Qed.

Lemma same_attributes_put self0 self d0 s0 l0 e :
  same_attributes self0 self ->
  same_attributes self0 (snd (put_entry d0 s0 l0 e self)).
Proof.
  unfold same_attributes, put_entry. munfold. cbn [snd]. simpl.
  rewrite length_list_upd. tauto.
Qed.

Lemma same_attributes_refl self : same_attributes self self.
Proof. unfold same_attributes. tauto. Qed.

Section CorrelationFacts.

Variable np_corrcoef : list float -> list float -> float.
Variable P : Sensors -> Prop.
Variable V : float -> Prop.
Variable T : nat -> string -> string -> string -> Prop.
Hypothesis P_kept : corr_updates_keep P V T.

Lemma corr_append_keeps d0 s0 l0 key val self :
  V val -> T d0 s0 l0 key -> P self -> P (snd (corr_append d0 s0 l0 key val self)).
Proof.
  intros Hv Ht Hp. unfold corr_append. unfold bind at 1.
  pose proof (get_entry_state d0 s0 l0 self) as Hs.
  destruct (get_entry d0 s0 l0 self) as [[e|ex] s1] eqn:E; simpl in Hs; subst s1;
    [|exact Hp].
  apply get_entry_ok in E. destruct E as [_ He].
  destruct e as [xs|m]; [exact Hp|].
  unfold bind at 1, lift_opt.
  destruct (dict_get key m) as [xs|] eqn:Ek; [|exact Hp].
  cbn [ret]. apply (P_kept self d0 s0 l0 key m xs (xs ++ [val]) Hp He Ek Ht).
  left. exists val. auto.
Qed.

Lemma corr_trim_keeps d0 s0 l0 key self :
  T d0 s0 l0 key -> P self -> P (snd (corr_trim d0 s0 l0 key self)).
Proof.
  intros Ht Hp. unfold corr_trim. unfold bind at 1.
  pose proof (get_entry_state d0 s0 l0 self) as Hs.
  destruct (get_entry d0 s0 l0 self) as [[e|ex] s1] eqn:E; simpl in Hs; subst s1;
    [|exact Hp].
  apply get_entry_ok in E. destruct E as [_ He].
  destruct e as [xs|m]; [exact Hp|].
  unfold bind at 1, lift_opt.
  destruct (dict_get key m) as [xs|] eqn:Ek; [|exact Hp].
  cbn [ret].
  destruct (0 <? Z.of_nat (List.length xs) - 500)%Z; [|exact Hp].
  destruct xs as [|x xs']; [exact Hp|].
  apply (P_kept self d0 s0 l0 key m (x :: xs') xs' Hp He Ek Ht).
  right. exists x. reflexivity.
Qed.

Hypothesis V_corrVal : forall w1 w2, V (corrVal_of (np_corrcoef w1 w2)).

Lemma correlate_keeps d1 sensor1 d2 sensor2 key label self :
  (excluded label = false -> T d1 sensor1 (correlation_key label) key) ->
  P self -> P (snd (correlate np_corrcoef d1 sensor1 d2 sensor2 key label self)).
Proof.
  intros Ht Hp. unfold correlate.
  destruct (excluded label) eqn:Ex; [exact Hp|]. specialize (Ht eq_refl).
  unfold bind at 1.
  pose proof (get_entry_state d1 sensor1 label self) as Hs1.
  destruct (get_entry d1 sensor1 label self) as [[e1|ex] s1]; simpl in Hs1; subst s1;
    [|exact Hp].
  unfold bind at 1.
  pose proof (get_entry_state d2 sensor2 label self) as Hs2.
  destruct (get_entry d2 sensor2 label self) as [[e2|ex] s2]; simpl in Hs2; subst s2;
    [|exact Hp].
  destruct ((entry_len e1 <? 32)%nat || (entry_len e2 <? 32)%nat)%bool; [exact Hp|].
  unfold bind at 1. destruct e1 as [xs1|m1]; [|exact Hp]. cbn [slice32 ret].
  unfold bind at 1. destruct e2 as [xs2|m2]; [|exact Hp]. cbn [slice32 ret].
  set (corrVal := corrVal_of (np_corrcoef (window32 xs1) (window32 xs2))).
  assert (Hv : V corrVal) by apply V_corrVal.
  unfold bind at 1.
  pose proof (corr_append_keeps d1 sensor1 (correlation_key label) key corrVal self
                Hv Ht Hp) as Hp1.
  destruct (corr_append d1 sensor1 (correlation_key label) key corrVal self)
    as [[[]|ex] s1]; cbn [snd] in Hp1; [|exact Hp1].
  unfold bind at 1.
  pose proof (corr_trim_keeps d1 sensor1 (correlation_key label) key s1 Ht Hp1) as Hp2.
  destruct (corr_trim d1 sensor1 (correlation_key label) key s1)
    as [[[]|ex] s2]; cbn [snd] in Hp2; exact Hp2.
Qed.

End CorrelationFacts.

Lemma for_yield_keeps_in {S A B} (P : S -> Prop) (body : A -> M S (list B)) (l : list A) :
  (forall x, In x l -> forall s, P s -> P (snd (body x s))) ->
  forall s, P s -> P (snd (for_yield l body s)).
Proof.
  induction l as [|x l IH]; intros Hbody s Hs; simpl; [exact Hs|].
  unfold bind. pose proof (Hbody x (or_introl eq_refl) s Hs) as H.
  destruct (body x s) as [[ys|e] s']; simpl in *; auto.
  assert (H' : P (snd (for_yield l body s')))
    by (apply IH; [intros y Hy; apply Hbody; right; exact Hy|exact H]).
  destruct (for_yield l body s') as [[zs|e] s'']; simpl in *; auto.
Qed.

Lemma get_sensor_state d s self : snd (get_sensor d s self) = self.
Proof.
  unfold get_sensor. munfold.
  destruct (nth_error (s_dancers self) d) as [dancer|]; cbn [snd]; auto.
  destruct (dict_get s dancer); reflexivity.
Qed.

Section CorrelationLoops.

Variable np_corrcoef : list float -> list float -> float.
Variable P : Sensors -> Prop.
Variable V : float -> Prop.
Variable T : nat -> string -> string -> string -> Prop.
Hypothesis P_kept : corr_updates_keep P V T.
Hypothesis V_corrVal : forall w1 w2, V (corrVal_of (np_corrcoef w1 w2)).

Variables (nSensors nDancers : nat).
Hypothesis P_nSensors : forall s, P s -> s_nSensors s = nSensors.
Hypothesis P_nDancers : forall s, P s -> List.length (s_dancers s) = nDancers.

Lemma calculate_correlation_self_keeps self :
  (forall d s l k, self_target nSensors d s l k -> T d s l k) ->
  P self -> P (snd (calculate_correlation_self np_corrcoef self)).
Proof.
  intros HT Hp. unfold calculate_correlation_self. unfold bind at 1, get at 1.
  apply for_yield_keeps_in; [|exact Hp]. intros d _ s1 Hp1.
  unfold bind at 1, get at 1. rewrite (P_nSensors s1 Hp1).
  apply for_yield_keeps_in; [|exact Hp1]. intros i Hi s2 Hp2.
  unfold bind at 1, get at 1. rewrite (P_nSensors s2 Hp2).
  apply for_yield_keeps_in; [|exact Hp2]. intros j Hj s3 Hp3.
  cbv zeta. unfold bind at 1.
  pose proof (get_sensor_state d (snsr i) s3) as Hs.
  destruct (get_sensor d (snsr i) s3) as [[sd|ex] s4]; simpl in Hs; subst s4;
    [|exact Hp3].
  apply for_yield_keeps; [|exact Hp3]. intros label s5 Hp5.
  apply (correlate_keeps np_corrcoef P V T P_kept V_corrVal); [|exact Hp5].
  intros Hex. apply HT. exists label, i, j.
  apply in_seq in Hi. apply in_seq in Hj. repeat split; auto; lia.
Qed.

Lemma calculate_correlation_others_keeps self :
  (forall d s l k, others_target nDancers d s l k -> T d s l k) ->
  P self -> P (snd (calculate_correlation_others np_corrcoef self)).
Proof.
  intros HT Hp. unfold calculate_correlation_others.
  apply for_yield_keeps_in; [|exact Hp]. intros [a b] Hab s1 Hp1.
  destruct (Nat.eqb_spec a b) as [Heq|Hne]; [exact Hp1|].
  unfold bind at 1, get at 1. rewrite (P_nDancers s1 Hp1).
  unfold bind at 1, lift_opt.
  destruct (py_pos nDancers (Z.of_nat (round_div10 a) - 1)) as [d1|] eqn:E1;
    [|exact Hp1].
  cbn [ret]. unfold bind at 1.
  destruct (py_pos nDancers (Z.of_nat (round_div10 b) - 1)) as [d2|] eqn:E2;
    [|exact Hp1].
  cbn [ret]. unfold bind at 1.
  pose proof (get_sensor_state d1 (snsr (a mod 10)) s1) as Hs.
  destruct (get_sensor d1 (snsr (a mod 10)) s1) as [[sd|ex] s2]; simpl in Hs; subst s2;
    [|exact Hp1].
  apply for_yield_keeps; [|exact Hp1]. intros label s3 Hp3.
  apply (correlate_keeps np_corrcoef P V T P_kept V_corrVal); [|exact Hp3].
  intros Hex. apply HT. exists label, a, b. repeat split; auto.
Qed.

End CorrelationLoops.

Lemma frame_refl T self : frame T self self.
Proof.
  split; [apply same_attributes_refl|]. split; [reflexivity|]. intros; left; reflexivity.
Qed.

Lemma frame_kept T self0 : corr_updates_keep (frame T self0) (fun _ => True) T.
Proof.
  intros self d0 s0 l0 key m xs ys (Ha & Hser & Hcorr) He Ek Ht _.
  split; [apply same_attributes_put; exact Ha|]. split.
  - intros d s l. rewrite (series_at_put_corr self d0 s0 l0 m _ d s l He). apply Hser.
  - intros d s l k. rewrite (corr_at_put self d0 s0 l0 key m ys d s l k He).
    destruct (same_path d s l d0 s0 l0 && (k =? key)%string)%bool eqn:C; [|apply Hcorr].
    apply andb_true_iff in C. destruct C as [C1 C2].
    apply same_path_eq in C1. destruct C1 as (-> & -> & ->).
    apply String.eqb_eq in C2. subst k. right. exact Ht.
Qed.

Lemma slice32_state e self : snd (slice32 e self) = self.
Proof. destruct e; reflexivity. Qed.

Section FrameFacts.

Variable np_cos : float -> float.
Variable np_fft_rfft : list float -> list (float * float).
Variable np_abs_complex : float * float -> float.
Variable mfcc : audio -> float -> nat -> nat -> result (list (list float)).
Variable np_corrcoef : list float -> list float -> float.

Lemma fft_channel_state d s label self :
  snd (fft_channel np_cos np_fft_rfft np_abs_complex d s label self) = self.
Proof.
  unfold fft_channel. destruct (excluded label); [reflexivity|].
  unfold bind at 1. pose proof (get_entry_state d s label self) as Hs.
  destruct (get_entry d s label self) as [[e|ex] s1]; simpl in Hs; subst s1;
    [|reflexivity].
  destruct (entry_len e <? 32)%nat; [reflexivity|].
  destruct e; reflexivity.
Qed.

Lemma mfcc_channel_state fs d s label self :
  snd (mfcc_channel np_cos mfcc fs d s label self) = self.
Proof.
  unfold mfcc_channel. destruct (excluded label); [reflexivity|].
  unfold bind at 1. pose proof (get_entry_state d s label self) as Hs.
  destruct (get_entry d s label self) as [[e|ex] s1]; simpl in Hs; subst s1;
    [|reflexivity].
  destruct (entry_len e <? 32)%nat; [reflexivity|].
  destruct e as [xs|m]; [|reflexivity].
  cbn [slice32]. unfold bind, ret, call.
  destruct (mfcc (mfcc_input np_cos label (window32 xs)) fs 32 13); reflexivity.
Qed.

Lemma spectral_loops_state {B} (body : nat -> string -> string -> M Sensors (list B)) self :
  (forall d s label s0, snd (body d s label s0) = s0) ->
  snd ((self <- get ;;
        for_yield (seq 0 (List.length (s_dancers self))) (fun d_idx =>
          self <- get ;;
          for_yield (seq 1 (s_nSensors self)) (fun i =>
            let sensor1 := snsr i in
            sd <- get_sensor d_idx sensor1 ;;
            for_yield (dict_keys sd) (body d_idx sensor1)))) self) = self.
Proof.
  intros Hbody. unfold bind at 1, get at 1.
  apply (for_yield_keeps (fun s => s = self)); [|reflexivity]. intros d s1 ->.
  unfold bind at 1, get at 1.
  apply (for_yield_keeps (fun s => s = self)); [|reflexivity]. intros i s2 ->.
  cbv zeta. unfold bind at 1.
  pose proof (get_sensor_state d (snsr i) self) as Hs.
  destruct (get_sensor d (snsr i) self) as [[sd|ex] s3]; simpl in Hs; subst s3;
    [|reflexivity].
  apply (for_yield_keeps (fun s => s = self)); [|reflexivity]. intros label s4 ->.
  apply Hbody.
Qed.

(** C10. [calculate_fft] and [calculate_mfcc] leave the whole object as it was.
    [calculate_correlation_self] and [calculate_correlation_others], whether they
    return or raise, leave every attribute other than the store, every series of a
    base channel and every correlation series as they were, except the correlation
    series of the (label, key) pairs they compute: for the first, under sensor [i]
    the series keyed by a sensor [j > i] of a label that is not passed over; for the
    second, under the first sensor of a configured pair the series keyed by the
    dancer key derived from the second. *)
Theorem analytics_frame (self : Sensors) (fs : float) :
  snd (calculate_fft np_cos np_fft_rfft np_abs_complex self) = self /\
  snd (calculate_mfcc np_cos mfcc fs self) = self /\
  frame (self_target (s_nSensors self)) self
        (snd (calculate_correlation_self np_corrcoef self)) /\
  frame (others_target (List.length (s_dancers self))) self
        (snd (calculate_correlation_others np_corrcoef self)).
Proof.
  split; [|split; [|split]].
  - apply spectral_loops_state. intros. apply fft_channel_state.
  - apply spectral_loops_state. intros. apply mfcc_channel_state.
  - apply (calculate_correlation_self_keeps np_corrcoef
             (frame (self_target (s_nSensors self)) self) (fun _ => True)
             (self_target (s_nSensors self)) (frame_kept _ self) (fun _ _ => I)
             (s_nSensors self)).
    + intros s (Ha & _). apply Ha.
    + auto.
    + apply frame_refl.
  - apply (calculate_correlation_others_keeps np_corrcoef
             (frame (others_target (List.length (s_dancers self))) self) (fun _ => True)
             (others_target (List.length (s_dancers self))) (frame_kept _ self)
             (fun _ _ => I) (List.length (s_dancers self))).
    + intros s (Ha & _). apply Ha.
    + auto.
    + apply frame_refl.
Qed.

End FrameFacts.

(** ** [calculate_mfcc] and the signals librosa takes *)

Lemma for_yield_settles {S A B} (E : exn -> Prop) (body : A -> M S (list B))
    (l : list A) (s : S) :
  (forall x, In x l -> settles E s (body x s)) -> settles E s (for_yield l body s).
Proof.
  induction l as [|x l IH]; intros H; [split; [reflexivity|exact I]|].
  destruct (H x (or_introl eq_refl)) as [Hs He].
  cbn [for_yield]. unfold bind at 1.
  destruct (body x s) as [[ys|e] s1]; cbn [fst snd] in *; subst s1; [|split; auto].
  destruct (IH (fun y Hy => H y (or_intror Hy))) as [Hs' He'].
  unfold bind. destruct (for_yield l body s) as [[zs|e] s2]; cbn [fst snd] in *; subst s2;
    split; auto.
Qed.

Lemma for_yield_fails {S A B} (E : exn -> Prop) (body : A -> M S (list B))
    (l : list A) (s : S) (x : A) :
  (forall y, In y l -> settles E s (body y s)) ->
  In x l -> fails E s (body x s) -> fails E s (for_yield l body s).
Proof.
  induction l as [|y l IH]; intros H Hin Hx; [destruct Hin|].
  destruct (H y (or_introl eq_refl)) as [Hs He].
  cbn [for_yield]. unfold bind at 1.
  destruct (body y s) as [[ys|e] s1] eqn:Ey; cbn [fst snd] in *; subst s1;
    [|exists e; auto].
  destruct Hin as [->|Hin].
  { destruct Hx as (e & Hx & _). rewrite Hx in Ey. discriminate. }
  destruct (IH (fun z Hz => H z (or_intror Hz)) Hin Hx) as (e & E1 & He1).
  unfold bind. rewrite E1. exists e. auto.
Qed.

Section MfccFacts.

Variable np_cos : float -> float.
Variable mfcc : audio -> float -> nat -> nat -> result (list (list float)).

(** librosa checks the signal before it computes anything: [mfcc] hands [y] on to
    [stft], which calls [util.valid_audio], and a signal that is not a NumPy array
    raises [ParameterError]. *)
Hypothesis mfcc_rejects_list :
  forall xs sr n_fft n_mfcc, mfcc (PyList xs) sr n_fft n_mfcc = Raise ParameterError.

Lemma mfcc_channel_long fs self d s label xs :
  excluded label = false -> entry_at self d s label = Some (Series xs) ->
  32 <= List.length xs ->
  mfcc_channel np_cos mfcc fs d s label self
  = (match mfcc (mfcc_input np_cos label (window32 xs)) fs 32 13 with
     | Ok cc => Ok [map (map PrimFloat.abs) cc]
     | Raise e => Raise e
     end, self).
Proof.
  intros Hex He Hlen. unfold mfcc_channel. rewrite Hex.
  unfold bind at 1. rewrite (get_entry_some _ _ _ _ _ He). cbn [entry_len].
  destruct (Nat.ltb_spec (List.length xs) 32) as [H|_]; [lia|].
  cbn [slice32]. unfold bind, ret, call.
  destruct (mfcc (mfcc_input np_cos label (window32 xs)) fs 32 13); reflexivity.
Qed.

Lemma mfcc_channel_settles fs self d s label :
  (excluded label = true \/ exists xs, entry_at self d s label = Some (Series xs)) ->
  settles (mfcc_exception mfcc fs) self (mfcc_channel np_cos mfcc fs d s label self).
Proof.
  intros H. split; [apply mfcc_channel_state|].
  destruct H as [Hex|[xs He]]; [unfold mfcc_channel; rewrite Hex; exact I|].
  destruct (excluded label) eqn:Hex; [unfold mfcc_channel; rewrite Hex; exact I|].
  destruct (Nat.ltb_spec (List.length xs) 32) as [Hlt|Hge].
  - apply Nat.ltb_lt in Hlt. unfold mfcc_channel. rewrite Hex. unfold bind at 1.
    rewrite (get_entry_some _ _ _ _ _ He). cbn [entry_len]. rewrite Hlt. exact I.
  - rewrite (mfcc_channel_long fs self d s label xs Hex He Hge). cbn [fst].
    unfold mfcc_input.
    destruct (contains "ori" label);
      [destruct (mfcc _ fs 32 13) eqn:E; [exact I|right; eexists; exact E]|].
    destruct (contains "mag" label);
      [destruct (mfcc _ fs 32 13) eqn:E; [exact I|right; eexists; exact E]|].
    rewrite mfcc_rejects_list. left. reflexivity.
Qed.

Lemma mfcc_channel_fails fs self d s label xs :
  excluded label = false -> entry_at self d s label = Some (Series xs) ->
  32 <= List.length xs ->
  contains "ori" label = false -> contains "mag" label = false ->
  fails (mfcc_exception mfcc fs) self (mfcc_channel np_cos mfcc fs d s label self).
Proof.
  intros Hex He Hlen Ho Hm. exists ParameterError. split; [|left; reflexivity].
  rewrite (mfcc_channel_long fs self d s label xs Hex He Hlen).
  unfold mfcc_input. rewrite Ho, Hm, mfcc_rejects_list. reflexivity.
Qed.

(** C9, where the code fails the claim.  [calculate_mfcc] passes the window of an
    orientation or magnetometer channel as the array [np.cos] returned, and the
    window of every other channel as the slice of the Python list (lines 287-290),
    which librosa does not take.  So, on an object whose sensors and series are in
    place, as soon as one channel that is not passed over, holds at least 32
    samples and is neither an orientation nor a magnetometer channel exists,
    [calculate_mfcc] returns no feature at all: it raises, [ParameterError] unless
    [mfcc] raised on an array before, and leaves the object as it was. *)
Theorem calculate_mfcc_raises_on_list_channel (self : Sensors) (fs : float) :
  well_formed self = true ->
  existsb list_channel (eligible_channels self) = true ->
  exists e, calculate_mfcc np_cos mfcc fs self = (Raise e, self) /\
            mfcc_exception mfcc fs e.
Proof.
  intros Hwf Hex. set (E := mfcc_exception mfcc fs).
  unfold well_formed in Hwf. rewrite forallb_forall in Hwf.
  assert (Hlabels : forall d i dancer sd,
            nth_error (s_dancers self) d = Some dancer ->
            In i (seq 1 (s_nSensors self)) ->
            dict_get (snsr i) dancer = Some sd ->
            forall label, In label (dict_keys sd) ->
              settles E self (mfcc_channel np_cos mfcc fs d (snsr i) label self)).
  { intros d i dancer sd Ed Hi Es label Hl.
    pose proof (Hwf dancer (nth_error_In _ _ Ed)) as Hdancer.
    rewrite forallb_forall in Hdancer. specialize (Hdancer i Hi). cbv beta in Hdancer.
    rewrite Es in Hdancer. rewrite forallb_forall in Hdancer.
    specialize (Hdancer label Hl). cbv beta in Hdancer.
    apply mfcc_channel_settles.
    destruct (excluded label); [left; reflexivity|right]. simpl in Hdancer.
    unfold entry_at. rewrite Ed, Es.
    destruct (dict_get label sd) as [[xs|m]|]; try discriminate. exists xs. reflexivity. }
  assert (Hsensors : forall d dancer,
            nth_error (s_dancers self) d = Some dancer ->
            forall i, In i (seq 1 (s_nSensors self)) ->
              settles E self
                ((sd <- get_sensor d (snsr i) ;;
                  for_yield (dict_keys sd) (mfcc_channel np_cos mfcc fs d (snsr i))) self)).
  { intros d dancer Ed i Hi.
    pose proof (Hwf dancer (nth_error_In _ _ Ed)) as Hdancer.
    rewrite forallb_forall in Hdancer. specialize (Hdancer i Hi). cbv beta in Hdancer.
    destruct (dict_get (snsr i) dancer) as [sd|] eqn:Es; [|discriminate].
    unfold bind at 1. rewrite (get_sensor_some self d (snsr i) dancer sd Ed Es).
    apply for_yield_settles. exact (Hlabels d i dancer sd Ed Hi Es). }
  apply existsb_exists in Hex. destruct Hex as (c & Hc & Hlist).
  unfold eligible_channels, over_channels in Hc.
  apply in_flat_map in Hc. destruct Hc as (d & Hd & Hc).
  destruct (nth_error (s_dancers self) d) as [dancer|] eqn:Ed; [|destruct Hc].
  apply in_flat_map in Hc. destruct Hc as (i & Hi & Hc).
  destruct (dict_get (snsr i) dancer) as [sd|] eqn:Es; [|destruct Hc].
  apply in_flat_map in Hc. destruct Hc as (label & Hl & Hc).
  destruct (excluded label) eqn:Hx; [destruct Hc|].
  destruct (dict_get label sd) as [[xs|m]|] eqn:El; try destruct Hc.
  destruct (Nat.ltb_spec (List.length xs) 32) as [Hlt|Hge]; [destruct Hc|].
  destruct Hc as [<-|[]].
  unfold list_channel, channel_label in Hlist. cbn [fst snd] in Hlist.
  apply andb_true_iff in Hlist. destruct Hlist as [Ho Hm].
  apply negb_true_iff in Ho. apply negb_true_iff in Hm.
  assert (He : entry_at self d (snsr i) label = Some (Series xs))
    by (unfold entry_at; rewrite Ed, Es; exact El).
  unfold calculate_mfcc. unfold bind at 1, get at 1.
  apply (for_yield_fails E _ _ self d); [|exact Hd|].
  - intros d' Hd'. apply in_seq in Hd'. unfold bind at 1, get at 1.
    destruct (nth_error (s_dancers self) d') as [dancer'|] eqn:Ed';
      [|apply nth_error_None in Ed'; lia].
    apply for_yield_settles. intros i' Hi'. exact (Hsensors d' dancer' Ed' i' Hi').
  - unfold bind at 1, get at 1.
    apply (for_yield_fails E _ _ self i); [exact (Hsensors d dancer Ed)|exact Hi|].
    cbv zeta. unfold bind at 1. rewrite (get_sensor_some self d (snsr i) dancer sd Ed Es).
    apply (for_yield_fails E _ _ self label);
      [exact (Hlabels d i dancer sd Ed Hi Es)|exact Hl|].
    exact (mfcc_channel_fails fs self d (snsr i) label xs Hx He Hge Ho Hm).
Qed.

End MfccFacts.

Lemma for_yield_outputs {S A B} (Q : B -> Prop) (body : A -> M S (list B)) (l : list A) :
  (forall x s ys s', body x s = (Ok ys, s') -> Forall Q ys) ->
  forall s out s', for_yield l body s = (Ok out, s') -> Forall Q out.
Proof.
  intros Hbody. induction l as [|x l IH]; intros s out s' H; simpl in H.
  - inversion H. constructor.
  - apply bind_ok in H. destruct H as (ys & s1 & H1 & H2).
    apply bind_ok in H2. destruct H2 as (zs & s2 & H2 & H3).
    inversion H3; subst. apply Forall_app. split.
    + exact (Hbody x s ys s1 H1).
    + exact (IH s1 zs s' H2).
Qed.

Lemma in_unit_range_zero : in_unit_range 0.
Proof. split; reflexivity. Qed.

Lemma Prim2SF_one : Prim2SF 1 = S754_finite false 4503599627370496 (-52).
Proof. vm_compute. reflexivity. Qed.

Lemma Prim2SF_minus_one : Prim2SF (-1) = S754_finite true 4503599627370496 (-52).
Proof. vm_compute. reflexivity. Qed.

Lemma Prim2SF_infinity : Prim2SF infinity = S754_infinity false.
Proof. vm_compute. reflexivity. Qed.

(** A number between -1 and 1 is neither a NaN nor an infinity. *)
Lemma in_unit_range_finite v :
  in_unit_range v -> PrimFloat.is_nan v = false /\ PrimFloat.is_infinity v = false.
Proof.
  unfold in_unit_range, fle, PrimFloat.is_nan, PrimFloat.is_infinity.
  rewrite !FloatAxioms.leb_spec, !FloatAxioms.eqb_spec, FloatAxioms.abs_spec.
  rewrite Prim2SF_one, Prim2SF_minus_one, Prim2SF_infinity.
  unfold SFleb, SFeqb.
  destruct (Prim2SF v) as [s|s| |s m e].
  - simpl; auto.
  - destruct s; simpl; intros [H1 H2]; discriminate.
  - simpl; intros [H1 H2]; discriminate.
  - intros _. cbn [SFabs SFcompare].
    change (PosDef.Pos.compare_cont Eq m m) with (Pos.compare m m).
    rewrite Z.compare_refl, Pos.compare_refl. destruct s; auto.
Qed.

Lemma new_coefficients_refl self : new_coefficients_in_range self self.
Proof.
  split; [apply same_attributes_refl|]. intros d s l k ys H. exists ys. split; [exact H|].
  apply Forall_forall. auto.
Qed.

Lemma new_coefficients_kept self0 :
  corr_updates_keep (new_coefficients_in_range self0) in_unit_range (fun _ _ _ _ => True).
Proof.
  intros self d0 s0 l0 key m xs ys (Ha & Hin) He Ek _ Hys.
  split; [apply same_attributes_put; exact Ha|].
  intros d s l k zs. rewrite (corr_at_put self d0 s0 l0 key m ys d s l k He).
  destruct (same_path d s l d0 s0 l0 && (k =? key)%string)%bool eqn:C; [|apply Hin].
  apply andb_true_iff in C. destruct C as [C1 C2].
  apply same_path_eq in C1. destruct C1 as (-> & -> & ->).
  apply String.eqb_eq in C2. subst k.
  assert (Hx : corr_at self d0 s0 l0 key = Some xs)
    by (unfold corr_at; rewrite He; exact Ek).
  rewrite Hx. simpl. intros Hz. injection Hz as <-.
  destruct (Hin d0 s0 l0 key xs Hx) as (xs0 & H0 & Hall).
  exists xs0. split; [exact H0|].
  destruct Hys as [(v & Hv & ->)|(x & ->)].
  - apply Forall_app. split; [exact Hall|]. constructor; auto.
  - inversion Hall; assumption.
Qed.

Section CoefficientFacts.

Variable np_corrcoef : list float -> list float -> float.

(** NumPy's [corrcoef] clips its result to [[-1, 1]]; a NaN passes the clip. *)
Hypothesis corrcoef_clipped :
  forall x y, PrimFloat.is_nan (np_corrcoef x y) = true \/ in_unit_range (np_corrcoef x y).

Lemma corrVal_in_range w1 w2 : in_unit_range (corrVal_of (np_corrcoef w1 w2)).
Proof.
  unfold corrVal_of. destruct (PrimFloat.is_nan (np_corrcoef w1 w2)) eqn:E.
  - exact in_unit_range_zero.
  - destruct (corrcoef_clipped w1 w2) as [H|H]; [congruence|exact H].
Qed.

Lemma correlate_outputs d1 sensor1 d2 sensor2 key label self ys self' :
  correlate np_corrcoef d1 sensor1 d2 sensor2 key label self = (Ok ys, self') ->
  Forall (fun p : string * float => in_unit_range (snd p)) ys.
Proof.
  unfold correlate. destruct (excluded label); [intros H; inversion H; constructor|].
  intros H. apply bind_ok in H. destruct H as (e1 & s1 & _ & H).
  apply bind_ok in H. destruct H as (e2 & s2 & _ & H).
  destruct ((entry_len e1 <? 32)%nat || (entry_len e2 <? 32)%nat)%bool;
    [inversion H; constructor|].
  apply bind_ok in H. destruct H as (w1 & s3 & _ & H).
  apply bind_ok in H. destruct H as (w2 & s4 & _ & H).
  apply bind_ok in H. destruct H as ([] & s5 & _ & H).
  apply bind_ok in H. destruct H as ([] & s6 & _ & H).
  inversion H. constructor; [|constructor]. apply corrVal_in_range.
Qed.

Lemma calculate_correlation_self_outputs self out self' :
  calculate_correlation_self np_corrcoef self = (Ok out, self') ->
  Forall (fun p : string * float => in_unit_range (snd p)) out.
Proof.
  unfold calculate_correlation_self. unfold bind at 1, get at 1.
  apply for_yield_outputs. intros d s1 ys1 s1'.
  unfold bind at 1, get at 1.
  apply for_yield_outputs. intros i s2 ys2 s2'.
  unfold bind at 1, get at 1.
  apply for_yield_outputs. intros j s3 ys3 s3'.
  cbv zeta. intros H. apply bind_ok in H. destruct H as (sd & s4 & _ & H).
  revert H. apply for_yield_outputs. intros label s5 ys5 s5'.
  apply correlate_outputs.
Qed.

Lemma calculate_correlation_others_outputs self out self' :
  calculate_correlation_others np_corrcoef self = (Ok out, self') ->
  Forall (fun p : string * float => in_unit_range (snd p)) out.
Proof.
  unfold calculate_correlation_others.
  apply for_yield_outputs. intros [a b] s1 ys1 s1'.
  destruct (a =? b)%nat; [intros H; inversion H; constructor|].
  intros H. apply bind_ok in H. destruct H as (self1 & s2 & _ & H).
  apply bind_ok in H. destruct H as (d1 & s3 & _ & H).
  apply bind_ok in H. destruct H as (d2 & s4 & _ & H).
  apply bind_ok in H. destruct H as (sd & s5 & _ & H).
  revert H. apply for_yield_outputs. intros label s6 ys6 s6'.
  apply correlate_outputs.
Qed.


End CoefficientFacts.

(** ** The reference library functions meet the documented contracts *)

Lemma clip1_range x : PrimFloat.is_nan (clip1 x) = true \/ in_unit_range (clip1 x).
Proof.
  unfold clip1. destruct (PrimFloat.ltb x (-1)) eqn:L1.
  - right. split; reflexivity.
  - destruct (PrimFloat.ltb 1 x) eqn:L2.
    + right. split; reflexivity.
    + destruct (not_ltb_cases _ _ L1) as [H|[H|H1]]; [left; exact H|discriminate H|].
      destruct (not_ltb_cases _ _ L2) as [H|[H|H2]]; [discriminate H|left; exact H|].
      right. split; assumption.
Qed.

Lemma ref_corrcoef_clipped x y :
  PrimFloat.is_nan (ref_corrcoef x y) = true \/ in_unit_range (ref_corrcoef x y).
Proof. unfold ref_corrcoef. apply clip1_range. Qed.

Lemma ref_rfft_length xs : List.length (ref_rfft xs) = List.length xs / 2 + 1.
Proof. unfold ref_rfft. rewrite length_map, length_seq. reflexivity. Qed.

Lemma ref_mfcc_rejects_list xs sr n_fft n_mfcc :
  ref_mfcc (PyList xs) sr n_fft n_mfcc = Raise ParameterError.
Proof. reflexivity. Qed.


Lemma calculate_fft_features_per_channel_witness :
  well_formed Sensors_ready = true /\
  List.length (eligible_channels Sensors_ready) = 108 /\
  (calculate_fft ref_cos ref_rfft ref_abs_complex Sensors_ready
   = (Ok (map (fft_feature ref_cos ref_rfft ref_abs_complex)
             (eligible_channels Sensors_ready)), Sensors_ready) /\
   Forall (fun v => List.length v = 17)
     (map (fft_feature ref_cos ref_rfft ref_abs_complex) (eligible_channels Sensors_ready))).
Proof.
  assert (Hwf : well_formed Sensors_ready = true) by (vm_compute; reflexivity).
  split; [exact Hwf|]. split; [vm_compute; reflexivity|].
  exact (calculate_fft_features_per_channel ref_cos ref_rfft ref_abs_complex
           ref_rfft_length Sensors_ready Hwf).
Defined.

Lemma calculate_mfcc_raises_on_list_channel_witness :
  (well_formed Sensors_ready = true /\
   existsb list_channel (eligible_channels Sensors_ready) = true) /\
  fst (calculate_mfcc ref_cos ref_mfcc 60 Sensors_ready) = Raise ParameterError /\
  exists e, calculate_mfcc ref_cos ref_mfcc 60 Sensors_ready = (Raise e, Sensors_ready) /\
            mfcc_exception ref_mfcc 60 e.
Proof.
  assert (H1 : well_formed Sensors_ready = true) by (vm_compute; reflexivity).
  assert (H2 : existsb list_channel (eligible_channels Sensors_ready) = true)
    by (vm_compute; reflexivity).
  split; [split; [exact H1|exact H2]|]. split; [vm_compute; reflexivity|].
  exact (calculate_mfcc_raises_on_list_channel ref_cos ref_mfcc ref_mfcc_rejects_list
           Sensors_ready 60 H1 H2).
Defined.

(** ** The 32-sample guard *)

Lemma send_calls_keep_500 calls self d s l xs :
  series_at self d s l = Some xs -> List.length xs = 500 ->
  fst (send_calls calls self) = Ok tt ->
  exists ys, series_at (snd (send_calls calls self)) d s l = Some ys /\
             List.length ys = 500.
Proof.
  intros Hxs Hlen Hok. apply run_ok in Hok.
  destruct (acts_send_calls (s_axes self) d s l calls self _ eq_refl Hok) as [_ E].
  rewrite Hxs in E. simpl in E.
  set (appended := flat_map (delivered (s_axes self) d s l) calls) in *.
  assert (Hle : List.length xs <= 500) by lia.
  destruct (fold_push_lastn appended xs Hle) as [E' _].
  exists (fold_left push appended xs). split; [exact E|].
  rewrite E'. apply length_lastn. rewrite length_app. lia.
Qed.

Section GuardFacts.

Variable np_cos : float -> float.
Variable np_fft_rfft : list float -> list (float * float).
Variable np_abs_complex : float * float -> float.
Variable mfcc : audio -> float -> nat -> nat -> result (list (list float)).
Variable np_corrcoef : list float -> list float -> float.

(** C3 (as amended). The guard of the four methods counts the entries a series
    holds, pre-filled zeros included.  A channel whose stored series holds fewer
    than 32 entries is skipped by each method: nothing is added to the output and
    the object, its correlation series included, is left as it was.  A series that
    holds 500 entries, as every series built by [dancers] does, still holds 500
    after any run of [send_data] calls, however few samples it received. *)
Theorem short_series_is_skipped
    (self : Sensors) (fs : float) (d : nat) (s label : string) (e : entry)
    (d2 : nat) (s2 key : string) (e2 : entry) :
  entry_at self d s label = Some e ->
  entry_len e < 32 ->
  entry_at self d2 s2 label = Some e2 ->
  (fft_channel np_cos np_fft_rfft np_abs_complex d s label self = (Ok [], self) /\
   mfcc_channel np_cos mfcc fs d s label self = (Ok [], self) /\
   correlate np_corrcoef d s d2 s2 key label self = (Ok [], self) /\
   correlate np_corrcoef d2 s2 d s key label self = (Ok [], self)) /\
  (forall calls d' s' l' xs,
     series_at self d' s' l' = Some xs -> List.length xs = 500 ->
     fst (send_calls calls self) = Ok tt ->
     exists ys, series_at (snd (send_calls calls self)) d' s' l' = Some ys /\
                List.length ys = 500).
Proof.
  intros He Hlen He2. split.
  - apply Nat.ltb_lt in Hlen.
    unfold fft_channel, mfcc_channel, correlate.
    destruct (excluded label); [repeat split; reflexivity|].
    unfold bind. rewrite (get_entry_some _ _ _ _ _ He), (get_entry_some _ _ _ _ _ He2).
    rewrite (get_entry_some _ _ _ _ _ He). rewrite Hlen. rewrite orb_true_r.
    repeat split; reflexivity.
  - intros calls d' s' l' xs. apply send_calls_keep_500.
Qed.

End GuardFacts.

Lemma short_series_is_skipped_witness :
  (entry_at short_store 0 "snsr_1" "acc_x" = Some (Series [1; 2; 3]%float) /\
   entry_len (Series [1; 2; 3]%float) < 32 /\
   entry_at short_store 0 "snsr_2" "acc_x" = Some (Series [3; 2; 1]%float)) /\
  (fft_channel ref_cos ref_rfft ref_abs_complex 0 "snsr_1" "acc_x" short_store
   = (Ok [], short_store) /\
   mfcc_channel ref_cos ref_mfcc 60 0 "snsr_1" "acc_x" short_store = (Ok [], short_store) /\
   correlate ref_corrcoef 0 "snsr_1" 0 "snsr_2" "snsr_2" "acc_x" short_store
   = (Ok [], short_store) /\
   correlate ref_corrcoef 0 "snsr_2" 0 "snsr_1" "snsr_2" "acc_x" short_store
   = (Ok [], short_store)) /\
  (forall calls d' s' l' xs,
     series_at short_store d' s' l' = Some xs -> List.length xs = 500 ->
     fst (send_calls calls short_store) = Ok tt ->
     exists ys, series_at (snd (send_calls calls short_store)) d' s' l' = Some ys /\
                List.length ys = 500).
Proof.
  assert (H1 : entry_at short_store 0 "snsr_1" "acc_x" = Some (Series [1; 2; 3]%float))
    by reflexivity.
  assert (H2 : entry_len (Series [1; 2; 3]%float) < 32) by (simpl; lia).
  assert (H3 : entry_at short_store 0 "snsr_2" "acc_x" = Some (Series [3; 2; 1]%float))
    by reflexivity.
  split; [auto|].
  exact (short_series_is_skipped ref_cos ref_rfft ref_abs_complex ref_mfcc ref_corrcoef
           short_store 60 0 "snsr_1" "acc_x" _ 0 "snsr_2" "snsr_2" _ H1 H2 H3).
Defined.

(** C3, the claim as stated fails: after two ingested acceleration samples per
    sensor the channel [acc_x] of the left sensor of dancer 1 holds 2 real samples
    behind 498 pre-filled zeros, and it is not skipped: [calculate_correlation_self]
    returns an entry for it (108 entries in all), with a coefficient that is not 0
    and that is appended to the stored correlation series, and [calculate_fft]
    returns 108 vectors. *)
Lemma channel_with_two_samples_is_not_skipped :
  let self := snd (send_calls few_samples Sensors_ready) in
  flat_map (delivered (s_axes Sensors_ready) 0 "snsr_1" "acc_x") few_samples
  = [1; 2]%float /\
  option_map (@List.length _) (series_at self 0 "snsr_1" "acc_x") = Some 500 /\
  (match fst (calculate_correlation_self ref_corrcoef self) with
   | Ok out => (List.length out, nth_error out 3)
   | Raise _ => (0, None)
   end) = (108, Some ("acc_x", 0x1.fe2521d475d2bp-1%float)) /\
  option_map (skipn 497)
    (corr_at (snd (calculate_correlation_self ref_corrcoef self))
             0 "snsr_1" "correlation_acc_x" "snsr_2")
  = Some [0; 0; 0x1.fe2521d475d2bp-1]%float /\
  (match fst (calculate_fft ref_cos ref_rfft ref_abs_complex self) with
   | Ok out => List.length out
   | Raise _ => 0
   end) = 108.
Proof.
  split; [|split; [|split; [|split]]]; vm_compute; reflexivity.
Qed.

(** * More of the code *)

(** ** [scale_data]: what a call returns and what it stores *)

Lemma guarded_update idx dt i val lo hi self :
  bound_at self idx (dt ++ "_min") i = Some lo ->
  bound_at self idx (dt ++ "_max") i = Some hi ->
  exists self1,
    (if PrimFloat.ltb val lo then bound_set idx (dt ++ "_min") i val
     else if PrimFloat.ltb hi val then bound_set idx (dt ++ "_max") i val
     else ret tt) self = (Ok tt, self1) /\
    bound_at self1 idx (dt ++ "_min") i = Some (if PrimFloat.ltb val lo then val else lo) /\
    bound_at self1 idx (dt ++ "_max") i
    = Some (if PrimFloat.ltb val lo then hi else if PrimFloat.ltb hi val then val else hi) /\
    (forall idx' key i',
       idx' <> idx \/ i' <> i \/ (key <> (dt ++ "_min")%string /\ key <> (dt ++ "_max")%string) ->
       bound_at self1 idx' key i' = bound_at self idx' key i') /\
    (PrimFloat.ltb val lo = false -> PrimFloat.ltb hi val = false -> self1 = self).
Proof.
  intros Elo Ehi.
  assert (Hother : forall k idx' key i',
             idx' <> idx \/ i' <> i \/ (key <> (dt ++ "_min")%string /\ key <> (dt ++ "_max")%string) ->
             k = (dt ++ "_min")%string \/ k = (dt ++ "_max")%string ->
             ((idx' =? idx)%nat && (key =? k)%string && (i' =? i)%nat)%bool = false).
  { intros k idx' key i' H Hk.
    destruct (Nat.eqb_spec idx' idx) as [->|]; [|reflexivity].
    destruct (Nat.eqb_spec i' i) as [->|]; [|apply andb_false_r].
    destruct H as [H|[H|[H1 H2]]]; try congruence.
    destruct (String.eqb_spec key k) as [->|]; [|reflexivity].
    destruct Hk; congruence. }
  destruct (PrimFloat.ltb val lo) eqn:L1; [|destruct (PrimFloat.ltb hi val) eqn:L2].
  - exists (snd (bound_set idx (dt ++ "_min") i val self)).
    split; [reflexivity|]. split; [|split; [|split]].
    + rewrite bound_at_set, !Nat.eqb_refl, String.eqb_refl, Elo. reflexivity.
    + rewrite bound_at_set, other_key; [exact Ehi|].
      intros C. symmetry in C. exact (min_key_not_max_key _ _ C).
    + intros idx' key i' H. rewrite bound_at_set, (Hother (dt ++ "_min")%string); auto.
    + discriminate.
  - exists (snd (bound_set idx (dt ++ "_max") i val self)).
    split; [reflexivity|]. split; [|split; [|split]].
    + rewrite bound_at_set, other_key; [exact Elo|]. exact (min_key_not_max_key _ _).
    + rewrite bound_at_set, !Nat.eqb_refl, String.eqb_refl, Ehi. reflexivity.
    + intros idx' key i' H. rewrite bound_at_set, (Hother (dt ++ "_max")%string); auto.
    + discriminate.
  - exists self. repeat split; auto.
Qed.

Lemma ratio_at_ext self self1 idx dt j val :
  bound_at self1 idx (dt ++ "_min") j = bound_at self idx (dt ++ "_min") j ->
  bound_at self1 idx (dt ++ "_max") j = bound_at self idx (dt ++ "_max") j ->
  ratio_at self1 idx dt j val = ratio_at self idx dt j val.
Proof. unfold ratio_at. intros -> ->. reflexivity. Qed.

Lemma In_combine_seq {A} (l : list A) : forall i j (x : A),
  In (j, x) (combine (seq i (List.length l)) l) -> i <= j.
Proof.
  induction l as [|y l IH]; intros i j x H; simpl in H; [destruct H|].
  destruct H as [H|H]; [injection H as <- _; lia|].
  apply IH in H. lia.
Qed.

(** The loop of [scale_data] from component [i] on: the ratios it appends, the two
    bounds it leaves for each component, and the bounds it does not reach. *)
Lemma scale_loop_spec idx dt : forall value i scaled self out self',
  scale_loop idx dt value i scaled self = (Ok out, self') ->
  map Some out
  = map Some scaled
    ++ map (fun p => ratio_at self idx dt (fst p) (snd p))
           (combine (seq i (List.length value)) value) /\
  (forall j val lo hi,
     nth_error value j = Some val ->
     bound_at self idx (dt ++ "_min") (i + j) = Some lo ->
     bound_at self idx (dt ++ "_max") (i + j) = Some hi ->
     bound_at self' idx (dt ++ "_min") (i + j)
     = Some (if PrimFloat.ltb val lo then val else lo) /\
     bound_at self' idx (dt ++ "_max") (i + j)
     = Some (if PrimFloat.ltb val lo then hi else if PrimFloat.ltb hi val then val else hi)) /\
  (forall idx' key i',
     idx' <> idx \/ i' < i \/ i + List.length value <= i'
     \/ (key <> (dt ++ "_min")%string /\ key <> (dt ++ "_max")%string) ->
     bound_at self' idx' key i' = bound_at self idx' key i').
Proof.
  induction value as [|val rest IH]; intros i scaled self out self' H.
  - inversion H; subst. split; [rewrite app_nil_r; reflexivity|].
    split; [intros [|j]; discriminate|]. reflexivity.
  - simpl in H.
    apply bind_ok in H. destruct H as (lo & s1 & H1 & H).
    pose proof (bound_get_state idx (dt ++ "_min") i self) as Hs. rewrite H1 in Hs.
    simpl in Hs. subst s1. apply bound_get_ok in H1.
    apply bind_ok in H. destruct H as (hi & s1 & H2 & H).
    pose proof (bound_get_state idx (dt ++ "_max") i self) as Hs. rewrite H2 in Hs.
    simpl in Hs. subst s1. apply bound_get_ok in H2.
    apply bind_ok in H. destruct H as ([] & self1 & H3 & H).
    destruct (guarded_update idx dt i val lo hi self H1 H2)
      as (self1' & E & Hmin & Hmax & Hfar & _).
    rewrite E in H3. injection H3 as <-.
    apply bind_ok in H. destruct H as (q & s2 & H4 & H).
    unfold py_div in H4. destruct (PrimFloat.eqb (hi - lo) 0); [discriminate|].
    inversion H4; subst q s2. clear H4.
    destruct (IH (S i) _ _ _ _ H) as (Hout & Hnew & Hframe).
    split; [|split].
    + rewrite Hout, map_app, <- app_assoc. f_equal. simpl. f_equal.
      * unfold ratio_at. rewrite H1, H2. reflexivity.
      * apply map_ext_in. intros [j v] Hin. apply In_combine_seq in Hin. simpl.
        apply ratio_at_ext; apply Hfar; right; left; lia.
    + intros [|j] v lo' hi' Hv Elo Ehi.
      * simpl in Hv. injection Hv as <-. rewrite Nat.add_0_r in *.
        rewrite H1 in Elo. injection Elo as <-. rewrite H2 in Ehi. injection Ehi as <-.
        rewrite !Hframe by (right; left; lia). auto.
      * simpl in Hv. replace (i + S j) with (S i + j) in * by lia.
        apply (Hnew j v lo' hi' Hv).
        -- rewrite Hfar by (right; left; lia). exact Elo.
        -- rewrite Hfar by (right; left; lia). exact Ehi.
    + intros idx' key i' Hc. simpl List.length in Hc.
      assert (Hc1 : idx' <> idx \/ i' < S i \/ S i + List.length rest <= i'
                    \/ (key <> (dt ++ "_min")%string /\ key <> (dt ++ "_max")%string))
        by (intuition lia).
      assert (Hc2 : idx' <> idx \/ i' <> i
                    \/ (key <> (dt ++ "_min")%string /\ key <> (dt ++ "_max")%string))
        by (intuition lia).
      rewrite (Hframe _ _ _ Hc1). exact (Hfar _ _ _ Hc2).
Qed.

Lemma scale_data_found sensor_id dt value self idx :
  find_sensor sensor_id (s_minmax self) = Some idx ->
  scale_data sensor_id dt value self = scale_loop idx dt value 0 [] self.
Proof. intros H. unfold scale_data. munfold. rewrite H. reflexivity. Qed.

(** X1. When a call of [scale_data] returns, it returns one number per component of
    [value], and the number for component [i] is [(val - min) / (max - min)] with the
    bounds the object stored for that component before the call, whether or not the
    call moves them. *)
Theorem scale_data_scales_by_bounds_before_call
    (sensor_id data_type : string) (value out : list float) (self self' : Sensors)
    (idx : nat) :
  find_sensor sensor_id (s_minmax self) = Some idx ->
  scale_data sensor_id data_type value self = (Ok out, self') ->
  map Some out
  = map (fun p => ratio_at self idx data_type (fst p) (snd p)) (enumerate value).
Proof.
  intros Hidx H. rewrite (scale_data_found _ _ _ _ _ Hidx) in H.
  destruct (scale_loop_spec _ _ _ _ _ _ _ _ H) as [Hout _]. exact Hout.
Qed.

Lemma scale_data_scales_by_bounds_before_call_witness :
  (find_sensor "00B4F114" (s_minmax Sensors_ready) = Some 1 /\
   scale_data "00B4F114" "gyr" [5; -3; 0.5]%float Sensors_ready
   = (Ok [5; -3; 0.5]%float,
      snd (scale_data "00B4F114" "gyr" [5; -3; 0.5]%float Sensors_ready))) /\
  map Some [5; -3; 0.5]%float
  = map (fun p => ratio_at Sensors_ready 1 "gyr" (fst p) (snd p))
        (enumerate [5; -3; 0.5]%float).
Proof.
  assert (H1 : find_sensor "00B4F114" (s_minmax Sensors_ready) = Some 1)
    by (vm_compute; reflexivity).
  assert (H2 : fst (scale_data "00B4F114" "gyr" [5; -3; 0.5]%float Sensors_ready)
               = Ok [5; -3; 0.5]%float) by (vm_compute; reflexivity).
  apply run_ok in H2.
  split; [split; assumption|].
  exact (scale_data_scales_by_bounds_before_call "00B4F114" "gyr" _ _ Sensors_ready _ 1 H1 H2).
Defined.

(** X2. When a call of [scale_data] returns, the stored minimum of a component is
    the raw value if that was below the old minimum and the old minimum otherwise;
    the stored maximum is the raw value if that was not below the old minimum and
    above the old maximum, and the old maximum otherwise.  The bounds of the other
    sensors, of the other data types and of components beyond [value] are the ones
    stored before. *)
Theorem scale_data_stores_new_extremes
    (sensor_id data_type : string) (value out : list float) (self self' : Sensors)
    (idx : nat) :
  find_sensor sensor_id (s_minmax self) = Some idx ->
  scale_data sensor_id data_type value self = (Ok out, self') ->
  (forall i val lo hi,
     nth_error value i = Some val ->
     bound_at self idx (data_type ++ "_min") i = Some lo ->
     bound_at self idx (data_type ++ "_max") i = Some hi ->
     bound_at self' idx (data_type ++ "_min") i
     = Some (if PrimFloat.ltb val lo then val else lo) /\
     bound_at self' idx (data_type ++ "_max") i
     = Some (if PrimFloat.ltb val lo then hi
             else if PrimFloat.ltb hi val then val else hi)) /\
  (forall idx' key i,
     idx' <> idx \/ List.length value <= i
     \/ (key <> (data_type ++ "_min")%string /\ key <> (data_type ++ "_max")%string) ->
     bound_at self' idx' key i = bound_at self idx' key i).
Proof.
  intros Hidx H. rewrite (scale_data_found _ _ _ _ _ Hidx) in H.
  destruct (scale_loop_spec _ _ _ _ _ _ _ _ H) as (_ & Hnew & Hframe).
  split.
  - intros i. exact (Hnew i).
  - intros idx' key i Hc. apply Hframe.
    destruct Hc as [Hc|[Hc|Hc]]; auto.
Qed.

Lemma scale_data_stores_new_extremes_witness :
  (find_sensor "00B4F114" (s_minmax Sensors_ready) = Some 1 /\
   scale_data "00B4F114" "gyr" [5; -3; 0.5]%float Sensors_ready
   = (Ok [5; -3; 0.5]%float,
      snd (scale_data "00B4F114" "gyr" [5; -3; 0.5]%float Sensors_ready))) /\
  let self' := snd (scale_data "00B4F114" "gyr" [5; -3; 0.5]%float Sensors_ready) in
  (forall i val lo hi,
     nth_error [5; -3; 0.5]%float i = Some val ->
     bound_at Sensors_ready 1 "gyr_min" i = Some lo ->
     bound_at Sensors_ready 1 "gyr_max" i = Some hi ->
     bound_at self' 1 "gyr_min" i = Some (if PrimFloat.ltb val lo then val else lo) /\
     bound_at self' 1 "gyr_max" i
     = Some (if PrimFloat.ltb val lo then hi
             else if PrimFloat.ltb hi val then val else hi)) /\
  (forall idx' key i,
     idx' <> 1 \/ 3 <= i \/ (key <> "gyr_min" /\ key <> "gyr_max") ->
     bound_at self' idx' key i = bound_at Sensors_ready idx' key i).
Proof.
  assert (H1 : find_sensor "00B4F114" (s_minmax Sensors_ready) = Some 1)
    by (vm_compute; reflexivity).
  assert (H2 : fst (scale_data "00B4F114" "gyr" [5; -3; 0.5]%float Sensors_ready)
               = Ok [5; -3; 0.5]%float) by (vm_compute; reflexivity).
  apply run_ok in H2.
  split; [split; assumption|].
  exact (scale_data_stores_new_extremes "00B4F114" "gyr" _ _ Sensors_ready _ 1 H1 H2).
Defined.

Lemma scale_loop_within idx dt : forall value i scaled self,
  (forall j val lo hi,
     nth_error value j = Some val ->
     bound_at self idx (dt ++ "_min") (i + j) = Some lo ->
     bound_at self idx (dt ++ "_max") (i + j) = Some hi ->
     PrimFloat.ltb val lo = false /\ PrimFloat.ltb hi val = false) ->
  snd (scale_loop idx dt value i scaled self) = self.
Proof.
  induction value as [|val rest IH]; intros i scaled self Hin; simpl; [reflexivity|].
  unfold bind at 1.
  pose proof (bound_get_state idx (dt ++ "_min") i self) as Hs1.
  destruct (bound_get idx (dt ++ "_min") i self) as [[lo|e] s1] eqn:E1; simpl in Hs1; subst s1;
    [|reflexivity].
  unfold bind at 1.
  pose proof (bound_get_state idx (dt ++ "_max") i self) as Hs2.
  destruct (bound_get idx (dt ++ "_max") i self) as [[hi|e] s2] eqn:E2; simpl in Hs2; subst s2;
    [|reflexivity].
  apply bound_get_ok in E1. apply bound_get_ok in E2.
  destruct (Hin 0 val lo hi eq_refl) as [L1 L2]; try (rewrite Nat.add_0_r; assumption).
  rewrite L1, L2. unfold bind at 1. unfold ret at 1.
  unfold bind at 1. unfold py_div.
  destruct (PrimFloat.eqb (hi - lo) 0); simpl; [reflexivity|].
  apply IH. intros j v lo' hi' Hv Elo Ehi.
  apply (Hin (S j) v lo' hi' Hv); replace (i + S j) with (S i + j) by lia; assumption.
Qed.

(** X3. A call of [scale_data] whose raw values all lie within the stored bounds of
    their components (no value below the minimum, none above the maximum; a NaN is
    neither) leaves the object exactly as it was, whether it returns or raises. *)
Theorem scale_data_within_bounds_changes_nothing
    (sensor_id data_type : string) (value : list float) (self : Sensors) (idx : nat) :
  find_sensor sensor_id (s_minmax self) = Some idx ->
  within_bounds self idx data_type value ->
  snd (scale_data sensor_id data_type value self) = self.
Proof.
  intros Hidx Hin. rewrite (scale_data_found _ _ _ _ _ Hidx).
  apply scale_loop_within. exact Hin.
Qed.

Lemma scale_data_within_bounds_changes_nothing_witness :
  (find_sensor "00B4F11D" (s_minmax Sensors_ready) = Some 8 /\
   within_bounds Sensors_ready 8 "mag" [0.25; nan; 1]%float) /\
  snd (scale_data "00B4F11D" "mag" [0.25; nan; 1]%float Sensors_ready) = Sensors_ready.
Proof.
  assert (H1 : find_sensor "00B4F11D" (s_minmax Sensors_ready) = Some 8)
    by (vm_compute; reflexivity).
  assert (H2 : within_bounds Sensors_ready 8 "mag" [0.25; nan; 1]%float).
  { intros i val lo hi Hv Elo Ehi.
    destruct i as [|[|[|i]]];
      [ | | |destruct i; discriminate];
      vm_compute in Hv, Elo, Ehi;
      injection Hv as <-; injection Elo as <-; injection Ehi as <-;
      split; vm_compute; reflexivity. }
  split; [split; assumption|].
  exact (scale_data_within_bounds_changes_nothing "00B4F11D" "mag" _ Sensors_ready 8 H1 H2).
Defined.

(** ** [set_ids] and the sensors [scale_data] knows *)

Section Registration.

Variable body : nat * string -> M Sensors unit.
Hypothesis body_eq : forall i sensor_id s,
  body (i, sensor_id) s
  = match dict_get sensor_id locations with
    | None => (Raise (KeyError sensor_id), s)
    | Some _ =>
        match nth_error (s_minmax s) i with
        | None => (Raise IndexError, s)
        | Some _ => (Ok tt, with_minmax s (list_upd i (set_mm_id sensor_id) (s_minmax s)))
        end
    end.

Lemma registration_returns ids : forall k s,
  fst (for_each (combine (seq k (List.length ids)) ids) body s) = Ok tt -> known_ids ids.
Proof.
  induction ids as [|sensor_id ids IH]; intros k s H; [constructor|].
  simpl in H. unfold bind in H. rewrite body_eq in H.
  destruct (dict_get sensor_id locations) eqn:E; [|discriminate].
  destruct (nth_error (s_minmax s) k); [|discriminate].
  constructor; [unfold dict_mem; rewrite E; reflexivity|].
  exact (IH _ _ H).
Qed.

Lemma registration_spec ids : known_ids ids -> forall k s,
  let out := for_each (combine (seq k (List.length ids)) ids) body s in
  (forall i,
     nth_error (s_minmax (snd out)) i
     = if (i <? k)%nat then nth_error (s_minmax s) i
       else match nth_error ids (i - k) with
            | Some sensor_id => option_map (set_mm_id sensor_id) (nth_error (s_minmax s) i)
            | None => nth_error (s_minmax s) i
            end) /\
  (k + List.length ids <= List.length (s_minmax s) -> fst out = Ok tt) /\
  (k <= List.length (s_minmax s) -> List.length (s_minmax s) < k + List.length ids ->
   fst out = Raise IndexError).
Proof.
  induction 1 as [|sensor_id ids Hid Hids IH]; intros k s out.
  - subst out. simpl. split; [|split; [reflexivity|lia]].
    intros i. destruct (i <? k)%nat; [reflexivity|]. destruct (i - k); reflexivity.
  - subst out. simpl. unfold bind. rewrite body_eq.
    unfold dict_mem in Hid. destruct (dict_get sensor_id locations); [|discriminate].
    destruct (nth_error (s_minmax s) k) as [sensor|] eqn:E.
    + destruct (IH (S k) (with_minmax s (list_upd k (set_mm_id sensor_id) (s_minmax s))))
        as (Hnth & Hok & Hfail).
      cbn [s_minmax with_minmax] in Hnth, Hok, Hfail. rewrite length_list_upd in Hok, Hfail.
      split; [|split].
      * intros i. rewrite Hnth, nth_error_list_upd.
        destruct (Nat.ltb_spec i (S k)) as [L|L]; destruct (Nat.ltb_spec i k) as [L'|L'];
          try lia.
        -- destruct (Nat.eqb_spec i k); [lia|reflexivity].
        -- assert (i = k) by lia. subst i. rewrite Nat.eqb_refl, Nat.sub_diag. reflexivity.
        -- destruct (Nat.eqb_spec i k); [lia|].
           replace (i - k) with (S (i - S k)) by lia. reflexivity.
      * intros L. apply Hok. simpl in L. lia.
      * intros L0 L. assert (k < List.length (s_minmax s)) by (apply nth_error_Some; congruence).
        apply Hfail; simpl in L; lia.
    + apply nth_error_None in E. cbn [fst snd]. split; [|split].
      * intros i. destruct (Nat.ltb_spec i k) as [L|L]; [reflexivity|].
        assert (N : nth_error (s_minmax s) i = None) by (apply nth_error_None; lia).
        rewrite N. destruct (nth_error _ (i - k)); reflexivity.
      * simpl. lia.
      * reflexivity.
Qed.

Lemma registration_frame l s :
  s_dancers (snd (for_each l body s)) = s_dancers s.
Proof.
  apply (for_each_keeps (fun s' => s_dancers s' = s_dancers s)); [|reflexivity].
  intros [i sensor_id] s' H. rewrite body_eq.
  destruct (dict_get sensor_id locations); [|exact H].
  destruct (nth_error (s_minmax s') i); exact H.
Qed.

End Registration.

Lemma set_ids_loop self ids :
  s_sensors self = Some ids ->
  exists body,
    set_ids self = for_each (combine (seq 0 (List.length ids)) ids) body self /\
    forall i sensor_id s,
      body (i, sensor_id) s
      = match dict_get sensor_id locations with
        | None => (Raise (KeyError sensor_id), s)
        | Some _ =>
            match nth_error (s_minmax s) i with
            | None => (Raise IndexError, s)
            | Some _ => (Ok tt, with_minmax s (list_upd i (set_mm_id sensor_id) (s_minmax s)))
            end
        end.
Proof.
  intros Hs. eexists. split.
  - unfold set_ids. unfold bind at 1. unfold get at 1. unfold bind at 1.
    rewrite Hs. unfold lift_opt at 1. unfold ret at 1. reflexivity.
  - intros i sensor_id s. munfold.
    destruct (dict_get sensor_id locations); [|reflexivity].
    destruct (nth_error (s_minmax s) i); reflexivity.
Qed.

(** When [set_ids] returns or runs out of dictionaries, dictionary [i] of
    [self.minmax] carries the id of sensor [i]. *)
Lemma set_ids_spec self ids :
  s_sensors self = Some ids -> known_ids ids ->
  (forall i,
     nth_error (s_minmax (snd (set_ids self))) i
     = match nth_error ids i with
       | Some sensor_id => option_map (set_mm_id sensor_id) (nth_error (s_minmax self) i)
       | None => nth_error (s_minmax self) i
       end) /\
  s_dancers (snd (set_ids self)) = s_dancers self /\
  (List.length ids <= List.length (s_minmax self) -> fst (set_ids self) = Ok tt) /\
  (List.length (s_minmax self) < List.length ids -> fst (set_ids self) = Raise IndexError).
Proof.
  intros Hs Hk. destruct (set_ids_loop self ids Hs) as (body & -> & Hbody).
  destruct (registration_spec body Hbody ids Hk 0 self) as (Hnth & Hok & Hfail).
  split; [|split; [|split]].
  - intros i. rewrite Hnth. simpl. rewrite Nat.sub_0_r. reflexivity.
  - apply registration_frame. exact Hbody.
  - exact Hok.
  - apply Hfail. lia.
Qed.

Lemma set_ids_known self ids :
  s_sensors self = Some ids -> fst (set_ids self) = Ok tt -> known_ids ids.
Proof.
  intros Hs H. destruct (set_ids_loop self ids Hs) as (body & E & Hbody).
  rewrite E in H. exact (registration_returns body Hbody ids 0 self H).
Qed.

(** X4. When [set_ids] returns, every sensor id is a key of [Sensors.locations],
    there are at most as many sensors as dictionaries in [self.minmax], dictionary
    [i] carries the id of sensor [i] with the bounds it had, the dictionaries beyond
    the sensors are untouched, and so is the store. *)
Theorem set_ids_registers_sensors (self self' : Sensors) (ids : list string) :
  s_sensors self = Some ids ->
  set_ids self = (Ok tt, self') ->
  known_ids ids /\
  List.length ids <= List.length (s_minmax self) /\
  (forall i,
     nth_error (s_minmax self') i
     = match nth_error ids i with
       | Some sensor_id => option_map (set_mm_id sensor_id) (nth_error (s_minmax self) i)
       | None => nth_error (s_minmax self) i
       end) /\
  s_dancers self' = s_dancers self.
Proof.
  intros Hs H.
  assert (Hk : known_ids ids) by (apply (set_ids_known self ids Hs); rewrite H; reflexivity).
  destruct (set_ids_spec self ids Hs Hk) as (Hnth & Hd & _ & Hfail).
  rewrite H in Hnth, Hd, Hfail. cbn [fst snd] in *.
  split; [exact Hk|]. split; [|split; assumption].
  destruct (Nat.le_gt_cases (List.length ids) (List.length (s_minmax self))) as [L|L];
    [exact L|]. specialize (Hfail L). discriminate.
Qed.

Lemma set_ids_registers_sensors_witness :
  let self := with_sensors Sensors_init ["00B4F11B"; "00B4F11A"] in
  (s_sensors self = Some ["00B4F11B"; "00B4F11A"] /\
   set_ids self = (Ok tt, snd (set_ids self))) /\
  known_ids ["00B4F11B"; "00B4F11A"] /\
  2 <= List.length (s_minmax self) /\
  (forall i,
     nth_error (s_minmax (snd (set_ids self))) i
     = match nth_error ["00B4F11B"; "00B4F11A"] i with
       | Some sensor_id => option_map (set_mm_id sensor_id) (nth_error (s_minmax self) i)
       | None => nth_error (s_minmax self) i
       end) /\
  s_dancers (snd (set_ids self)) = s_dancers self.
Proof.
  intros self.
  assert (H1 : s_sensors self = Some ["00B4F11B"; "00B4F11A"]) by reflexivity.
  assert (H2 : fst (set_ids self) = Ok tt) by (vm_compute; reflexivity).
  apply run_ok in H2.
  split; [split; assumption|].
  exact (set_ids_registers_sensors self _ _ H1 H2).
Defined.

Lemma find_sensor_none sensor_id mm :
  Forall (fun sensor => id_is sensor_id sensor = false) mm -> find_sensor sensor_id mm = None.
Proof.
  induction 1 as [|x mm Hx _ IH]; simpl; [reflexivity|]. rewrite Hx, IH. reflexivity.
Qed.

(** [find_sensor] returns the first position whose dictionary carries the id. *)
Lemma find_sensor_first sensor_id mm : forall i x,
  nth_error mm i = Some x -> id_is sensor_id x = true ->
  exists idx y, find_sensor sensor_id mm = Some idx /\ idx <= i /\
                nth_error mm idx = Some y /\ id_is sensor_id y = true /\
                forall j z, j < idx -> nth_error mm j = Some z -> id_is sensor_id z = false.
Proof.
  induction mm as [|m mm IH]; intros i x Hi Hx; [destruct i; discriminate|].
  simpl. destruct (id_is sensor_id m) eqn:E.
  - exists 0, m. repeat split; auto; [lia|]. intros j z L. lia.
  - destruct i as [|i]; [simpl in Hi; injection Hi as ->; congruence|].
    destruct (IH i x Hi Hx) as (idx & y & F & L & N & Y & Hfirst).
    exists (S idx), y. rewrite F. repeat split; auto; [lia|].
    intros [|j] z Lj Hz; [simpl in Hz; injection Hz as <-; exact E|].
    apply (Hfirst j z); [lia|exact Hz].
Qed.

(** X5. After [set_ids] has returned on an object whose dictionaries carried no id
    (as [__init__] leaves them), [scale_data] finds a dictionary exactly for the ids
    of the connected sensors: for any other id it raises [IndexError], the list
    comprehension being empty, and changes nothing; for a connected sensor it works
    on the dictionary at the sensor's first position in the sensor list. *)
Theorem scale_data_knows_registered_sensors
    (self self' : Sensors) (ids : list string) (sensor_id : string) :
  no_ids self ->
  s_sensors self = Some ids ->
  set_ids self = (Ok tt, self') ->
  (~ In sensor_id ids ->
   forall data_type value,
     scale_data sensor_id data_type value self' = (Raise IndexError, self')) /\
  (In sensor_id ids ->
   exists idx,
     find_sensor sensor_id (s_minmax self') = Some idx /\
     nth_error ids idx = Some sensor_id /\
     forall j, j < idx -> nth_error ids j <> Some sensor_id).
Proof.
  intros Hno Hs H.
  assert (Hk : known_ids ids) by (apply (set_ids_known self ids Hs); rewrite H; reflexivity).
  destruct (set_ids_spec self ids Hs Hk) as (Hnth & _ & _ & Hfail).
  rewrite H in Hnth, Hfail. cbn [fst snd] in Hnth, Hfail.
  assert (Hlen : List.length ids <= List.length (s_minmax self)).
  { destruct (Nat.le_gt_cases (List.length ids) (List.length (s_minmax self))) as [L|L];
      [exact L|]. specialize (Hfail L). discriminate. }
  assert (Hid : forall i x, nth_error (s_minmax self') i = Some x ->
                  id_is sensor_id x = true -> nth_error ids i = Some sensor_id).
  { intros i x Hi Hx. rewrite Hnth in Hi.
    destruct (nth_error ids i) as [sid|] eqn:Ei.
    - destruct (nth_error (s_minmax self) i) as [y|]; [|discriminate].
      injection Hi as <-. unfold id_is in Hx. simpl in Hx.
      apply String.eqb_eq in Hx. congruence.
    - apply nth_error_In in Hi. unfold no_ids in Hno. rewrite Forall_forall in Hno.
      unfold id_is in Hx. rewrite (Hno _ Hi) in Hx. discriminate. }
  assert (Hreg : forall i, nth_error ids i = Some sensor_id ->
                   exists x, nth_error (s_minmax self') i = Some x /\
                             id_is sensor_id x = true).
  { intros i Hi. rewrite Hnth, Hi.
    destruct (nth_error (s_minmax self) i) as [y|] eqn:Ey.
    - eexists. split; [reflexivity|]. unfold id_is. simpl. apply String.eqb_refl.
    - apply nth_error_None in Ey.
      assert (i < List.length ids) by (apply nth_error_Some; congruence). lia. }
  split.
  - intros Hnot data_type value. unfold scale_data. munfold.
    rewrite find_sensor_none; [reflexivity|].
    apply Forall_forall. intros x Hx.
    destruct (id_is sensor_id x) eqn:E; [|reflexivity].
    apply In_nth_error in Hx. destruct Hx as [i Hi].
    exfalso. apply Hnot. exact (nth_error_In _ _ (Hid i x Hi E)).
  - intros Hin. apply In_nth_error in Hin. destruct Hin as [i Hi].
    destruct (Hreg i Hi) as (x & Hx & Hxid).
    destruct (find_sensor_first sensor_id _ i x Hx Hxid)
      as (idx & y & F & L & N & Y & Hfirst).
    exists idx. split; [exact F|]. split; [exact (Hid idx y N Y)|].
    intros j Lj Hj. destruct (Hreg j Hj) as (z & Hz & Hzid).
    rewrite (Hfirst j z Lj Hz) in Hzid. discriminate.
Qed.

Lemma scale_data_knows_registered_sensors_witness :
  let self := with_sensors Sensors_init ["00B4F11B"; "00B4F11A"; "00B4F11B"] in
  (no_ids self /\
   s_sensors self = Some ["00B4F11B"; "00B4F11A"; "00B4F11B"] /\
   set_ids self = (Ok tt, snd (set_ids self))) /\
  (~ In "00B4F114" ["00B4F11B"; "00B4F11A"; "00B4F11B"] ->
   forall data_type value,
     scale_data "00B4F114" data_type value (snd (set_ids self))
     = (Raise IndexError, snd (set_ids self))) /\
  (In "00B4F114" ["00B4F11B"; "00B4F11A"; "00B4F11B"] ->
   exists idx,
     find_sensor "00B4F114" (s_minmax (snd (set_ids self))) = Some idx /\
     nth_error ["00B4F11B"; "00B4F11A"; "00B4F11B"] idx = Some "00B4F114" /\
     forall j, j < idx -> nth_error ["00B4F11B"; "00B4F11A"; "00B4F11B"] j <> Some "00B4F114").
Proof.
  intros self.
  assert (H0 : no_ids self) by (unfold no_ids; simpl; repeat constructor).
  assert (H1 : s_sensors self = Some ["00B4F11B"; "00B4F11A"; "00B4F11B"]) by reflexivity.
  assert (H2 : fst (set_ids self) = Ok tt) by (vm_compute; reflexivity).
  apply run_ok in H2.
  split; [repeat split; assumption|].
  exact (scale_data_knows_registered_sensors self _ _ "00B4F114" H0 H1 H2).
Defined.

(** X6. [self.minmax] holds a fixed number of dictionaries (nine after [__init__]).
    With more connected sensors than dictionaries, all of them known, [set_ids]
    raises [IndexError] at the first sensor without a dictionary, after it has
    written the ids of the sensors before it: every dictionary then carries the id
    of the sensor at its position. *)
Theorem set_ids_more_sensors_than_dictionaries (self : Sensors) (ids : list string) :
  s_sensors self = Some ids ->
  known_ids ids ->
  List.length (s_minmax self) < List.length ids ->
  fst (set_ids self) = Raise IndexError /\
  List.length (s_minmax (snd (set_ids self))) = List.length (s_minmax self) /\
  forall i sensor, nth_error (s_minmax (snd (set_ids self))) i = Some sensor ->
    mm_id sensor = nth_error ids i /\ nth_error ids i <> None.
Proof.
  intros Hs Hk L.
  destruct (set_ids_spec self ids Hs Hk) as (Hnth & _ & _ & Hfail).
  split; [exact (Hfail L)|].
  assert (Hlen : forall l1 l2 : list MinMax,
             (forall i, nth_error l1 i = None <-> nth_error l2 i = None) ->
             List.length l1 = List.length l2).
  { intros l1 l2 Hn.
    destruct (Nat.lt_trichotomy (List.length l1) (List.length l2)) as [C|[C|C]]; [|exact C|].
    - assert (N : nth_error l1 (List.length l1) = None) by (apply nth_error_None; lia).
      apply Hn in N. apply nth_error_None in N. lia.
    - assert (N : nth_error l2 (List.length l2) = None) by (apply nth_error_None; lia).
      apply Hn in N. apply nth_error_None in N. lia. }
  split.
  - apply Hlen. intros i. rewrite Hnth.
    destruct (nth_error ids i); [|reflexivity].
    destruct (nth_error (s_minmax self) i); simpl; split; intros; congruence.
  - intros i sensor Hi. rewrite Hnth in Hi.
    destruct (nth_error ids i) as [sensor_id|] eqn:Ei.
    + destruct (nth_error (s_minmax self) i); [|discriminate].
      injection Hi as <-. split; [reflexivity|discriminate].
    + apply nth_error_None in Ei.
      assert (i < List.length (s_minmax self)) by (apply nth_error_Some; congruence). lia.
Qed.

Lemma set_ids_more_sensors_than_dictionaries_witness :
  let ids := dict_keys locations ++ ["00B4F11A"] in
  let self := with_sensors Sensors_init ids in
  (s_sensors self = Some ids /\ known_ids ids /\
   List.length (s_minmax self) < List.length ids) /\
  fst (set_ids self) = Raise IndexError /\
  List.length (s_minmax (snd (set_ids self))) = List.length (s_minmax self) /\
  forall i sensor, nth_error (s_minmax (snd (set_ids self))) i = Some sensor ->
    mm_id sensor = nth_error ids i /\ nth_error ids i <> None.
Proof.
  intros ids self.
  assert (H1 : s_sensors self = Some ids) by reflexivity.
  assert (H2 : known_ids ids) by (unfold known_ids, ids; simpl; repeat constructor).
  assert (H3 : List.length (s_minmax self) < List.length ids) by (vm_compute; lia).
  split; [repeat split; assumption|].
  exact (set_ids_more_sensors_than_dictionaries self ids H1 H2 H3).
Defined.

(** ** [send_data]: what a call can touch *)

Lemma bind_keeps {S A B} (P : S -> Prop) (m : M S A) (k : A -> M S B) s :
  P (snd (m s)) -> (forall a s', P s' -> P (snd (k a s'))) -> P (snd (bind m k s)).
Proof.
  intros Hm Hk. unfold bind. destruct (m s) as [[a|e] s']; simpl in *; auto.
Qed.

Section SeriesUpdates.

Variable P : Sensors -> Prop.
Variables (d0 : nat) (s0 : string).
Hypothesis P_kept : series_updates_keep P d0 s0.

Lemma list_append_keeps l arg self : P self -> P (snd (list_append d0 s0 l arg self)).
Proof.
  intros Hs. unfold list_append. unfold bind at 1.
  pose proof (get_entry_state d0 s0 l self) as Hst.
  destruct (get_entry d0 s0 l self) as [[e|x] s1] eqn:E; simpl in Hst; subst s1;
    [|exact Hs].
  apply get_entry_ok in E. destruct E as [_ E].
  destruct e as [xs|m]; [|exact Hs].
  destruct arg as [v|]; [|exact Hs].
  unfold bind, lift_opt, ret. exact (P_kept self l xs _ Hs E).
Qed.

Lemma trim_keeps l self : P self -> P (snd (trim d0 s0 l self)).
Proof.
  intros Hs. unfold trim. unfold bind at 1.
  pose proof (get_entry_state d0 s0 l self) as Hst.
  destruct (get_entry d0 s0 l self) as [[e|x] s1] eqn:E; simpl in Hst; subst s1;
    [|exact Hs].
  destruct (0 <? Z.of_nat (entry_len e) - 500)%Z; [|exact Hs].
  unfold bind. rewrite E.
  apply get_entry_ok in E. destruct E as [_ E].
  destruct e as [[|x xs]|m]; try exact Hs.
  exact (P_kept self l (x :: xs) _ Hs E).
Qed.

End SeriesUpdates.

Lemma send_data_keeps (P : Sensors -> Prop) sensor_id data_type value self :
  (forall loc, dict_get sensor_id locations = Some loc ->
     series_updates_keep P (loc_dancer loc - 1) (snsr (loc_sensor loc))) ->
  P self -> P (snd (send_data sensor_id data_type value self)).
Proof.
  intros HP Hs. unfold send_data. unfold bind at 1.
  destruct (dict_get sensor_id locations) as [loc|]; [|exact Hs].
  specialize (HP loc eq_refl). unfold lift_opt, ret. cbv zeta.
  set (d0 := loc_dancer loc - 1) in *. set (s0 := snsr (loc_sensor loc)) in *.
  pose proof (list_append_keeps P d0 s0 HP) as Happ.
  pose proof (trim_keeps P d0 s0 HP) as Htrim.
  destruct (existsb (String.eqb data_type) ["acc"; "gyr"; "mag"]).
  { apply for_each_keeps; [|exact Hs].
    intros [i val] s Hs'. unfold bind at 1. unfold get at 1.
    apply bind_keeps.
    - unfold index, lift_opt. destruct (nth_error (s_axes s) i); exact Hs'.
    - intros axis s' Hs''. apply bind_keeps; [apply Happ; exact Hs''|].
      intros _ s'' H. apply Htrim. exact H. }
  destruct (data_type =? "ori")%string.
  { apply bind_keeps; [apply Happ; exact Hs|]. intros _ s1 H1.
    apply bind_keeps; [apply Happ; exact H1|]. intros _ s2 H2.
    apply bind_keeps; [apply Happ; exact H2|]. intros _ s3 H3.
    apply for_each_keeps; [|exact H3]. intros pry s H. apply Htrim. exact H. }
  destruct (data_type =? "rot")%string.
  { apply bind_keeps; [apply Happ; exact Hs|]. intros _ s1 H1. apply Htrim. exact H1. }
  destruct (data_type =? "tot_a")%string.
  { apply bind_keeps; [apply Happ; exact Hs|]. intros _ s1 H1.
    apply bind_keeps; [apply Happ; exact H1|]. intros _ s2 H2.
    apply bind_keeps; [apply Htrim; exact H2|]. intros _ s3 H3.
    apply Htrim. exact H3. }
  exact Hs.
Qed.

Lemma only_series_of_refl d0 s0 self : only_series_of d0 s0 self self.
Proof.
  split; [apply same_attributes_refl|]. split; [reflexivity|]. split; [reflexivity|].
  intros d s l. destruct (entry_at self d s l) as [[xs|m]|]; eauto.
Qed.

Lemma only_series_of_kept d0 s0 self0 : series_updates_keep (only_series_of d0 s0 self0) d0 s0.
Proof.
  intros self l xs ys (Ha & Hc & Ho & Hk) He.
  split; [apply same_attributes_put; exact Ha|]. split; [|split].
  - intros d s l' k. rewrite <- Hc. unfold corr_at. rewrite entry_at_put.
    destruct (same_path d s l' d0 s0 l) eqn:Pth; [|reflexivity].
    apply same_path_eq in Pth. destruct Pth as (-> & -> & ->). rewrite He. reflexivity.
  - intros d s l' Hne. rewrite <- (Ho d s l' Hne). rewrite entry_at_put.
    destruct (same_path d s l' d0 s0 l) eqn:Pth; [|reflexivity].
    apply same_path_eq in Pth. destruct Pth as (-> & -> & ->). destruct Hne; congruence.
  - intros d s l'. specialize (Hk d s l'). rewrite entry_at_put.
    destruct (same_path d s l' d0 s0 l) eqn:Pth.
    + apply same_path_eq in Pth. destruct Pth as (-> & -> & ->). rewrite He.
      destruct (entry_at self0 d0 s0 l) as [[xs0|m0]|]; simpl.
      * eauto.
      * rewrite He in Hk. discriminate.
      * rewrite He in Hk. discriminate.
    + exact Hk.
Qed.

(** X7. Whatever a call of [send_data] returns or raises, it leaves the attributes
    of the object (axes, sensors, bounds, counts) and the number of dancers alone,
    adds and removes no key, changes no correlation series and no series of
    another sensor: all it can change is the content of series of the sensor the
    id is located at.  For an id that is not located it changes nothing. *)
Theorem send_data_touches_one_sensor
    (sensor_id data_type : string) (value : list float) (self : Sensors) :
  match dict_get sensor_id locations with
  | Some loc =>
      only_series_of (loc_dancer loc - 1) (snsr (loc_sensor loc)) self
                     (snd (send_data sensor_id data_type value self))
  | None => snd (send_data sensor_id data_type value self) = self
  end.
Proof.
  destruct (dict_get sensor_id locations) as [loc|] eqn:E.
  - apply send_data_keeps; [|apply only_series_of_refl].
    intros loc' E'. rewrite E in E'. injection E' as <-. apply only_series_of_kept.
  - unfold send_data, bind, lift_opt. rewrite E. reflexivity.
Qed.

Lemma series_at_entry self d s l xs :
  series_at self d s l = Some xs <-> entry_at self d s l = Some (Series xs).
Proof.
  unfold series_at. destruct (entry_at self d s l) as [[ys|m]|]; split; intros H;
    try discriminate; congruence.
Qed.

Lemma list_append_run self d s l xs v :
  series_at self d s l = Some xs ->
  list_append d s l (Some v) self
  = (Ok tt, snd (put_entry d s l (Series (xs ++ [v])) self)).
Proof.
  intros H. apply series_at_entry in H. unfold list_append, bind.
  rewrite (get_entry_some _ _ _ _ _ H). reflexivity.
Qed.

Lemma series_at_put_series self d0 s0 l0 xs ys d s l :
  series_at self d0 s0 l0 = Some xs ->
  series_at (snd (put_entry d0 s0 l0 (Series ys) self)) d s l
  = if same_path d s l d0 s0 l0 then Some ys else series_at self d s l.
Proof.
  intros H. apply series_at_entry in H. unfold series_at. rewrite entry_at_put.
  destruct (same_path d s l d0 s0 l0) eqn:Pth; [|reflexivity].
  apply same_path_eq in Pth. destruct Pth as (-> & -> & ->). rewrite H. reflexivity.
Qed.

Lemma same_path_label d s l l0 :
  same_path d s l d s l0 = (l =? l0)%string.
Proof. unfold same_path. rewrite Nat.eqb_refl, String.eqb_refl. reflexivity. Qed.

(** X8. The 500-sample bound holds between calls that return, not after one that
    raises.  Called with two orientation values instead of three, [send_data]
    appends the first to [ori_p] and the second to [ori_r], raises [IndexError] at
    [value[2]] and never reaches the cutoff: both series are left one element
    longer, 501 elements when they held 500. *)
Theorem send_data_short_orientation_overfills
    (sensor_id : string) (loc : string * nat * nat) (a b : float)
    (xs ys zs : list float) (self : Sensors) :
  dict_get sensor_id locations = Some loc ->
  series_at self (loc_dancer loc - 1) (snsr (loc_sensor loc)) "ori_p" = Some xs ->
  series_at self (loc_dancer loc - 1) (snsr (loc_sensor loc)) "ori_r" = Some ys ->
  series_at self (loc_dancer loc - 1) (snsr (loc_sensor loc)) "ori_y" = Some zs ->
  let out := send_data sensor_id "ori" [a; b] self in
  fst out = Raise IndexError /\
  series_at (snd out) (loc_dancer loc - 1) (snsr (loc_sensor loc)) "ori_p" = Some (xs ++ [a]) /\
  series_at (snd out) (loc_dancer loc - 1) (snsr (loc_sensor loc)) "ori_r" = Some (ys ++ [b]) /\
  series_at (snd out) (loc_dancer loc - 1) (snsr (loc_sensor loc)) "ori_y" = Some zs /\
  (List.length xs = 500 ->
   option_map (@List.length float)
     (series_at (snd out) (loc_dancer loc - 1) (snsr (loc_sensor loc)) "ori_p") = Some 501).
Proof.
  intros Hloc Hp Hr Hy out.
  set (d := loc_dancer loc - 1) in *. set (s := snsr (loc_sensor loc)) in *.
  assert (E : exists s2,
             out = (Raise IndexError, s2) /\
             series_at s2 d s "ori_p" = Some (xs ++ [a]) /\
             series_at s2 d s "ori_r" = Some (ys ++ [b]) /\
             series_at s2 d s "ori_y" = Some zs);
    [|destruct E as (s2 & -> & Hp2 & Hr2 & Hy2); cbn [fst snd];
      split; [reflexivity|]; split; [exact Hp2|]; split; [exact Hr2|];
      split; [exact Hy2|];
      intros L; rewrite Hp2; simpl; rewrite length_app, L; reflexivity].
  subst out. unfold send_data. unfold bind at 1.
  rewrite Hloc. unfold lift_opt at 1. unfold ret at 1. cbv zeta.
  fold d. fold s.
  change (existsb (String.eqb "ori") ["acc"; "gyr"; "mag"]) with false.
  change ("ori" =? "ori")%string with true. cbv iota.
  change ("ori" ++ "_p")%string with "ori_p".
  change ("ori" ++ "_r")%string with "ori_r".
  change ("ori" ++ "_y")%string with "ori_y".
  change (nth_error [a; b] 0) with (Some a).
  change (nth_error [a; b] 1) with (Some b).
  change (nth_error [a; b] 2) with (@None float).
  unfold bind at 1. rewrite (list_append_run _ _ _ _ _ _ Hp).
  set (s1 := snd (put_entry d s "ori_p" (Series (xs ++ [a])) self)).
  assert (Hr1 : series_at s1 d s "ori_r" = Some ys).
  { unfold s1. rewrite (series_at_put_series _ _ _ _ _ _ _ _ _ Hp), same_path_label.
    exact Hr. }
  assert (Hy1 : series_at s1 d s "ori_y" = Some zs).
  { unfold s1. rewrite (series_at_put_series _ _ _ _ _ _ _ _ _ Hp), same_path_label.
    exact Hy. }
  assert (Hp1 : series_at s1 d s "ori_p" = Some (xs ++ [a])).
  { unfold s1. rewrite (series_at_put_series _ _ _ _ _ _ _ _ _ Hp), same_path_label.
    reflexivity. }
  unfold bind at 1. rewrite (list_append_run _ _ _ _ _ _ Hr1).
  set (s2 := snd (put_entry d s "ori_r" (Series (ys ++ [b])) s1)).
  assert (Hy2 : series_at s2 d s "ori_y" = Some zs).
  { unfold s2. rewrite (series_at_put_series _ _ _ _ _ _ _ _ _ Hr1), same_path_label.
    exact Hy1. }
  assert (Hp2 : series_at s2 d s "ori_p" = Some (xs ++ [a])).
  { unfold s2. rewrite (series_at_put_series _ _ _ _ _ _ _ _ _ Hr1), same_path_label.
    exact Hp1. }
  assert (Hr2 : series_at s2 d s "ori_r" = Some (ys ++ [b])).
  { unfold s2. rewrite (series_at_put_series _ _ _ _ _ _ _ _ _ Hr1), same_path_label.
    reflexivity. }
  unfold bind at 1. unfold list_append. unfold bind at 1.
  pose proof Hy2 as Hy2'. apply series_at_entry in Hy2'.
  rewrite (get_entry_some _ _ _ _ _ Hy2'). unfold bind at 1. unfold lift_opt, raise.
  exists s2. auto.
Qed.

Lemma send_data_short_orientation_overfills_witness :
  (dict_get "00B4F119" locations = Some ("torso", 2, 3) /\
   series_at Sensors_ready 1 "snsr_3" "ori_p" = Some zeros500 /\
   series_at Sensors_ready 1 "snsr_3" "ori_r" = Some zeros500 /\
   series_at Sensors_ready 1 "snsr_3" "ori_y" = Some zeros500) /\
  let out := send_data "00B4F119" "ori" [1; 2]%float Sensors_ready in
  fst out = Raise IndexError /\
  series_at (snd out) 1 "snsr_3" "ori_p" = Some (zeros500 ++ [1]%float) /\
  series_at (snd out) 1 "snsr_3" "ori_r" = Some (zeros500 ++ [2]%float) /\
  series_at (snd out) 1 "snsr_3" "ori_y" = Some zeros500 /\
  (List.length zeros500 = 500 ->
   option_map (@List.length float) (series_at (snd out) 1 "snsr_3" "ori_p") = Some 501).
Proof.
  assert (H0 : dict_get "00B4F119" locations = Some ("torso", 2, 3)) by reflexivity.
  assert (H1 : series_at Sensors_ready 1 "snsr_3" "ori_p" = Some zeros500)
    by (vm_compute; reflexivity).
  assert (H2 : series_at Sensors_ready 1 "snsr_3" "ori_r" = Some zeros500)
    by (vm_compute; reflexivity).
  assert (H3 : series_at Sensors_ready 1 "snsr_3" "ori_y" = Some zeros500)
    by (vm_compute; reflexivity).
  split; [repeat split; assumption|].
  exact (send_data_short_orientation_overfills "00B4F119" ("torso", 2, 3) 1 2
           zeros500 zeros500 zeros500 Sensors_ready H0 H1 H2 H3).
Defined.

(** ** Replaying a log *)

Lemma bind_raises {S A B} (m : M S A) (k : A -> M S B) s :
  (forall a s', exists e, fst (k a s') = Raise e) -> exists e, fst (bind m k s) = Raise e.
Proof.
  intros Hk. unfold bind. destruct (m s) as [[a|e] s']; [apply Hk|].
  exists e. reflexivity.
Qed.

Lemma send_log_data_orientation_raises sensor_id value
    (locations : dict (string * nat * nat)) axes (dancers : store) :
  exists e, fst (send_log_data sensor_id "ori" value locations axes dancers) = Raise e.
Proof.
  unfold send_log_data. apply bind_raises. intros loc s0. cbv zeta.
  change (existsb (String.eqb "ori") ["acc"; "gyr"; "mag"]) with false.
  change ("ori" =? "ori")%string with true. cbv iota.
  apply bind_raises. intros _ s1. apply bind_raises. intros _ s2.
  apply bind_raises. intros _ s3.
  exists (UnboundLocalError "pry"). reflexivity.
Qed.

(** X9. [send_log_data] never returns for the data type ['ori']: whatever the
    sensor id, the values, the location table, the axes and the store, the call
    raises. *)
Theorem send_log_data_orientation_never_returns
    (sensor_id : string) (value : list float) (locations : dict (string * nat * nat))
    (axes : list string) (dancers : store) :
  exists e, fst (send_log_data sensor_id "ori" value locations axes dancers) = Raise e.
Proof. apply send_log_data_orientation_raises. Qed.

Lemma at_dancer_resolved {A} (d_idx : Z) (access : nat -> M Sensors A) dancers d :
  py_pos (List.length dancers) d_idx = Some d ->
  at_dancer d_idx access dancers = on_dancers (access d) dancers.
Proof. intros H. unfold at_dancer. munfold. rewrite H. reflexivity. Qed.

Lemma on_dancers_append dancers d s l xs v :
  series_in dancers d s l = Some xs ->
  on_dancers (list_append d s l (Some v)) dancers
  = (Ok tt, s_dancers (snd (put_entry d s l (Series (xs ++ [v]))
                              (with_dancers Sensors_init dancers)))).
Proof.
  intros H. unfold on_dancers. unfold series_in in H.
  rewrite (list_append_run _ _ _ _ _ _ H). reflexivity.
Qed.

Lemma series_in_put dancers d0 s0 l0 xs ys d s l :
  series_in dancers d0 s0 l0 = Some xs ->
  series_in (s_dancers (snd (put_entry d0 s0 l0 (Series ys)
                               (with_dancers Sensors_init dancers)))) d s l
  = if same_path d s l d0 s0 l0 then Some ys else series_in dancers d s l.
Proof.
  intros H. unfold series_in in *.
  rewrite <- (series_at_put_series _ _ _ _ _ ys d s l H). reflexivity.
Qed.

Lemma length_put dancers d s l e :
  List.length (s_dancers (snd (put_entry d s l e (with_dancers Sensors_init dancers))))
  = List.length dancers.
Proof. unfold put_entry. munfold. cbn [snd s_dancers with_dancers]. apply length_list_upd. Qed.

(** X10. Called for ['ori'] with three values for a sensor whose three orientation
    series exist, [send_log_data] appends the values and then raises
    [UnboundLocalError] for [pry], the variable of the loop that would cut the
    series: they are left one element longer, uncut. *)
Theorem send_log_data_orientation_appends_then_raises
    (sensor_id : string) (locations : dict (string * nat * nat)) (axes : list string)
    (loc : string * nat * nat) (d : nat) (a b c : float) (rest xs ys zs : list float)
    (dancers : store) :
  dict_get sensor_id locations = Some loc ->
  py_pos (List.length dancers) (Z.of_nat (loc_dancer loc) - 1) = Some d ->
  series_in dancers d (snsr (loc_sensor loc)) "ori_p" = Some xs ->
  series_in dancers d (snsr (loc_sensor loc)) "ori_r" = Some ys ->
  series_in dancers d (snsr (loc_sensor loc)) "ori_y" = Some zs ->
  exists dancers',
    send_log_data sensor_id "ori" (a :: b :: c :: rest) locations axes dancers
    = (Raise (UnboundLocalError "pry"), dancers') /\
    series_in dancers' d (snsr (loc_sensor loc)) "ori_p" = Some (xs ++ [a]) /\
    series_in dancers' d (snsr (loc_sensor loc)) "ori_r" = Some (ys ++ [b]) /\
    series_in dancers' d (snsr (loc_sensor loc)) "ori_y" = Some (zs ++ [c]).
Proof.
  intros Hloc Hd Hp Hr Hy. unfold send_log_data. unfold bind at 1.
  rewrite Hloc. unfold lift_opt at 1. unfold ret at 1. cbv zeta.
  set (s := snsr (loc_sensor loc)) in *.
  change (existsb (String.eqb "ori") ["acc"; "gyr"; "mag"]) with false.
  change ("ori" =? "ori")%string with true. cbv iota.
  change ("ori" ++ "_p")%string with "ori_p".
  change ("ori" ++ "_r")%string with "ori_r".
  change ("ori" ++ "_y")%string with "ori_y".
  change (nth_error (a :: b :: c :: rest) 0) with (Some a).
  change (nth_error (a :: b :: c :: rest) 1) with (Some b).
  change (nth_error (a :: b :: c :: rest) 2) with (Some c).
  unfold bind at 1. rewrite (at_dancer_resolved _ _ _ _ Hd), (on_dancers_append _ _ _ _ _ _ Hp).
  set (s1 := s_dancers (snd (put_entry d s "ori_p" (Series (xs ++ [a]))
                               (with_dancers Sensors_init dancers)))).
  assert (Hd1 : py_pos (List.length s1) (Z.of_nat (loc_dancer loc) - 1) = Some d)
    by (unfold s1; rewrite length_put; exact Hd).
  assert (Hp1 : series_in s1 d s "ori_p" = Some (xs ++ [a]))
    by (unfold s1; rewrite (series_in_put _ _ _ _ _ _ _ _ _ Hp), same_path_label; reflexivity).
  assert (Hr1 : series_in s1 d s "ori_r" = Some ys)
    by (unfold s1; rewrite (series_in_put _ _ _ _ _ _ _ _ _ Hp), same_path_label; exact Hr).
  assert (Hy1 : series_in s1 d s "ori_y" = Some zs)
    by (unfold s1; rewrite (series_in_put _ _ _ _ _ _ _ _ _ Hp), same_path_label; exact Hy).
  unfold bind at 1.
  rewrite (at_dancer_resolved _ _ _ _ Hd1), (on_dancers_append _ _ _ _ _ _ Hr1).
  set (s2 := s_dancers (snd (put_entry d s "ori_r" (Series (ys ++ [b]))
                               (with_dancers Sensors_init s1)))).
  assert (Hd2 : py_pos (List.length s2) (Z.of_nat (loc_dancer loc) - 1) = Some d)
    by (unfold s2; rewrite length_put; exact Hd1).
  assert (Hp2 : series_in s2 d s "ori_p" = Some (xs ++ [a]))
    by (unfold s2; rewrite (series_in_put _ _ _ _ _ _ _ _ _ Hr1), same_path_label; exact Hp1).
  assert (Hr2 : series_in s2 d s "ori_r" = Some (ys ++ [b]))
    by (unfold s2; rewrite (series_in_put _ _ _ _ _ _ _ _ _ Hr1), same_path_label; reflexivity).
  assert (Hy2 : series_in s2 d s "ori_y" = Some zs)
    by (unfold s2; rewrite (series_in_put _ _ _ _ _ _ _ _ _ Hr1), same_path_label; exact Hy1).
  unfold bind at 1.
  rewrite (at_dancer_resolved _ _ _ _ Hd2), (on_dancers_append _ _ _ _ _ _ Hy2).
  set (s3 := s_dancers (snd (put_entry d s "ori_y" (Series (zs ++ [c]))
                               (with_dancers Sensors_init s2)))).
  exists s3. split; [reflexivity|].
  unfold s3. rewrite !(series_in_put _ _ _ _ _ _ _ _ _ Hy2), !same_path_label.
  auto.
Qed.

Lemma send_log_data_orientation_appends_then_raises_witness :
  let dancers := dancers 3 3 in
  (dict_get "00B4F107" locations = Some ("right", 3, 2) /\
   py_pos (List.length dancers) (Z.of_nat 3 - 1) = Some 2 /\
   series_in dancers 2 "snsr_2" "ori_p" = Some zeros500 /\
   series_in dancers 2 "snsr_2" "ori_r" = Some zeros500 /\
   series_in dancers 2 "snsr_2" "ori_y" = Some zeros500) /\
  exists dancers',
    send_log_data "00B4F107" "ori" [1; 2; 3]%float locations ["x"; "y"; "z"] dancers
    = (Raise (UnboundLocalError "pry"), dancers') /\
    series_in dancers' 2 "snsr_2" "ori_p" = Some (zeros500 ++ [1]%float) /\
    series_in dancers' 2 "snsr_2" "ori_r" = Some (zeros500 ++ [2]%float) /\
    series_in dancers' 2 "snsr_2" "ori_y" = Some (zeros500 ++ [3]%float).
Proof.
  intros dancers.
  assert (H0 : dict_get "00B4F107" locations = Some ("right", 3, 2)) by reflexivity.
  assert (H1 : py_pos (List.length dancers) (Z.of_nat 3 - 1) = Some 2)
    by (vm_compute; reflexivity).
  assert (H2 : series_in dancers 2 "snsr_2" "ori_p" = Some zeros500)
    by (vm_compute; reflexivity).
  assert (H3 : series_in dancers 2 "snsr_2" "ori_r" = Some zeros500)
    by (vm_compute; reflexivity).
  assert (H4 : series_in dancers 2 "snsr_2" "ori_y" = Some zeros500)
    by (vm_compute; reflexivity).
  split; [repeat split; assumption|].
  exact (send_log_data_orientation_appends_then_raises "00B4F107" locations ["x"; "y"; "z"]
           ("right", 3, 2) 2 1 2 3 [] zeros500 zeros500 zeros500 dancers H0 H1 H2 H3 H4).
Defined.

(** *** [send_log_data] against [send_data] *)

Lemma replays_bind {A B} axes (f : M store A) (m : M Sensors A)
    (kf : A -> M store B) (km : A -> M Sensors B) :
  replays axes f m -> (forall a, replays axes (kf a) (km a)) ->
  replays axes (bind f kf) (bind m km).
Proof.
  intros Hm Hk self Ha. destruct (Hm self Ha) as [E Ha']. unfold bind. rewrite E.
  destruct (m self) as [[a|e] s1]; cbn [fst snd] in *.
  - exact (Hk a s1 Ha').
  - split; [reflexivity|exact Ha'].
Qed.

Lemma replays_ret {A} axes (a : A) : replays axes (ret a) (ret a).
Proof. intros self Ha. split; [reflexivity|exact Ha]. Qed.

Lemma replays_bind_ret {A B} axes (a : A) (kf : A -> M store B) (km : A -> M Sensors B) :
  replays axes (kf a) (km a) -> replays axes (bind (ret a) kf) (bind (ret a) km).
Proof. intros H self Ha. exact (H self Ha). Qed.

Lemma replays_for_each {A} axes (items : list A) (bf : A -> M store unit)
    (bm : A -> M Sensors unit) :
  (forall x, replays axes (bf x) (bm x)) ->
  replays axes (for_each items bf) (for_each items bm).
Proof.
  intros Hb. induction items as [|x items IH]; simpl.
  - apply replays_ret.
  - apply replays_bind; [apply Hb|]. intros _. exact IH.
Qed.

Lemma py_pos_pred len n :
  1 <= n ->
  py_pos len (Z.of_nat n - 1) = if (n - 1 <? len)%nat then Some (n - 1) else None.
Proof.
  intros H. unfold py_pos.
  destruct (Z.ltb_spec (Z.of_nat n - 1) 0) as [L|L]; [lia|].
  destruct (Z.ltb_spec (Z.of_nat n - 1) (Z.of_nat len)) as [L'|L'];
    destruct (Nat.ltb_spec (n - 1) len) as [L''|L'']; try lia; [|reflexivity].
  f_equal. lia.
Qed.

Lemma replays_list_append axes n s l arg :
  1 <= n ->
  replays axes (at_dancer (Z.of_nat n - 1) (fun d => list_append d s l arg))
          (list_append (n - 1) s l arg).
Proof.
  intros Hn self Ha. split.
  - unfold at_dancer. munfold. rewrite (py_pos_pred _ _ Hn).
    unfold on_dancers, list_append, get_entry, get_sensor, put_entry. munfold.
    cbn [s_dancers with_dancers].
    destruct (Nat.ltb_spec (n - 1) (List.length (s_dancers self))) as [L|L].
    + destruct (nth_error (s_dancers self) (n - 1)) as [dancer|]; [|reflexivity].
      destruct (dict_get s dancer) as [sd|]; [|reflexivity].
      destruct (dict_get l sd) as [[xs|m]|]; try reflexivity.
      destruct arg; reflexivity.
    + apply nth_error_None in L. rewrite L. reflexivity.
  - unfold list_append, get_entry, get_sensor, put_entry. munfold.
    destruct (nth_error (s_dancers self) (n - 1)) as [dancer|]; [|exact Ha].
    destruct (dict_get s dancer) as [sd|]; [|exact Ha].
    destruct (dict_get l sd) as [[xs|m]|]; try exact Ha.
    destruct arg; exact Ha.
Qed.

Lemma replays_trim axes n s l :
  1 <= n ->
  replays axes (at_dancer (Z.of_nat n - 1) (fun d => trim d s l)) (trim (n - 1) s l).
Proof.
  intros Hn self Ha. split.
  - unfold at_dancer. munfold. rewrite (py_pos_pred _ _ Hn).
    unfold on_dancers, trim, get_entry, get_sensor, put_entry. munfold.
    cbn [s_dancers with_dancers].
    destruct (Nat.ltb_spec (n - 1) (List.length (s_dancers self))) as [L|L].
    + destruct (nth_error (s_dancers self) (n - 1)) as [dancer|] eqn:E1; cbv beta iota;
        [|reflexivity].
      destruct (dict_get s dancer) as [sd|] eqn:E2; cbv beta iota; [|reflexivity].
      destruct (dict_get l sd) as [e|] eqn:E3; cbv beta iota; [|reflexivity].
      destruct (0 <? Z.of_nat (entry_len e) - 500)%Z; cbv beta iota; [|reflexivity].
      cbn [s_dancers with_dancers]. rewrite !E1. cbv beta iota.
      rewrite !E2. cbv beta iota. rewrite !E3. cbv beta iota.
      destruct e as [[|x xs]|m]; reflexivity.
    + apply nth_error_None in L. rewrite L. reflexivity.
  - unfold trim, get_entry, get_sensor, put_entry. munfold.
    destruct (nth_error (s_dancers self) (n - 1)) as [dancer|] eqn:E1; cbv beta iota;
      [|exact Ha].
    destruct (dict_get s dancer) as [sd|] eqn:E2; cbv beta iota; [|exact Ha].
    destruct (dict_get l sd) as [e|] eqn:E3; cbv beta iota; [|exact Ha].
    destruct (0 <? Z.of_nat (entry_len e) - 500)%Z; cbv beta iota; [|exact Ha].
    rewrite !E1. cbv beta iota. rewrite !E2. cbv beta iota. rewrite !E3. cbv beta iota.
    destruct e as [[|x xs]|m]; exact Ha.
Qed.

(** Every dancer number of [Sensors.locations] is at least 1. *)
Lemma locations_dancer_positive sensor_id loc :
  dict_get sensor_id locations = Some loc -> 1 <= loc_dancer loc.
Proof.
  intros H. apply dict_get_In in H. simpl in H.
  repeat (destruct H as [H|H]; [injection H as _ H; subst loc; unfold loc_dancer; simpl; lia|]).
  destruct H.
Qed.

Lemma replays_axis axes i (kf : string -> M store unit) (km : string -> M Sensors unit) :
  (forall axis, replays axes (kf axis) (km axis)) ->
  replays axes (axis <- index axes i ;; kf axis)
          (self <- get ;; axis <- index (s_axes self) i ;; km axis).
Proof.
  intros Hk self Ha. munfold. rewrite Ha.
  destruct (nth_error axes i) as [axis|]; cbv beta iota.
  - exact (Hk axis self Ha).
  - split; [reflexivity|exact Ha].
Qed.

Lemma send_log_data_replays sensor_id data_type value axes :
  data_type <> "ori" ->
  replays axes (send_log_data sensor_id data_type value locations axes)
          (send_data sensor_id data_type value).
Proof.
  intros Hdt. unfold send_log_data, send_data.
  destruct (dict_get sensor_id locations) as [loc|] eqn:Hloc.
  - pose proof (locations_dancer_positive _ _ Hloc) as Hp.
    unfold lift_opt at 1 3. apply replays_bind_ret. cbv beta zeta.
    destruct (existsb (String.eqb data_type) ["acc"; "gyr"; "mag"]).
    { apply replays_for_each. intros [i val]. apply replays_axis. intros axis.
      apply replays_bind; [apply replays_list_append; exact Hp|].
      intros _. apply replays_trim; exact Hp. }
    destruct (String.eqb_spec data_type "ori") as [E|_]; [contradiction|].
    destruct (data_type =? "rot")%string.
    { apply replays_bind; [apply replays_list_append; exact Hp|].
      intros _. apply replays_trim; exact Hp. }
    destruct (data_type =? "tot_a")%string.
    { apply replays_bind; [apply replays_list_append; exact Hp|]. intros _.
      apply replays_bind; [apply replays_list_append; exact Hp|]. intros _.
      apply replays_bind; [apply replays_trim; exact Hp|]. intros _.
      apply replays_trim; exact Hp. }
    apply replays_ret.
  - intros self Ha. unfold bind, lift_opt, raise. split; [reflexivity|exact Ha].
Qed.

(** X11. For every data type other than ['ori'], [send_log_data] called with the
    store, the location table and the axes of a [Sensors] object does to the store
    exactly what [send_data] does through the object: the same outcome (return or
    exception) and the same store afterwards. *)
Theorem send_log_data_does_what_send_data_does
    (sensor_id data_type : string) (value : list float) (self : Sensors) :
  data_type <> "ori" ->
  send_log_data sensor_id data_type value locations (s_axes self) (s_dancers self)
  = (fst (send_data sensor_id data_type value self),
     s_dancers (snd (send_data sensor_id data_type value self))).
Proof.
  intros Hdt.
  exact (proj1 (send_log_data_replays sensor_id data_type value (s_axes self) Hdt
                  self eq_refl)).
Qed.

Lemma send_log_data_does_what_send_data_does_witness :
  "tot_a" <> "ori" /\
  send_log_data "00B4F11C" "tot_a" [3; 1]%float locations
                (s_axes Sensors_ready) (s_dancers Sensors_ready)
  = (fst (send_data "00B4F11C" "tot_a" [3; 1]%float Sensors_ready),
     s_dancers (snd (send_data "00B4F11C" "tot_a" [3; 1]%float Sensors_ready))).
Proof.
  assert (H : "tot_a" <> "ori") by discriminate.
  split; [exact H|].
  exact (send_log_data_does_what_send_data_does "00B4F11C" "tot_a" [3; 1]%float
           Sensors_ready H).
Defined.

(** *** [plot_log] *)

Section LogReplayFacts.

Variable py_float : string -> result float.

Lemma plot_line_raises line sensor_id axes dancers :
  exists e, fst (plot_line py_float line sensor_id axes dancers) = Raise e.
Proof.
  unfold plot_line. cbv zeta.
  apply bind_raises. intros token s0.
  apply bind_raises. intros acc_value s1.
  apply bind_raises. intros field1 s2.
  apply bind_raises. intros tot_a s3.
  apply bind_raises. intros gyr_value s4.
  apply bind_raises. intros field2 s5.
  apply bind_raises. intros rot s6.
  apply bind_raises. intros mag_value s7.
  apply bind_raises. intros euler_value s8.
  apply bind_raises. intros _ s9.
  apply bind_raises. intros _ s10.
  apply bind_raises. intros _ s11.
  apply bind_raises. intros _ s12.
  apply bind_raises. intros _ s13.
  destruct (log_sensor_id token sensor_id) as [sid|].
  - unfold bind at 1.
    destruct (send_log_data_orientation_raises sid euler_value locations axes s13) as [e He].
    destruct (send_log_data sid "ori" euler_value locations axes s13) as [[[]|e'] s14];
      simpl in He; [discriminate|]. exists e'. reflexivity.
  - exists (KeyError "None"). reflexivity.
Qed.

(** X12. [plot_log] never completes on a log that has a line: whatever the lines
    hold, handling the first one raises, at the latest in its call of
    [send_log_data] for ['ori'], and the lines after it are not read. *)
Theorem plot_log_never_completes
    (line : string) (rest : list string) (axes : list string) (dancers : store) :
  exists e,
    fst (plot_log py_float (line :: rest) axes dancers) = Raise e /\
    plot_log py_float (line :: rest) axes dancers
    = (Raise e, snd (plot_line py_float line None axes dancers)).
Proof.
  unfold plot_log. simpl plot_lines. unfold bind.
  destruct (plot_line_raises line None axes dancers) as [e He].
  destruct (plot_line py_float line None axes dancers) as [[sid|e'] s1];
    simpl in He; [discriminate|].
  exists e'. split; reflexivity.
Qed.

End LogReplayFacts.

(** X13. No line of a log is replayed to the sensor that wrote it.  For every
    sensor of [Sensors.locations], the first token of the lines [recording_loop]
    writes for it (its composite id followed by a colon) makes [plot_log] select a
    different sensor id; for the sensors of dancers 2 and 3 the selected id is not
    a key of [Sensors.locations]. *)
Theorem log_token_selects_another_sensor (sensor_id : string) (loc : string * nat * nat) :
  dict_get sensor_id locations = Some loc ->
  exists replayed,
    log_sensor_id (log_token loc) None = Some replayed /\
    (replayed =? sensor_id)%string = false /\
    (loc_dancer loc = 1 \/ dict_get replayed locations = None).
Proof.
  intros H. apply dict_get_In in H. simpl in H.
  repeat (destruct H as [H|H];
          [injection H as H1 H2; subst sensor_id loc; eexists;
           split; [vm_compute; reflexivity|];
           split; [vm_compute; reflexivity|];
           first [left; reflexivity|right; reflexivity]|]).
  destruct H.
Qed.

Lemma log_token_selects_another_sensor_witness :
  dict_get "00B4F116" locations = Some ("right", 2, 2) /\
  exists replayed,
    log_sensor_id (log_token ("right", 2, 2)) None = Some replayed /\
    (replayed =? "00B4F116")%string = false /\
    (loc_dancer ("right", 2, 2) = 1 \/ dict_get replayed locations = None).
Proof.
  assert (H : dict_get "00B4F116" locations = Some ("right", 2, 2)) by reflexivity.
  split; [exact H|].
  exact (log_token_selects_another_sensor "00B4F116" ("right", 2, 2) H).
Defined.

(** ** The recording loop: messages and loop variables *)

Lemma same_locals_refl r : same_locals r r.
Proof. unfold same_locals. tauto. Qed.

Lemma same_locals_trans r1 r2 r3 : same_locals r1 r2 -> same_locals r2 r3 -> same_locals r1 r3.
Proof. unfold same_locals. intuition congruence. Qed.

Lemma on_sensors_locals {A} (m : M Sensors A) r : same_locals r (snd (on_sensors m r)).
Proof.
  unfold on_sensors. destruct (m (r_sensors r)) as [res s]. unfold same_locals. simpl. tauto.
Qed.

Lemma on_sensors_ok {A} (m : M Sensors A) r a r' :
  on_sensors m r = (Ok a, r') -> same_locals r r' /\ fst (m (r_sensors r)) = Ok a.
Proof.
  intros H. pose proof (on_sensors_locals m r) as L. rewrite H in L. split; [exact L|].
  unfold on_sensors in H. destruct (m (r_sensors r)) as [res s]. inversion H. reflexivity.
Qed.

Lemma local_ok {A} name (f : Recorder -> option A) r a r' :
  local name f r = (Ok a, r') -> r' = r /\ f r = Some a.
Proof.
  unfold local. munfold. destruct (f r); intros H; inversion H. auto.
Qed.

Section LoopFacts.

Variable np_corrcoef : list float -> list float -> float.
Variable np_round5 : float -> float.
Variable py_round5 : float -> float.

Lemma calibrated_block_returns packet r payload r' :
  calibrated_block np_round5 py_round5 packet r = (Ok payload, r') ->
  List.length payload = 12 /\ same_locals r r'.
Proof.
  unfold calibrated_block.
  destruct (freeAcceleration packet) as [[a0 a1] a2].
  destruct (calibratedGyroscopeData packet) as [[g0 g1] g2].
  destruct (calibratedMagneticField packet) as [[m0 m1] m2].
  cbv zeta. intros H.
  apply bind_ok in H. destruct H as (r0 & s0 & H0 & H). inversion H0; subst r0 s0. clear H0.
  apply bind_ok in H. destruct H as ([] & s1 & H1 & H).
  assert (L1 : same_locals r s1).
  { destruct (_ && _)%bool in H1; inversion H1; unfold same_locals; simpl; tauto. }
  clear H1.
  apply bind_ok in H. destruct H as (sensor_id & s2 & H2 & H).
  apply local_ok in H2. destruct H2 as [-> _].
  apply bind_ok in H. destruct H as ([] & s3 & H3 & H).
  apply on_sensors_ok in H3. destruct H3 as [L3 _].
  apply bind_ok in H. destruct H as ([] & s4 & H4 & H).
  apply on_sensors_ok in H4. destruct H4 as [L4 _].
  apply bind_ok in H. destruct H as (rot_value & s5 & H5 & H).
  apply on_sensors_ok in H5. destruct H5 as [L5 _].
  apply bind_ok in H. destruct H as (rot0 & s6 & H6 & H).
  assert (s6 = s5) by (unfold index, lift_opt in H6; destruct (nth_error rot_value 0);
                       inversion H6; reflexivity).
  subst s6. clear H6.
  apply bind_ok in H. destruct H as ([] & s7 & H7 & H).
  apply on_sensors_ok in H7. destruct H7 as [L7 _].
  apply bind_ok in H. destruct H as ([] & s8 & H8 & H).
  apply on_sensors_ok in H8. destruct H8 as [L8 _].
  apply bind_ok in H. destruct H as ([] & s9 & H9 & H).
  apply on_sensors_ok in H9. destruct H9 as [L9 _].
  inversion H; subst payload r'. split; [reflexivity|].
  repeat (eapply same_locals_trans; [eassumption|]). apply same_locals_refl.
Qed.

Lemma orientation_block_returns packet r payload r' :
  orientation_block packet r = (Ok payload, r') ->
  List.length payload = 7 /\ same_locals r r'.
Proof.
  unfold orientation_block.
  destruct (orientationEuler packet) as [[x y] z].
  destruct (orientationQuaternion packet) as [[[q0 q1] q2] q3].
  intros H.
  apply bind_ok in H. destruct H as (sensor_id & s1 & H1 & H).
  apply local_ok in H1. destruct H1 as [-> _].
  apply bind_ok in H. destruct H as ([] & s2 & H2 & H).
  apply on_sensors_ok in H2. destruct H2 as [L2 _].
  inversion H; subst payload r'. split; [reflexivity|exact L2].
Qed.

Lemma calibrated_block_unbound packet r :
  r_sensor_id r = None ->
  exists r1,
    calibrated_block np_round5 py_round5 packet r
    = (Raise (UnboundLocalError "sensor_id"), r1) /\
    r_sent r1 = r_sent r /\ r_sensors r1 = r_sensors r.
Proof.
  intros Hs. unfold calibrated_block.
  destruct (freeAcceleration packet) as [[a0 a1] a2].
  destruct (calibratedGyroscopeData packet) as [[g0 g1] g2].
  destruct (calibratedMagneticField packet) as [[m0 m1] m2].
  cbv zeta. unfold bind at 1. unfold get at 1. unfold bind at 1.
  destruct (_ && _)%bool.
  - unfold assign_timer at 1. unfold bind at 1. unfold local. munfold.
    cbn [r_sensor_id]. rewrite Hs. eexists. split; [reflexivity|]. simpl. auto.
  - unfold ret at 1. unfold bind at 1. unfold local. munfold.
    rewrite Hs. eexists. split; [reflexivity|]. auto.
Qed.

Lemma orientation_block_unbound packet r :
  r_sensor_id r = None ->
  orientation_block packet r = (Raise (UnboundLocalError "sensor_id"), r).
Proof.
  intros Hs. unfold orientation_block.
  destruct (orientationEuler packet) as [[x y] z].
  destruct (orientationQuaternion packet) as [[[q0 q1] q2] q3].
  unfold bind at 1. unfold local. munfold. rewrite Hs. reflexivity.
Qed.

(** X14. A packet that carries no device id, handled before any packet that
    carried one, makes the loop raise [UnboundLocalError]: for [sensor_id] when the
    packet holds calibrated data or an orientation, for [dancer] otherwise.  No
    message is sent and the [Sensors] object is not touched. *)
Theorem packet_without_id_before_any_id (packet : Packet) (r : Recorder) :
  containsStoredDeviceId packet = false ->
  r_sensor_id r = None ->
  r_dancer r = None ->
  let out := handle_packet np_corrcoef np_round5 py_round5 packet r in
  fst out
  = Raise (UnboundLocalError
             (if containsCalibratedData packet || containsOrientation packet
              then "sensor_id" else "dancer")) /\
  r_sent (snd out) = r_sent r /\
  r_sensors (snd out) = r_sensors r.
Proof.
  intros Hid Hs Hd out.
  assert (E : exists r1,
             out = (Raise (UnboundLocalError
                             (if containsCalibratedData packet || containsOrientation packet
                              then "sensor_id" else "dancer")), r1) /\
             r_sent r1 = r_sent r /\ r_sensors r1 = r_sensors r);
    [|destruct E as (r1 & -> & H1 & H2); cbn [fst snd]; auto].
  subst out. unfold handle_packet. rewrite Hid.
  unfold bind at 1. unfold ret at 1.
  destruct (containsCalibratedData packet).
  - unfold bind at 1.
    destruct (calibrated_block_unbound packet r Hs) as (r1 & -> & H1 & H2).
    exists r1. auto.
  - unfold bind at 1. unfold ret at 1.
    destruct (containsOrientation packet).
    + unfold bind at 1. rewrite (orientation_block_unbound packet r Hs).
      exists r. auto.
    + unfold bind at 1. unfold ret at 1. unfold bind at 1. unfold local. munfold.
      rewrite Hd. exists r. auto.
Qed.

End LoopFacts.

Lemma packet_without_id_before_any_id_witness :
  (containsStoredDeviceId anonymous_packet = false /\
   r_sensor_id recorder_ready = None /\
   r_dancer recorder_ready = None) /\
  let out := handle_packet ref_corrcoef ref_round5 ref_round5 anonymous_packet
                           recorder_ready in
  fst out
  = Raise (UnboundLocalError
             (if containsCalibratedData anonymous_packet
                 || containsOrientation anonymous_packet
              then "sensor_id" else "dancer")) /\
  r_sent (snd out) = r_sent recorder_ready /\
  r_sensors (snd out) = r_sensors recorder_ready.
Proof.
  split; [repeat split|].
  exact (packet_without_id_before_any_id ref_corrcoef ref_round5 ref_round5
           anonymous_packet recorder_ready eq_refl eq_refl eq_refl).
Defined.

Section MessageFacts.

Variable np_corrcoef : list float -> list float -> float.
Variable np_round5 : float -> float.
Variable py_round5 : float -> float.

(** The first part of an iteration: the loop variables a packet with a device id
    sets, and the entry it puts first in the message. *)
Lemma packet_id_part packet r (osc_id : list osc_arg) r1 :
  (if containsStoredDeviceId packet then
     let sensor_id := deviceId packet in
     assign_sensor_id sensor_id ;;
     loc <- lift_opt (KeyError sensor_id) (dict_get sensor_id locations) ;;
     assign_dancer (loc_dancer loc) ;;
     assign_sensor (loc_sensor loc) ;;
     ret [OscInt (loc_dancer loc * 10 + loc_sensor loc)]
   else ret []) r = (Ok osc_id, r1) ->
  r_sent r1 = r_sent r /\
  List.length osc_id = (if containsStoredDeviceId packet then 1 else 0) /\
  (if containsStoredDeviceId packet
   then exists loc, dict_get (deviceId packet) locations = Some loc /\
                    r_dancer r1 = Some (loc_dancer loc) /\
                    r_sensor r1 = Some (loc_sensor loc) /\
                    osc_id = [OscInt (loc_dancer loc * 10 + loc_sensor loc)]
   else r_dancer r1 = r_dancer r /\ r_sensor r1 = r_sensor r).
Proof.
  destruct (containsStoredDeviceId packet).
  - cbv zeta. intros H.
    apply bind_ok in H. destruct H as ([] & s1 & H1 & H).
    inversion H1; subst s1. clear H1.
    apply bind_ok in H. destruct H as (loc & s2 & H2 & H).
    unfold lift_opt in H2. destruct (dict_get (deviceId packet) locations) as [loc'|] eqn:E;
      [|discriminate].
    inversion H2; subst loc' s2. clear H2.
    apply bind_ok in H. destruct H as ([] & s3 & H3 & H).
    inversion H3; subst s3. clear H3.
    apply bind_ok in H. destruct H as ([] & s4 & H4 & H).
    inversion H4; subst s4. clear H4.
    inversion H; subst osc_id r1. simpl.
    split; [reflexivity|]. split; [reflexivity|]. exists loc. auto.
  - intros H. inversion H; subst. auto.
Qed.

(** X15. An iteration of the loop that completes sends one message, to the address
    [/xsens<dancer><sensor>] of the sensor last identified, with 1 entry for a
    device id (the composite id [dancer * 10 + sensor], first), 12 for calibrated
    data and 7 for an orientation; a packet without a device id is reported under
    the dancer and sensor of the packet before it.  For dancer 1, sensor 1 and for
    no other sensor a second message follows, to the same address with
    [-correlation-others] appended. *)
Theorem handle_packet_sends_one_message (packet : Packet) (r r' : Recorder) :
  handle_packet np_corrcoef np_round5 py_round5 packet r = (Ok tt, r') ->
  exists dancer sensor osc_msg others,
    r_dancer r' = Some dancer /\ r_sensor r' = Some sensor /\
    r_sent r'
    = r_sent r ++ (("/xsens" ++ str dancer ++ str sensor)%string, osc_msg) :: others /\
    List.length osc_msg
    = (if containsStoredDeviceId packet then 1 else 0)
      + (if containsCalibratedData packet then 12 else 0)
      + (if containsOrientation packet then 7 else 0) /\
    (if containsStoredDeviceId packet
     then exists loc, dict_get (deviceId packet) locations = Some loc /\
                      dancer = loc_dancer loc /\ sensor = loc_sensor loc /\
                      nth_error osc_msg 0 = Some (OscInt (dancer * 10 + sensor))
     else r_dancer r = Some dancer /\ r_sensor r = Some sensor) /\
    (if ((sensor =? 1) && (dancer =? 1))%nat
     then exists payload,
            others = [(("/xsens" ++ str dancer ++ str sensor
                        ++ "-correlation-others")%string, payload)]
     else others = []).
Proof.
  unfold handle_packet. intros H.
  apply bind_ok in H. destruct H as (osc_id & r1 & Hid & H).
  apply packet_id_part in Hid. destruct Hid as (Hsent1 & Hlen1 & Hid).
  apply bind_ok in H. destruct H as (calibrated & r2 & Hcal & H).
  assert (Hc : List.length calibrated = (if containsCalibratedData packet then 12 else 0)
               /\ same_locals r1 r2).
  { destruct (containsCalibratedData packet).
    - exact (calibrated_block_returns _ _ _ _ _ _ Hcal).
    - inversion Hcal; subst. split; [reflexivity|apply same_locals_refl]. }
  clear Hcal. destruct Hc as [Hlen2 L2].
  apply bind_ok in H. destruct H as (orientation & r3 & Hori & H).
  assert (Ho : List.length orientation = (if containsOrientation packet then 7 else 0)
               /\ same_locals r2 r3).
  { destruct (containsOrientation packet).
    - exact (orientation_block_returns _ _ _ _ Hori).
    - inversion Hori; subst. split; [reflexivity|apply same_locals_refl]. }
  clear Hori. destruct Ho as [Hlen3 L3].
  pose proof (same_locals_trans _ _ _ L2 L3) as L13.
  destruct L13 as (Ls & Ld & Lse & _ & _).
  apply bind_ok in H. destruct H as (dancer & r4 & Hd & H).
  apply local_ok in Hd. destruct Hd as [-> Hd].
  apply bind_ok in H. destruct H as (sensor & r5 & Hs & H).
  apply local_ok in Hs. destruct Hs as [-> Hs].
  apply bind_ok in H. destruct H as ([] & r6 & Hsend & H).
  inversion Hsend; subst r6. clear Hsend.
  exists dancer, sensor, (osc_id ++ calibrated ++ orientation).
  assert (Hfirst :
    if containsStoredDeviceId packet
    then exists loc, dict_get (deviceId packet) locations = Some loc /\
                     dancer = loc_dancer loc /\ sensor = loc_sensor loc /\
                     nth_error (osc_id ++ calibrated ++ orientation) 0
                     = Some (OscInt (dancer * 10 + sensor))
    else r_dancer r = Some dancer /\ r_sensor r = Some sensor).
  { destruct (containsStoredDeviceId packet).
    - destruct Hid as (loc & E & Hd1 & Hs1 & ->). exists loc.
      rewrite Ld, Hd1 in Hd. rewrite Lse, Hs1 in Hs.
      injection Hd as <-. injection Hs as <-. auto.
    - destruct Hid as [Hd1 Hs1]. rewrite Ld, Hd1 in Hd. rewrite Lse, Hs1 in Hs. auto. }
  assert (Hlen : List.length (osc_id ++ calibrated ++ orientation)
                 = (if containsStoredDeviceId packet then 1 else 0)
                   + (if containsCalibratedData packet then 12 else 0)
                   + (if containsOrientation packet then 7 else 0))
    by (rewrite !length_app; lia).
  destruct ((sensor =? 1) && (dancer =? 1))%nat.
  - apply bind_ok in H. destruct H as (correlations & r7 & Hcorr & H).
    apply on_sensors_ok in Hcorr. destruct Hcorr as [(Ls7 & Ld7 & Lse7 & _ & _) _].
    inversion H; subst r'. clear H. cbn [r_dancer r_sensor r_sent] in *.
    eexists. rewrite Ld7, Lse7, Ls7. cbn [r_dancer r_sensor r_sent].
    split; [exact Hd|]. split; [exact Hs|]. split.
    { rewrite Ls, Hsent1, <- app_assoc. reflexivity. }
    split; [exact Hlen|]. split; [exact Hfirst|]. eexists. reflexivity.
  - inversion H; subst r'. clear H. exists []. cbn [r_dancer r_sensor r_sent].
    split; [exact Hd|]. split; [exact Hs|]. split.
    { rewrite Ls, Hsent1. reflexivity. }
    split; [exact Hlen|]. split; [exact Hfirst|]. reflexivity.
Qed.

End MessageFacts.

Lemma handle_packet_sends_one_message_witness :
  let r' := snd (handle_packet ref_corrcoef ref_round5 ref_round5
                   (full_packet "00B4F11A") recorder_ready) in
  handle_packet ref_corrcoef ref_round5 ref_round5 (full_packet "00B4F11A") recorder_ready
  = (Ok tt, r') /\
  exists dancer sensor osc_msg others,
    r_dancer r' = Some dancer /\ r_sensor r' = Some sensor /\
    r_sent r'
    = r_sent recorder_ready
      ++ (("/xsens" ++ str dancer ++ str sensor)%string, osc_msg) :: others /\
    List.length osc_msg
    = (if containsStoredDeviceId (full_packet "00B4F11A") then 1 else 0)
      + (if containsCalibratedData (full_packet "00B4F11A") then 12 else 0)
      + (if containsOrientation (full_packet "00B4F11A") then 7 else 0) /\
    (if containsStoredDeviceId (full_packet "00B4F11A")
     then exists loc, dict_get (deviceId (full_packet "00B4F11A")) locations = Some loc /\
                      dancer = loc_dancer loc /\ sensor = loc_sensor loc /\
                      nth_error osc_msg 0 = Some (OscInt (dancer * 10 + sensor))
     else r_dancer recorder_ready = Some dancer /\ r_sensor recorder_ready = Some sensor) /\
    (if ((sensor =? 1) && (dancer =? 1))%nat
     then exists payload,
            others = [(("/xsens" ++ str dancer ++ str sensor
                        ++ "-correlation-others")%string, payload)]
     else others = []).
Proof.
  intros r'.
  assert (H : fst (handle_packet ref_corrcoef ref_round5 ref_round5
                     (full_packet "00B4F11A") recorder_ready) = Ok tt)
    by (vm_compute; reflexivity).
  apply run_ok in H. split; [exact H|].
  exact (handle_packet_sends_one_message ref_corrcoef ref_round5 ref_round5
           (full_packet "00B4F11A") recorder_ready r' H).
Defined.

(** ** What the correlation methods return *)

Lemma keys_at_put self d0 s0 l0 e d s :
  keys_at (snd (put_entry d0 s0 l0 e self)) d s = keys_at self d s.
Proof.
  unfold keys_at, put_entry. munfold. cbn [snd s_dancers with_dancers].
  rewrite nth_error_list_upd.
  destruct (d =? d0)%nat; [|reflexivity].
  destruct (nth_error (s_dancers self) d) as [dancer|]; simpl; [|reflexivity].
  rewrite dict_get_upd.
  destruct (s =? s0)%string; [|reflexivity].
  destruct (dict_get s dancer) as [sd|]; simpl; [|reflexivity].
  rewrite dict_keys_upd. reflexivity.
Qed.

Lemma store_kept_refl self : store_kept self self.
Proof.
  split; [apply same_attributes_refl|]. repeat split; auto.
Qed.

Lemma store_kept_updates self0 :
  corr_updates_keep (store_kept self0) (fun _ => True) (fun _ _ _ _ => True).
Proof.
  intros self d0 s0 l0 key m xs ys (Ha & Hser & Hkeys & Hcorr) He Ek _ _.
  split; [apply same_attributes_put; exact Ha|]. split; [|split].
  - intros d s l. rewrite (series_at_put_corr self d0 s0 l0 m _ d s l He). apply Hser.
  - intros d s. rewrite keys_at_put. apply Hkeys.
  - intros d s l k Hk. rewrite (corr_at_put self d0 s0 l0 key m ys d s l k He).
    specialize (Hcorr d s l k Hk).
    destruct (same_path d s l d0 s0 l0 && (k =? key)%string)%bool; [|exact Hcorr].
    destruct (corr_at self d s l k); [discriminate|congruence].
Qed.

Lemma for_yield_inv {S A B} (P : S -> Prop) (body : A -> M S (list B)) (f : A -> list B)
    (l : list A) :
  (forall x s, In x l -> P s -> exists s', body x s = (Ok (f x), s') /\ P s') ->
  forall s, P s -> exists s', for_yield l body s = (Ok (flat_map f l), s') /\ P s'.
Proof.
  induction l as [|x l IH]; intros Hbody s Hs; simpl.
  - exists s. split; [reflexivity|exact Hs].
  - destruct (Hbody x s (or_introl eq_refl) Hs) as (s1 & E1 & H1).
    destruct (IH (fun y s0 Hy => Hbody y s0 (or_intror Hy)) s1 H1) as (s2 & E2 & H2).
    exists s2. split; [|exact H2]. unfold bind. rewrite E1, E2. reflexivity.
Qed.

Lemma corr_at_entry self d s l k zs :
  corr_at self d s l k = Some zs ->
  exists m, entry_at self d s l = Some (Corr m) /\ dict_get k m = Some zs.
Proof.
  unfold corr_at. destruct (entry_at self d s l) as [[xs|m]|]; try discriminate.
  intros H. exists m. auto.
Qed.

Section CorrelationRuns.

Variable np_corrcoef : list float -> list float -> float.

Lemma corr_append_trim_run self d s l k zs val :
  corr_at self d s l k = Some zs ->
  exists self',
    (corr_append d s l k val ;; corr_trim d s l k) self = (Ok tt, self').
Proof.
  intros H. apply corr_at_entry in H. destruct H as (m & He & Hk).
  unfold bind at 1. unfold corr_append. unfold bind at 1.
  rewrite (get_entry_some _ _ _ _ _ He). unfold bind at 1, lift_opt. rewrite Hk.
  cbn [ret].
  set (m' := dict_upd k (fun _ => zs ++ [val]) m).
  assert (Hput : put_entry d s l (Corr m') self
                 = (Ok tt, snd (put_entry d s l (Corr m') self))) by reflexivity.
  rewrite Hput. set (s1 := snd (put_entry d s l (Corr m') self)).
  assert (He1 : entry_at s1 d s l = Some (Corr m')).
  { unfold s1. rewrite entry_at_put.
    unfold same_path. rewrite Nat.eqb_refl, !String.eqb_refl. simpl. rewrite He. reflexivity. }
  assert (Hk1 : dict_get k m' = Some (zs ++ [val])).
  { unfold m'. rewrite dict_get_upd, String.eqb_refl, Hk. reflexivity. }
  unfold corr_trim. unfold bind at 1.
  rewrite (get_entry_some _ _ _ _ _ He1). unfold bind at 1, lift_opt. rewrite Hk1.
  cbn [ret].
  destruct (0 <? Z.of_nat (List.length (zs ++ [val])) - 500)%Z.
  - destruct (zs ++ [val]) as [|x rest] eqn:E.
    + destruct zs; discriminate.
    + eexists. reflexivity.
  - eexists. reflexivity.
Qed.

Lemma correlate_run self0 self d1 s1 d2 s2 key label :
  store_kept self0 self ->
  (excluded label
   || match series_at self0 d1 s1 label, series_at self0 d2 s2 label with
      | Some xs, Some ys =>
          (List.length xs <? 32)%nat || (List.length ys <? 32)%nat
          || match corr_at self0 d1 s1 (correlation_key label) key with
             | Some _ => true
             | None => false
             end
      | _, _ => false
      end)%bool = true ->
  exists self',
    correlate np_corrcoef d1 s1 d2 s2 key label self
    = (Ok (label_coefficient np_corrcoef self0 d1 s1 d2 s2 label), self') /\
    store_kept self0 self'.
Proof.
  intros Hk Hr.
  assert (Hkeep : store_kept self0
                    (snd (correlate np_corrcoef d1 s1 d2 s2 key label self))).
  { apply (correlate_keeps np_corrcoef (store_kept self0) (fun _ => True)
             (fun _ _ _ _ => True) (store_kept_updates self0) (fun _ _ => I)); auto. }
  assert (E : exists self',
             correlate np_corrcoef d1 s1 d2 s2 key label self
             = (Ok (label_coefficient np_corrcoef self0 d1 s1 d2 s2 label), self'));
    [|destruct E as (self' & E); rewrite E in Hkeep; exists self'; auto].
  clear Hkeep. destruct Hk as (_ & Hser & _ & Hcorr).
  unfold correlate, label_coefficient.
  destruct (excluded label); [eexists; reflexivity|]. simpl in Hr.
  destruct (series_at self0 d1 s1 label) as [xs|] eqn:E1; [|discriminate].
  destruct (series_at self0 d2 s2 label) as [ys|] eqn:E2; [|discriminate].
  pose proof (Hser d1 s1 label) as G1. rewrite E1 in G1. apply series_at_entry in G1.
  pose proof (Hser d2 s2 label) as G2. rewrite E2 in G2. apply series_at_entry in G2.
  unfold bind at 1. rewrite (get_entry_some _ _ _ _ _ G1).
  unfold bind at 1. rewrite (get_entry_some _ _ _ _ _ G2).
  cbn [entry_len].
  destruct ((List.length xs <? 32)%nat || (List.length ys <? 32)%nat)%bool;
    [eexists; reflexivity|]. simpl in Hr.
  cbn [slice32]. unfold bind at 1. unfold ret at 1. unfold bind at 1. unfold ret at 1.
  destruct (corr_at self0 d1 s1 (correlation_key label) key) as [zs0|] eqn:E3;
    [|discriminate].
  assert (N : corr_at self d1 s1 (correlation_key label) key <> None)
    by (apply Hcorr; congruence).
  destruct (corr_at self d1 s1 (correlation_key label) key) as [zs|] eqn:E4;
    [|congruence].
  destruct (corr_append_trim_run self d1 s1 (correlation_key label) key zs
              (corrVal_of (np_corrcoef (window32 xs) (window32 ys))) E4) as (self' & R).
  exists self'. unfold bind at 1 in R. unfold bind at 1.
  destruct (corr_append d1 s1 (correlation_key label) key
              (corrVal_of (np_corrcoef (window32 xs) (window32 ys))) self)
    as [[[]|ex] sa]; [|discriminate].
  unfold bind at 1. rewrite R. reflexivity.
Qed.

Lemma pair_run self0 self d1 s1 d2 s2 key :
  store_kept self0 self ->
  pair_ready self0 d1 s1 d2 s2 key = true ->
  exists self',
    (sd <- get_sensor d1 s1 ;;
     for_yield (dict_keys sd) (fun label =>
       correlate np_corrcoef d1 s1 d2 s2 key label)) self
    = (Ok (pair_coefficients np_corrcoef self0 d1 s1 d2 s2), self') /\
    store_kept self0 self'.
Proof.
  intros Hk Hr. unfold pair_ready in Hr. unfold pair_coefficients.
  destruct (keys_at self0 d1 s1) as [keys|] eqn:Ek; [|discriminate].
  pose proof Hk as (_ & _ & Hkeys & _). specialize (Hkeys d1 s1). rewrite Ek in Hkeys.
  unfold keys_at in Hkeys.
  destruct (nth_error (s_dancers self) d1) as [dancer|] eqn:Ed; [|discriminate].
  destruct (dict_get s1 dancer) as [sd|] eqn:Es; [|discriminate].
  simpl in Hkeys. injection Hkeys as Hkeys.
  unfold bind. rewrite (get_sensor_some _ _ _ _ _ Ed Es). rewrite Hkeys.
  apply (for_yield_inv (store_kept self0)); [|exact Hk].
  intros label s Hin Hs. apply correlate_run; [exact Hs|].
  rewrite forallb_forall in Hr. exact (Hr label Hin).
Qed.

(** X16. When the store holds what the loop looks up ([pair_ready]) and there are
    at least two dancers, [calculate_correlation_others] returns, for the one
    configured pair (12, 22), the coefficients of sensor 2 of the first dancer
    against sensor 2 of the second dancer: one entry per label of that sensor that
    is not passed over and whose two series hold at least 32 values, in the order
    of the sensor's keys, each with the coefficient of the last 32 values of the
    two series as they were before the call (0 for a NaN).  It reads and writes
    the correlation series keyed [dancer_3], and leaves every base series, every
    key and every attribute as it was. *)
Theorem calculate_correlation_others_returns (self : Sensors) :
  1 < List.length (s_dancers self) ->
  pair_ready self 0 "snsr_2" 1 "snsr_2" "dancer_3" = true ->
  exists self',
    calculate_correlation_others np_corrcoef self
    = (Ok (pair_coefficients np_corrcoef self 0 "snsr_2" 1 "snsr_2"), self') /\
    store_kept self self'.
Proof.
  intros Hlen Hr. unfold calculate_correlation_others, correlation_others_combos.
  cbn [for_yield]. change (12 =? 22)%nat with false. cbv iota.
  unfold bind at 1. unfold bind at 1. unfold get at 1.
  change (round_div10 12) with 1. change (round_div10 22) with 2.
  change (12 mod 10) with 2. change (22 mod 10) with 2.
  change (snsr 2) with "snsr_2". change (dancer_key (2 + 1)) with "dancer_3".
  assert (P0 : py_pos (List.length (s_dancers self)) (Z.of_nat 1 - 1) = Some 0).
  { unfold py_pos. simpl Z.sub. simpl Z.ltb.
    destruct (Z.ltb_spec 0 (Z.of_nat (List.length (s_dancers self)))); [reflexivity|lia]. }
  assert (P1 : py_pos (List.length (s_dancers self)) (Z.of_nat 2 - 1) = Some 1).
  { unfold py_pos. simpl Z.sub. simpl Z.ltb.
    destruct (Z.ltb_spec 1 (Z.of_nat (List.length (s_dancers self)))); [reflexivity|lia]. }
  unfold bind at 1. rewrite P0. unfold lift_opt at 1. unfold ret at 1.
  unfold bind at 1. rewrite P1. unfold lift_opt at 1. unfold ret at 1.
  destruct (pair_run self self 0 "snsr_2" 1 "snsr_2" "dancer_3"
              (store_kept_refl self) Hr) as (self' & E & Hk).
  rewrite E. exists self'. split; [|exact Hk].
  unfold bind, ret. rewrite app_nil_r. reflexivity.
Qed.

End CorrelationRuns.

Section CorrelationSelfRuns.

Variable np_corrcoef : list float -> list float -> float.

(** X17. When the store holds what the loops look up ([self_ready]),
    [calculate_correlation_self] returns, for every dancer and every pair of
    sensors [i < j] in the order of the loops, one entry per label of sensor [i]
    that is not passed over and whose series hold at least 32 values under both
    sensors, in the order of the sensor's keys, each with the coefficient of the
    last 32 values of the two series as they were before the call (0 for a NaN);
    it leaves every base series, every key and every attribute as it was. *)
Theorem calculate_correlation_self_returns (self : Sensors) :
  self_ready self = true ->
  exists self',
    calculate_correlation_self np_corrcoef self
    = (Ok (self_coefficients np_corrcoef self), self') /\
    store_kept self self'.
Proof.
  intros Hr. unfold self_ready in Hr. rewrite forallb_forall in Hr.
  unfold calculate_correlation_self, self_coefficients.
  unfold bind at 1. unfold get at 1.
  apply (for_yield_inv (store_kept self)); [|apply store_kept_refl].
  intros d s1 Hd Hs1. specialize (Hr d Hd). rewrite forallb_forall in Hr.
  assert (N1 : s_nSensors s1 = s_nSensors self) by (destruct Hs1 as [Ha _]; apply Ha).
  unfold bind at 1. unfold get at 1. rewrite N1.
  apply (for_yield_inv (store_kept self)); [|exact Hs1].
  intros i s2 Hi Hs2. specialize (Hr i Hi). rewrite forallb_forall in Hr.
  assert (N2 : s_nSensors s2 = s_nSensors self) by (destruct Hs2 as [Ha _]; apply Ha).
  unfold bind at 1. unfold get at 1. rewrite N2.
  apply (for_yield_inv (store_kept self)); [|exact Hs2].
  intros j s3 Hj Hs3. cbv zeta.
  apply pair_run; [exact Hs3|]. exact (Hr j Hj).
Qed.

End CorrelationSelfRuns.

Lemma calculate_correlation_others_returns_witness :
  (1 < List.length (s_dancers sampled) /\
   pair_ready sampled 0 "snsr_2" 1 "snsr_2" "dancer_3" = true) /\
  exists self',
    calculate_correlation_others ref_corrcoef sampled
    = (Ok (pair_coefficients ref_corrcoef sampled 0 "snsr_2" 1 "snsr_2"), self') /\
    store_kept sampled self'.
Proof.
  assert (H1 : 1 < List.length (s_dancers sampled)) by (vm_compute; lia).
  assert (H2 : pair_ready sampled 0 "snsr_2" 1 "snsr_2" "dancer_3" = true)
    by (vm_compute; reflexivity).
  split; [split; assumption|].
  exact (calculate_correlation_others_returns ref_corrcoef sampled H1 H2).
Defined.

Lemma calculate_correlation_self_returns_witness :
  self_ready sampled = true /\
  exists self',
    calculate_correlation_self ref_corrcoef sampled
    = (Ok (self_coefficients ref_corrcoef sampled), self') /\
    store_kept sampled self'.
Proof.
  assert (H : self_ready sampled = true) by (vm_compute; reflexivity).
  split; [exact H|].
  exact (calculate_correlation_self_returns ref_corrcoef sampled H).
Defined.

(** ** The store [dancers] builds *)

Lemma str_inj a b : str a = str b -> a = b.
Proof.
  unfold str. intros H. apply Unsigned.to_uint_inj.
  apply (f_equal NilEmpty.uint_of_string) in H. rewrite !NilEmpty.usu in H.
  congruence.
Qed.

Lemma snsr_inj a b : snsr a = snsr b -> a = b.
Proof. unfold snsr. simpl. intros H. injection H as H. exact (str_inj _ _ H). Qed.

Lemma dancer_key_inj a b : dancer_key a = dancer_key b -> a = b.
Proof. unfold dancer_key. simpl. intros H. injection H as H. exact (str_inj _ _ H). Qed.

Lemma snsr_not_dancer_key a b : snsr a <> dancer_key b.
Proof. unfold snsr, dancer_key. simpl. discriminate. Qed.

Lemma snsr_eqb a b : (snsr a =? snsr b)%string = (a =? b)%nat.
Proof.
  destruct (Nat.eqb_spec a b) as [->|N]; [apply String.eqb_refl|].
  apply String.eqb_neq. intros H. exact (N (snsr_inj _ _ H)).
Qed.

Lemma dict_get_app_none {V} (d1 d2 : dict V) k :
  dict_get k d1 = None -> dict_get k (d1 ++ d2) = dict_get k d2.
Proof.
  induction d1 as [|[k0 v0] d1 IH]; simpl; [reflexivity|].
  destruct (k =? k0)%string; [discriminate|exact IH].
Qed.

Lemma dict_set_fresh {V} (d : dict V) k v :
  dict_get k d = None -> dict_set k v d = d ++ [(k, v)].
Proof.
  induction d as [|[k0 v0] d IH]; simpl; [reflexivity|].
  destruct (k =? k0)%string; [discriminate|]. intros H. rewrite (IH H). reflexivity.
Qed.

(** Keys that are new and distinct are added at the end, in order. *)
Lemma fold_dict_set_fresh {V} (v : V) (ks : list string) : forall d,
  NoDup ks -> (forall k, In k ks -> dict_get k d = None) ->
  fold_left (fun d k => dict_set k v d) ks d = d ++ map (fun k => (k, v)) ks.
Proof.
  induction ks as [|k ks IH]; intros d Hnd Hfresh; simpl.
  - rewrite app_nil_r. reflexivity.
  - inversion Hnd as [|? ? Hk Hnd']; subst.
    rewrite (dict_set_fresh d k v (Hfresh k (or_introl eq_refl))).
    rewrite IH; [rewrite <- app_assoc; reflexivity|exact Hnd'|].
    intros k' Hin. rewrite dict_get_app_none by (apply Hfresh; right; exact Hin).
    simpl. destruct (String.eqb_spec k' k) as [->|]; [contradiction|reflexivity].
Qed.

Lemma fold_left_map {A B C} (f : A -> C -> A) (g : B -> C) (l : list B) : forall a,
  fold_left (fun a x => f a (g x)) l a = fold_left f (map g l) a.
Proof. induction l as [|x l IH]; intros a; simpl; auto. Qed.

Lemma fold_left_filter {A B} (f : A -> B -> A) (p : B -> bool) (l : list B) : forall a,
  fold_left (fun a x => if p x then f a x else a) l a = fold_left f (filter p l) a.
Proof.
  induction l as [|x l IH]; intros a; simpl; [reflexivity|].
  destruct (p x); simpl; apply IH.
Qed.

Lemma NoDup_map_inj {A B} (f : A -> B) (l : list A) :
  (forall a b, f a = f b -> a = b) -> NoDup l -> NoDup (map f l).
Proof.
  intros Hinj H. induction H as [|x l Hx Hl IH]; simpl; constructor; auto.
  intros Hin. apply in_map_iff in Hin. destruct Hin as (y & E & Hy).
  apply Hinj in E. subst y. contradiction.
Qed.

Lemma dict_get_map_none {A V} (key : A -> string) (val : A -> V) (l : list A) k :
  (forall a, In a l -> key a <> k) -> dict_get k (map (fun a => (key a, val a)) l) = None.
Proof.
  induction l as [|a l IH]; intros H; simpl; [reflexivity|].
  destruct (String.eqb_spec k (key a)) as [E|_].
  - exfalso. exact (H a (or_introl eq_refl) (eq_sym E)).
  - apply IH. intros b Hb. apply H. right. exact Hb.
Qed.

Lemma fold_left_skip {A B} (f : A -> B -> A) (p : B -> bool) (l : list B) : forall a,
  fold_left (fun a x => if p x then a else f a x) l a
  = fold_left f (filter (fun x => negb (p x)) l) a.
Proof.
  induction l as [|x l IH]; intros a; simpl; [reflexivity|].
  destruct (p x); simpl; apply IH.
Qed.

Lemma new_correlation_template d nd ns : new_correlation d nd ns = corr_template d nd ns.
Proof.
  unfold new_correlation, corr_template. cbv zeta.
  rewrite (fold_left_map (fun m k => dict_set k zeros500 m) snsr).
  rewrite fold_dict_set_fresh;
    [|apply NoDup_map_inj; [exact snsr_inj|apply seq_NoDup]|reflexivity].
  simpl app. rewrite map_map.
  rewrite (fold_left_skip (fun m k => dict_set (dancer_key (k + 1)) zeros500 m)
             (fun k => (k =? d)%nat)).
  rewrite (fold_left_map (fun m k => dict_set k zeros500 m)
             (fun k => dancer_key (k + 1))).
  rewrite fold_dict_set_fresh.
  - rewrite map_map. reflexivity.
  - apply NoDup_map_inj.
    + intros a b H. apply dancer_key_inj in H. lia.
    + apply NoDup_filter, seq_NoDup.
  - intros k Hin. apply in_map_iff in Hin. destruct Hin as (x & <- & _).
    apply dict_get_map_none. intros a _. apply snsr_not_dancer_key.
Qed.

Lemma dict_upd_absent {V} (f : V -> V) (d : dict V) k :
  dict_get k d = None -> dict_upd k f d = d.
Proof.
  induction d as [|[k0 v0] d IH]; simpl; [reflexivity|].
  destruct (k =? k0)%string; [discriminate|]. intros H. rewrite (IH H). reflexivity.
Qed.

Lemma dict_upd_at {V} (f g : V -> V) (d : dict V) k v :
  dict_get k d = Some v -> f v = g v -> dict_upd k f d = dict_upd k g d.
Proof.
  induction d as [|[k0 v0] d IH]; simpl; [reflexivity|].
  destruct (k =? k0)%string.
  - intros H E. injection H as ->. rewrite E. reflexivity.
  - intros H E. rewrite (IH H E). reflexivity.
Qed.

Lemma dict_upd_same {V} (f : V -> V) (d : dict V) k v :
  dict_get k d = Some v -> f v = v -> dict_upd k f d = d.
Proof.
  induction d as [|[k0 v0] d IH]; simpl; [reflexivity|].
  destruct (k =? k0)%string.
  - intros H E. injection H as ->. rewrite E. reflexivity.
  - intros H E. rewrite (IH H E). reflexivity.
Qed.

Section Build.

(** A dancer's dictionary with the sensors [ks], sensor [k] holding [v k]. *)
Variable ks : list nat.
Hypothesis ks_NoDup : NoDup ks.

Let rep (v : nat -> dict entry) : dict (dict entry) := map (fun k => (snsr k, v k)) ks.

Lemma rep_ext v v' : (forall k, In k ks -> v k = v' k) -> rep v = rep v'.
Proof. intros H. apply map_ext_in. intros k Hk. rewrite (H k Hk). reflexivity. Qed.

Lemma dict_upd_rep f i v :
  dict_upd (snsr i) f (rep v) = rep (fun k => if (k =? i)%nat then f (v k) else v k).
Proof.
  unfold rep. clear rep. induction ks_NoDup as [|k l Hk Hl IH]; cbn [map dict_upd];
    [reflexivity|].
  rewrite snsr_eqb, (Nat.eqb_sym i k).
  destruct (Nat.eqb_spec k i) as [->|N].
  - f_equal. apply map_ext_in. intros k' Hk'.
    destruct (Nat.eqb_spec k' i) as [->|]; [contradiction|reflexivity].
  - f_equal. exact (IH Hl).
Qed.

Lemma label_fold (g : string -> dict entry -> dict entry) i ls : forall v,
  fold_left (fun d l => dict_upd (snsr i) (g l) d) ls (rep v)
  = rep (fun k => if (k =? i)%nat then fold_left (fun sd l => g l sd) ls (v k) else v k).
Proof.
  induction ls as [|l ls IH]; intros v; simpl.
  - apply rep_ext. intros k _. destruct (k =? i)%nat; reflexivity.
  - rewrite dict_upd_rep, IH. apply rep_ext. intros k _.
    destruct (k =? i)%nat; reflexivity.
Qed.

Lemma pair_fold (g : string -> dict entry -> dict entry) i j ls : i <> j -> forall v,
  fold_left (fun d l => dict_upd (snsr j) (g l) (dict_upd (snsr i) (g l) d)) ls (rep v)
  = rep (fun k => if ((k =? i)%nat || (k =? j)%nat)%bool
                  then fold_left (fun sd l => g l sd) ls (v k) else v k).
Proof.
  intros Hij. induction ls as [|l ls IH]; intros v; simpl.
  - apply rep_ext. intros k _. destruct (_ || _)%bool; reflexivity.
  - rewrite !dict_upd_rep, IH. apply rep_ext. intros k _.
    destruct (Nat.eqb_spec k i) as [E1|Ni]; destruct (Nat.eqb_spec k j) as [E2|Nj];
      simpl; try reflexivity. congruence.
Qed.

(** A loop whose steps turn the sensors they touch from [a] into [b]. *)
Lemma visit_fold {X} (touch : X -> nat -> bool) (ok : X -> Prop)
    (G : dict entry -> dict entry) (a b : dict entry)
    (step : X -> dict (dict entry) -> dict (dict entry)) :
  G a = b -> G b = b ->
  (forall x v, ok x ->
     step x (rep v) = rep (fun k => if touch x k then G (v k) else v k)) ->
  forall xs (vis : nat -> bool), Forall ok xs ->
    fold_left (fun d x => step x d) xs (rep (fun k => if vis k then b else a))
    = rep (fun k => if (vis k || existsb (fun x => touch x k) xs)%bool then b else a).
Proof.
  intros Ga Gb Hstep. induction xs as [|x xs IH]; intros vis Hok; simpl.
  - apply rep_ext. intros k _. rewrite orb_false_r. reflexivity.
  - apply Forall_cons_iff in Hok. destruct Hok as [Hx Hxs]. rewrite (Hstep x _ Hx).
    rewrite (rep_ext _ (fun k => if (vis k || touch x k)%bool then b else a)).
    + rewrite (IH _ Hxs). apply rep_ext. intros k _. rewrite orb_assoc. reflexivity.
    + intros k _. destruct (vis k), (touch x k); simpl; auto.
Qed.

End Build.

Lemma fold_left_pairs {A} (g : nat -> nat -> A -> A) (J : nat -> list nat) (I : list nat) :
  forall d,
    fold_left (fun d i => fold_left (fun d j => g i j d) (J i) d) I d
    = fold_left (fun d p => g (fst p) (snd p) d)
                (flat_map (fun i => map (fun j => (i, j)) (J i)) I) d.
Proof.
  induction I as [|i I IH]; intros d; simpl; [reflexivity|].
  rewrite fold_left_app, <- IH. f_equal.
  generalize (J i) d. clear. induction l as [|j l IH]; intros d; simpl; auto.
Qed.

Lemma fold_left_ext_in {A B} (f g : A -> B -> A) (l : list B) :
  (forall a x, In x l -> f a x = g a x) -> forall a, fold_left f l a = fold_left g l a.
Proof.
  induction l as [|x l IH]; intros H a; simpl; [reflexivity|].
  rewrite (H a x (or_introl eq_refl)). apply IH. intros a' y Hy. apply H. right. exact Hy.
Qed.

Section Sensor.

Variable S0 C : entry.

Let base : dict entry := map (fun label => (label, S0)) labels.
Let full : dict entry := base ++ map (fun label => (correlation_key label, C)) labels.
Let add_corr (label : string) (sd : dict entry) : dict entry :=
  if dict_mem (correlation_key label) sd then sd
  else dict_set (correlation_key label) C sd.

Lemma labels_set_empty :
  fold_left (fun sd label => dict_set label S0 sd) labels [] = base.
Proof. reflexivity. Qed.

Lemma labels_set_base :
  fold_left (fun sd label => dict_set label S0 sd) labels base = base.
Proof. reflexivity. Qed.

Lemma add_corr_base : fold_left (fun sd label => add_corr label sd) labels base = full.
Proof. reflexivity. Qed.

Lemma add_corr_full : fold_left (fun sd label => add_corr label sd) labels full = full.
Proof. reflexivity. Qed.

Lemma corr_step (d : dict (dict entry)) sens label :
  match dict_get sens d with
  | Some sd =>
      if dict_mem (correlation_key label) sd then d
      else dict_upd sens (dict_set (correlation_key label) C) d
  | None => d
  end = dict_upd sens (add_corr label) d.
Proof.
  destruct (dict_get sens d) as [sd|] eqn:E.
  - destruct (dict_mem (correlation_key label) sd) eqn:M.
    + symmetry. apply (dict_upd_same _ _ _ sd E). unfold add_corr. rewrite M. reflexivity.
    + apply (dict_upd_at _ _ _ _ sd E). unfold add_corr. rewrite M. reflexivity.
  - symmetry. apply dict_upd_absent. exact E.
Qed.

End Sensor.

Lemma empty_dancer ns :
  fold_left (fun (d : dict (dict entry)) sensor_num => dict_set (snsr sensor_num) [] d)
            (seq 1 ns) []
  = map (fun k => (snsr k, [])) (seq 1 ns).
Proof.
  rewrite (fold_left_map (fun (d : dict (dict entry)) k => dict_set k [] d) snsr).
  rewrite fold_dict_set_fresh;
    [|apply NoDup_map_inj; [exact snsr_inj|apply seq_NoDup]|reflexivity].
  simpl app. apply map_map.
Qed.

Lemma existsb_seq_self k a n :
  In k (seq a n) -> existsb (fun x => (k =? x)%nat) (seq a n) = true.
Proof.
  intros H. apply existsb_exists. exists k. split; [exact H|apply Nat.eqb_refl].
Qed.

(** Every sensor of a dancer with at least two sensors is in a pair of the loops;
    with fewer sensors there is no pair. *)
Lemma pairs_cover ns k :
  In k (seq 1 ns) ->
  existsb (fun p : nat * nat => ((k =? fst p)%nat || (k =? snd p)%nat)%bool)
          (flat_map (fun i => map (fun j => (i, j)) (seq (i + 1) (ns - i)))
                    (seq 1 (ns - 1)))
  = (2 <=? ns)%nat.
Proof.
  intros Hk. apply in_seq in Hk.
  destruct (Nat.leb_spec 2 ns) as [L|L].
  - apply existsb_exists.
    destruct (Nat.eq_dec k ns) as [->|N].
    + exists (1, ns). split.
      * apply in_flat_map. exists 1. split; [apply in_seq; lia|].
        apply in_map_iff. exists ns. split; [reflexivity|apply in_seq; lia].
      * simpl. rewrite Nat.eqb_refl. apply orb_true_r.
    + exists (k, k + 1). split.
      * apply in_flat_map. exists k. split; [apply in_seq; lia|].
        apply in_map_iff. exists (k + 1). split; [reflexivity|apply in_seq; lia].
      * simpl. rewrite Nat.eqb_refl. reflexivity.
  - replace (ns - 1) with 0 by lia. reflexivity.
Qed.

Lemma pairs_distinct ns :
  Forall (fun p : nat * nat => fst p <> snd p)
         (flat_map (fun i => map (fun j => (i, j)) (seq (i + 1) (ns - i)))
                   (seq 1 (ns - 1))).
Proof.
  apply Forall_forall. intros [i j] H. apply in_flat_map in H.
  destruct H as (i' & _ & H). apply in_map_iff in H. destruct H as (j' & E & H).
  injection E as -> ->. apply in_seq in H. simpl. lia.
Qed.

Lemma fill_dancer_template d nd ns :
  fill_dancer d nd ns (map (fun k => (snsr k, [])) (seq 1 ns))
  = map (fun i => (snsr i, sensor_template d nd ns)) (seq 1 ns).
Proof.
  unfold fill_dancer. cbv zeta.
  set (S0 := Series zeros500). set (C := Corr (new_correlation d nd ns)).
  set (base := map (fun label => (label, S0)) labels).
  (* the fifteen series of every sensor *)
  match goal with
  | |- fold_left _ _ ?ws = _ =>
      assert (H1 : ws = map (fun k => (snsr k, base)) (seq 1 ns)); [|rewrite H1; clear H1]
  end.
  { refine (eq_trans
              (visit_fold (seq 1 ns) (fun i k => (k =? i)%nat) (fun _ => True)
                 (fun sd => fold_left (fun sd label => dict_set label S0 sd) labels sd)
                 [] base
                 (fun i d0 =>
                    fold_left (fun d1 label => dict_upd (snsr i) (dict_set label S0) d1)
                              labels d0)
                 (labels_set_empty S0) (labels_set_base S0)
                 (fun x v _ => label_fold (seq 1 ns) (seq_NoDup ns 1)
                                 (fun label => dict_set label S0) x labels v)
                 (seq 1 ns) (fun _ => false) _) _).
    - apply Forall_forall. auto.
    - apply map_ext_in. intros k Hk. simpl orb.
      rewrite (existsb_seq_self k 1 ns Hk). reflexivity. }
  (* the correlation dictionaries *)
  rewrite fold_left_pairs.
  assert (Hstep : forall (p : nat * nat) (v : nat -> dict entry), fst p <> snd p ->
            fold_left
              (fun (d1 : dict (dict entry)) label =>
                 fold_left
                   (fun (d2 : dict (dict entry)) sens =>
                      match dict_get sens d2 with
                      | Some sd =>
                          if dict_mem (correlation_key label) sd then d2
                          else dict_upd sens (dict_set (correlation_key label) C) d2
                      | None => d2
                      end) [snsr (fst p); snsr (snd p)] d1)
              labels (map (fun k => (snsr k, v k)) (seq 1 ns))
            = map (fun k => (snsr k,
                             if ((k =? fst p)%nat || (k =? snd p)%nat)%bool
                             then fold_left
                                    (fun sd label =>
                                       if dict_mem (correlation_key label) sd then sd
                                       else dict_set (correlation_key label) C sd)
                                    labels (v k)
                             else v k)) (seq 1 ns)).
  { intros p v Hp.
    refine (eq_trans _
              (pair_fold (seq 1 ns) (seq_NoDup ns 1)
                 (fun label sd => if dict_mem (correlation_key label) sd then sd
                                  else dict_set (correlation_key label) C sd)
                 (fst p) (snd p) labels Hp v)).
    apply fold_left_ext_in. intros d0 label _. cbn [fold_left].
    rewrite !(corr_step C). reflexivity. }
  refine (eq_trans
            (visit_fold (seq 1 ns)
               (fun (p : nat * nat) k => ((k =? fst p)%nat || (k =? snd p)%nat)%bool)
               (fun p => fst p <> snd p)
               (fun sd => fold_left
                  (fun sd label => if dict_mem (correlation_key label) sd then sd
                                   else dict_set (correlation_key label) C sd) labels sd)
               base (base ++ map (fun label => (correlation_key label, C)) labels)
               _ (add_corr_base S0 C) (add_corr_full S0 C) Hstep _ (fun _ => false)
               (pairs_distinct ns)) _).
  apply map_ext_in. intros k Hk. simpl orb. rewrite (pairs_cover ns k Hk).
  unfold sensor_template. fold S0. fold base. rewrite <- new_correlation_template. fold C.
  destruct (2 <=? ns)%nat; [reflexivity|]. rewrite app_nil_r. reflexivity.
Qed.

(** X18. For every number of dancers and of sensors, [dancers] builds the store in
    closed form: one dictionary per dancer with the keys [snsr_1] .. [snsr_<n>] in
    order; under each sensor the fifteen labels, each with 500 zeros, followed,
    when there are at least two sensors, by one [correlation_<label>] dictionary
    per label, which holds 500 zeros under every sensor key of the dancer (the
    sensor's own included) and under [dancer_<k>] for every dancer but its own.
    With a single sensor per dancer no correlation dictionary is created. *)
Theorem dancers_builds_template (number_of_dancers number_of_sensors : nat) :
  dancers number_of_dancers number_of_sensors
  = store_template number_of_dancers number_of_sensors.
Proof.
  unfold dancers, store_template. cbv zeta. rewrite empty_dancer.
  apply map_ext. intros d. apply fill_dancer_template.
Qed.

Local Open Scope Z_scope.

(** ** A difference of a number at least 1 and a number at most 0 is not zero *)

Lemma digits2_pos_size p : digits2_pos p = Pos.size p.
Proof. induction p; simpl; congruence. Qed.

Lemma digits2_pos_log2 p : Zpos (digits2_pos p) = Z.log2 (Zpos p) + 1.
Proof.
  rewrite digits2_pos_size. destruct p; simpl; try reflexivity.
  - rewrite Pos2Z.inj_succ. lia.
  - rewrite Pos2Z.inj_succ. lia.
Qed.

Lemma shr_1_m mrs : 0 <= shr_m mrs -> shr_m (shr_1 mrs) = Z.shiftr (shr_m mrs) 1.
Proof.
  destruct mrs as [m r s]. simpl. intros H. rewrite <- Z.div2_spec.
  destruct m as [|[p|p|]|p]; try reflexivity; lia.
Qed.

Lemma iter_shr_1 p : forall mrs,
  0 <= shr_m mrs ->
  shr_m (SpecFloat.iter_pos shr_1 p mrs) = Z.shiftr (shr_m mrs) (Zpos p).
Proof.
  induction p as [p IH|p IH|]; intros mrs H; simpl.
  - assert (H1 : 0 <= shr_m (shr_1 mrs))
      by (rewrite shr_1_m by exact H; apply Z.shiftr_nonneg; exact H).
    assert (H2 : 0 <= shr_m (SpecFloat.iter_pos shr_1 p (shr_1 mrs)))
      by (rewrite IH by exact H1; apply Z.shiftr_nonneg; exact H1).
    rewrite IH by exact H2. rewrite IH by exact H1. rewrite shr_1_m by exact H.
    rewrite !Z.shiftr_shiftr by lia. f_equal. lia.
  - assert (H1 : 0 <= shr_m (SpecFloat.iter_pos shr_1 p mrs))
      by (rewrite IH by exact H; apply Z.shiftr_nonneg; exact H).
    rewrite IH by exact H1. rewrite IH by exact H.
    rewrite Z.shiftr_shiftr by lia. f_equal. lia.
  - apply shr_1_m. exact H.
Qed.

Lemma shr_record_of_loc_m m l : shr_m (shr_record_of_loc m l) = m.
Proof. destruct l as [|[| |]]; reflexivity. Qed.

(** Shifting a positive mantissa to its canonical exponent keeps it positive and
    keeps the magnitude [log2 m + e], as long as the number is not below the
    smallest subnormal. *)
Lemma shr_fexp_positive m e l :
  0 < m -> SpecFloat.emin prec emax <= Z.log2 m + e ->
  0 < shr_m (fst (shr_fexp prec emax m e l)) /\
  Z.log2 (shr_m (fst (shr_fexp prec emax m e l))) + snd (shr_fexp prec emax m e l)
  = Z.log2 m + e.
Proof.
  intros Hm He. unfold shr_fexp, shr.
  assert (Hd : Zdigits2 m = Z.log2 m + 1).
  { destruct m as [|p|p]; try lia. simpl Zdigits2. apply digits2_pos_log2. }
  rewrite Hd. unfold SpecFloat.fexp.
  assert (L := Z.log2_nonneg m).
  destruct (Z.max (Z.log2 m + 1 + e - prec) (SpecFloat.emin prec emax) - e) as [|n|n] eqn:En;
    cbn [fst snd]; rewrite ?shr_record_of_loc_m; try (split; [exact Hm|reflexivity]).
  assert (Hn : Zpos n <= Z.log2 m) by (unfold prec in *; lia).
  rewrite iter_shr_1 by (rewrite shr_record_of_loc_m; lia).
  rewrite shr_record_of_loc_m.
  assert (N : Z.shiftr m (Zpos n) <> 0).
  { intros E. apply Z.shiftr_eq_0_iff in E. destruct E as [E|[_ E]]; lia. }
  assert (P : 0 <= Z.shiftr m (Zpos n)) by (apply Z.shiftr_nonneg; lia).
  split; [lia|]. rewrite Z.log2_shiftr by exact Hm. lia.
Qed.

Lemma round_nearest_even_positive m l :
  0 < m -> 0 < round_nearest_even m l /\ Z.log2 m <= Z.log2 (round_nearest_even m l).
Proof.
  intros H. unfold round_nearest_even.
  destruct l as [|[| |]]; try (split; [lia|apply Z.log2_le_mono; lia]).
  destruct (Z.even m); split; try lia; apply Z.log2_le_mono; lia.
Qed.

Lemma binary_round_aux_nonzero sx m e l :
  0 < m -> SpecFloat.emin prec emax <= Z.log2 m + e ->
  SFnonzero (binary_round_aux prec emax sx m e l).
Proof.
  intros Hm He. unfold binary_round_aux.
  destruct (shr_fexp_positive m e l Hm He) as [P1 M1].
  destruct (shr_fexp prec emax m e l) as [mrs' e']. cbn [fst snd] in P1, M1.
  destruct (round_nearest_even_positive (shr_m mrs') (loc_of_shr_record mrs') P1) as [P2 M2].
  set (m2 := round_nearest_even (shr_m mrs') (loc_of_shr_record mrs')) in *.
  assert (He2 : SpecFloat.emin prec emax <= Z.log2 m2 + e') by lia.
  destruct (shr_fexp_positive m2 e' loc_Exact P2 He2) as [P3 _].
  destruct (shr_fexp prec emax m2 e' loc_Exact) as [mrs'' e'']. cbn [fst] in P3.
  destruct (shr_m mrs'') as [|p|p]; try lia.
  destruct (e'' <=? emax - prec); exact I.
Qed.

Lemma iter_xO_shiftl m d : Zpos (Pos.iter xO m d) = Z.shiftl (Zpos m) (Zpos d).
Proof.
  simpl Z.shiftl. apply (Pos.iter_swap_gen _ _ Zpos xO (Z.mul 2)). reflexivity.
Qed.

(** Aligning a mantissa on a smaller exponent keeps the magnitude. *)
Lemma shl_align_magnitude mx ex ex' :
  Z.log2 (Zpos (fst (shl_align mx ex ex'))) + snd (shl_align mx ex ex')
  = Z.log2 (Zpos mx) + ex.
Proof.
  unfold shl_align. destruct (ex' - ex) as [|d|d] eqn:E; cbn [fst snd]; try reflexivity.
  rewrite iter_xO_shiftl, Z.log2_shiftl by lia. lia.
Qed.

Lemma shl_align_exponent mx ex ex' : ex' <= ex -> snd (shl_align mx ex ex') = ex'.
Proof.
  intros H. unfold shl_align. destruct (ex' - ex) as [|d|d] eqn:E; cbn [snd]; lia.
Qed.

Lemma binary_round_nonzero sx mx ex :
  SpecFloat.emin prec emax <= Z.log2 (Zpos mx) + ex ->
  SFnonzero (binary_round prec emax sx mx ex).
Proof.
  intros H. unfold binary_round.
  pose proof (shl_align_magnitude mx ex (SpecFloat.fexp prec emax (Zpos (digits2_pos mx) + ex))) as M.
  destruct (shl_align mx ex (SpecFloat.fexp prec emax (Zpos (digits2_pos mx) + ex))) as [mz ez].
  cbn [fst snd] in M. apply binary_round_aux_nonzero; lia.
Qed.

Lemma SFsub_apart_nonzero mx ex my ey :
  -52 <= ex ->
  SFnonzero (SF64sub (S754_finite false mx ex) (S754_finite true my ey)).
Proof.
  intros H. unfold SF64sub, SFsub. cbv zeta. unfold cond_Zopp.
  set (ez := Z.min ex ey).
  pose proof (shl_align_magnitude mx ex ez) as M.
  pose proof (shl_align_exponent mx ex ez (Z.le_min_l ex ey)) as Ex.
  rewrite Ex in M.
  destruct (shl_align mx ex ez) as [ax ex1]. destruct (shl_align my ey ez) as [ay ey1].
  cbn [fst snd] in *.
  replace (Zpos ax - - Zpos ay) with (Zpos (ax + ay)) by lia.
  unfold binary_normalize. apply binary_round_nonzero.
  assert (L : Z.log2 (Zpos ax) <= Z.log2 (Zpos (ax + ay))) by (apply Z.log2_le_mono; lia).
  assert (L0 := Z.log2_nonneg (Zpos mx)).
  unfold SpecFloat.emin, prec, emax. lia.
Qed.

Lemma SFnonzero_neq_zero f : SFnonzero f -> SFeqb f (S754_zero false) = false.
Proof. destruct f as [s|s| |s m e]; simpl; try contradiction; destruct s; reflexivity. Qed.

Local Close Scope Z_scope.

Lemma Prim2SF_zero : Prim2SF 0 = S754_zero false.
Proof. reflexivity. Qed.

Lemma sub_apart_nonzero (lo hi : float) :
  PrimFloat.leb lo 0 = true -> PrimFloat.leb 1 hi = true ->
  PrimFloat.eqb (hi - lo) 0 = false.
Proof.
  rewrite !FloatAxioms.leb_spec, FloatAxioms.eqb_spec, FloatAxioms.sub_spec.
  rewrite Prim2SF_zero, Prim2SF_one.
  intros Hlo Hhi. apply SFnonzero_neq_zero.
  destruct (Prim2SF hi) as [sh|sh| |sh mh eh]; try discriminate.
  - destruct sh; [discriminate|].
    destruct (Prim2SF lo) as [sl|sl| |sl ml el]; try discriminate; try exact I.
    destruct sl; [exact I|discriminate].
  - destruct sh; [discriminate|].
    assert (He : (-52 <= eh)%Z).
    { unfold SFleb, SFcompare in Hhi.
      destruct (Z.compare_spec (-52) eh); first [lia|discriminate]. }
    destruct (Prim2SF lo) as [sl|sl| |sl ml el]; try discriminate; try exact I.
    destruct sl; [|discriminate]. apply SFsub_apart_nonzero. exact He.
Qed.

(** ** [scale_data] never divides by zero *)

Lemma bounds_apart_update idx dt i val lo hi self self1 :
  bounds_apart self ->
  bound_at self idx (dt ++ "_min") i = Some lo ->
  bound_at self idx (dt ++ "_max") i = Some hi ->
  (if PrimFloat.ltb val lo then bound_set idx (dt ++ "_min") i val
   else if PrimFloat.ltb hi val then bound_set idx (dt ++ "_max") i val
   else ret tt) self = (Ok tt, self1) ->
  bounds_apart self1.
Proof.
  intros Hb Elo Ehi H.
  destruct (bounds_apart_guarded self idx dt i val lo hi Hb Elo Ehi) as [Hmin Hmax].
  destruct (PrimFloat.ltb val lo) eqn:L1; [|destruct (PrimFloat.ltb hi val) eqn:L2].
  - inversion H. apply Hmin. exact L1.
  - inversion H. apply Hmax. exact L2.
  - inversion H. subst. exact Hb.
Qed.

Lemma bound_get_raises idx key i self e s1 :
  bound_get idx key i self = (Raise e, s1) ->
  bound_at self idx key i = None /\ divides_by_zero (@Raise (list float) e) = false.
Proof.
  unfold bound_get, bound_at. munfold.
  destruct (nth_error (s_minmax self) idx) as [sensor|];
    [|intros H; inversion H; split; reflexivity].
  destruct (dict_get key (mm_bounds sensor)) as [vec|];
    [|intros H; inversion H; split; reflexivity].
  destruct (nth_error vec i); intros H; inversion H; split; reflexivity.
Qed.

Lemma scale_loop_outcome idx dt : forall value i scaled self,
  bounds_apart self ->
  divides_by_zero (fst (scale_loop idx dt value i scaled self)) = false /\
  ((forall j, j < List.length value ->
      bound_at self idx (dt ++ "_min") (i + j) <> None /\
      bound_at self idx (dt ++ "_max") (i + j) <> None) ->
   exists out self', scale_loop idx dt value i scaled self = (Ok out, self')).
Proof.
  induction value as [|val rest IH]; intros i scaled self Hb.
  - split; [reflexivity|]. intros _. simpl. eexists. eexists. reflexivity.
  - pose proof (bound_get_state idx (dt ++ "_min") i self) as Hs1.
    destruct (bound_get idx (dt ++ "_min") i self) as [[lo|e1] s1] eqn:E1;
      simpl in Hs1; subst s1.
    2:{ assert (X : scale_loop idx dt (val :: rest) i scaled self = (Raise e1, self))
          by (simpl; unfold bind; rewrite E1; reflexivity).
        rewrite X. apply bound_get_raises in E1. destruct E1 as [N Z]. split; [exact Z|].
        intros Hp. destruct (Hp 0) as [N' _]; [simpl; lia|].
        rewrite Nat.add_0_r in N'. contradiction. }
    pose proof (bound_get_state idx (dt ++ "_max") i self) as Hs2.
    destruct (bound_get idx (dt ++ "_max") i self) as [[hi|e2] s2] eqn:E2;
      simpl in Hs2; subst s2.
    2:{ assert (X : scale_loop idx dt (val :: rest) i scaled self = (Raise e2, self))
          by (simpl; unfold bind; rewrite E1, E2; reflexivity).
        rewrite X. apply bound_get_raises in E2. destruct E2 as [N Z]. split; [exact Z|].
        intros Hp. destruct (Hp 0) as [_ N']; [simpl; lia|].
        rewrite Nat.add_0_r in N'. contradiction. }
    pose proof (bound_get_ok _ _ _ _ _ _ E1) as B1.
    pose proof (bound_get_ok _ _ _ _ _ _ E2) as B2.
    destruct (guarded_update idx dt i val lo hi self B1 B2)
      as (self1 & E & _ & _ & Hfar & _).
    pose proof (bounds_apart_update idx dt i val lo hi self self1 Hb B1 B2 E) as Hb1.
    destruct (Hb idx dt i) as [Hmin Hmax].
    pose proof (sub_apart_nonzero lo hi (Hmin lo B1) (Hmax hi B2)) as Hnz.
    assert (X : scale_loop idx dt (val :: rest) i scaled self
                = scale_loop idx dt rest (S i)
                    (scaled ++ [((val - lo) / (hi - lo))%float]) self1).
    { simpl. unfold bind at 1. rewrite E1. unfold bind at 1. rewrite E2.
      unfold bind at 1. rewrite E. unfold bind at 1. unfold py_div. rewrite Hnz.
      reflexivity. }
    rewrite X.
    destruct (IH (S i) (scaled ++ [((val - lo) / (hi - lo))%float]) self1 Hb1) as [Hz Hr].
    split; [exact Hz|]. intros Hp. apply Hr. intros j Hj.
    replace (S i + j) with (i + S j) by lia.
    rewrite !Hfar by (right; left; lia). apply Hp. simpl. lia.
Qed.

(** X19. [scale_data] never raises [ZeroDivisionError]: from the bounds written by
    [__init__] and any registration of sensors, after any sequence of [scale_data]
    calls, whatever the sensor id, the data type and the raw values (infinities
    and NaNs included), the difference [maximum - minimum] it divides by is not
    zero. *)
Theorem scale_data_never_divides_by_zero
    (ids : list string) (calls : list scale_call)
    (sensor_id data_type : string) (value : list float) :
  divides_by_zero
    (fst (scale_data sensor_id data_type value
            (scale_calls calls (snd (set_ids (with_sensors Sensors_init ids))))))
  = false.
Proof.
  pose proof (bounds_apart_reachable ids calls) as Hb.
  set (self := scale_calls calls (snd (set_ids (with_sensors Sensors_init ids)))) in *.
  unfold scale_data. munfold.
  destruct (find_sensor sensor_id (s_minmax self)) as [idx|]; [|reflexivity].
  apply (scale_loop_outcome idx data_type value 0 [] self Hb).
Qed.

(** X20. For a sensor that has a dictionary in [self.minmax] whose bound vectors
    of the data type hold at least as many components as [value], and bounds as
    every reachable state has them (each minimum at most 0, each maximum at least
    1), [scale_data] returns. *)
Theorem scale_data_returns
    (sensor_id data_type : string) (value : list float) (self : Sensors) (idx : nat) :
  bounds_apart self ->
  find_sensor sensor_id (s_minmax self) = Some idx ->
  has_bounds self idx data_type (List.length value) ->
  exists out self', scale_data sensor_id data_type value self = (Ok out, self').
Proof.
  intros Hb Hidx Hp. rewrite (scale_data_found _ _ _ _ _ Hidx).
  apply (scale_loop_outcome idx data_type value 0 [] self Hb). exact Hp.
Qed.

Lemma scale_calls_nil self : scale_calls [] self = self.
Proof. reflexivity. Qed.

Lemma Sensors_ready_bounds_apart : bounds_apart Sensors_ready.
Proof.
  pose proof (bounds_apart_ready []) as H. rewrite scale_calls_nil in H. exact H.
Qed.

Lemma scale_data_returns_witness :
  (bounds_apart Sensors_ready /\
   find_sensor "00B4F119" (s_minmax Sensors_ready) = Some 5 /\
   has_bounds Sensors_ready 5 "acc" (List.length [7; nan; neg_infinity]%float)) /\
  exists out self',
    scale_data "00B4F119" "acc" [7; nan; neg_infinity]%float Sensors_ready = (Ok out, self').
Proof.
  assert (H1 : bounds_apart Sensors_ready) by exact Sensors_ready_bounds_apart.
  assert (H2 : find_sensor "00B4F119" (s_minmax Sensors_ready) = Some 5)
    by (vm_compute; reflexivity).
  assert (H3 : has_bounds Sensors_ready 5 "acc" (List.length [7; nan; neg_infinity]%float)).
  { intros i Hi. simpl in Hi.
    destruct i as [|[|[|i]]]; [| | |lia]; split; vm_compute; discriminate. }
  split; [split; [exact H1|split; [exact H2|exact H3]]|].
  exact (scale_data_returns "00B4F119" "acc" _ Sensors_ready 5 H1 H2 H3).
Defined.

(** ** [send_data] returns *)

Lemma run_bind {S A B} (m : M S A) (k : A -> M S B) s a s' :
  m s = (Ok a, s') -> bind m k s = k a s'.
Proof. intros H. unfold bind. rewrite H. reflexivity. Qed.

Lemma holds_series_kept d s : series_updates_keep (holds_series d s) d s.
Proof.
  intros self l xs ys [Ha Hs] He. split; [rewrite put_entry_axes; exact Ha|].
  intros l' Hl'. apply series_at_entry in He.
  rewrite (series_at_put_series _ _ _ _ _ ys _ _ _ He).
  destruct (same_path d s l' d s l); [discriminate|apply Hs; exact Hl'].
Qed.

Lemma list_append_returns d s l v self :
  holds_series d s self -> In l labels ->
  exists self', list_append d s l (Some v) self = (Ok tt, self') /\ holds_series d s self'.
Proof.
  intros H Hl. destruct (series_at self d s l) as [xs|] eqn:E;
    [|destruct (proj2 H l Hl E)].
  eexists. split; [apply (list_append_run _ _ _ _ _ _ E)|].
  apply series_at_entry in E. exact (holds_series_kept d s self l xs _ H E).
Qed.

Lemma trim_returns d s l self :
  holds_series d s self -> In l labels ->
  exists self', trim d s l self = (Ok tt, self') /\ holds_series d s self'.
Proof.
  intros H Hl. destruct (series_at self d s l) as [xs|] eqn:E;
    [|destruct (proj2 H l Hl E)].
  apply series_at_entry in E. unfold trim.
  rewrite (run_bind _ _ _ _ _ (get_entry_some _ _ _ _ _ E)). cbv beta zeta.
  change (entry_len (Series xs)) with (List.length xs).
  destruct (0 <? Z.of_nat (List.length xs) - 500)%Z eqn:C.
  - rewrite (run_bind _ _ _ _ _ (get_entry_some _ _ _ _ _ E)).
    destruct xs as [|x xs]; [simpl in C; discriminate|].
    eexists. split; [reflexivity|]. exact (holds_series_kept d s self l _ _ H E).
  - exists self. split; [reflexivity|exact H].
Qed.

Lemma for_each_returns {S A} (P : S -> Prop) (body : A -> M S unit) (l : list A) :
  (forall x s, In x l -> P s -> exists s', body x s = (Ok tt, s') /\ P s') ->
  forall s, P s -> exists s', for_each l body s = (Ok tt, s') /\ P s'.
Proof.
  induction l as [|x l IH]; intros Hb s Hs.
  - exists s. split; [reflexivity|exact Hs].
  - destruct (Hb x s (or_introl eq_refl) Hs) as (s1 & E1 & H1).
    simpl. rewrite (run_bind _ _ _ _ _ E1).
    apply IH; [|exact H1]. intros y t Hy. apply Hb. right. exact Hy.
Qed.

Lemma In_enumerate {A} (value : list A) i (x : A) :
  In (i, x) (enumerate value) -> i < List.length value.
Proof.
  unfold enumerate. intros H. apply in_combine_l in H. apply in_seq in H. lia.
Qed.

Lemma axis_label_known data_type i axis :
  existsb (String.eqb data_type) ["acc"; "gyr"; "mag"] = true ->
  nth_error ["x"; "y"; "z"] i = Some axis ->
  In (data_type ++ "_" ++ axis)%string labels.
Proof.
  intros Hd Hi. simpl in Hd.
  assert (Hdt : data_type = "acc" \/ data_type = "gyr" \/ data_type = "mag").
  { destruct (data_type =? "acc")%string eqn:E1; [left; apply String.eqb_eq; exact E1|].
    destruct (data_type =? "gyr")%string eqn:E2; [right; left; apply String.eqb_eq; exact E2|].
    destruct (data_type =? "mag")%string eqn:E3; [right; right; apply String.eqb_eq; exact E3|].
    discriminate. }
  destruct i as [|[|[|i]]]; simpl in Hi; try (destruct i; discriminate);
    injection Hi as <-; destruct Hdt as [-> | [-> | ->]]; simpl; tauto.
Qed.

Lemma send_data_series_run
    (sensor_id data_type : string) (value : list float) (self : Sensors)
    (loc : string * nat * nat) :
  dict_get sensor_id locations = Some loc ->
  holds_series (loc_dancer loc - 1) (snsr (loc_sensor loc)) self ->
  arity_ok data_type (List.length value) = true ->
  exists self',
    send_data sensor_id data_type value self = (Ok tt, self') /\
    holds_series (loc_dancer loc - 1) (snsr (loc_sensor loc)) self'.
Proof.
  intros Hloc Hs Har. unfold send_data. rewrite Hloc.
  unfold lift_opt at 1. unfold bind at 1, ret at 1. cbv zeta.
  set (d := loc_dancer loc - 1) in *. set (s := snsr (loc_sensor loc)) in *.
  unfold arity_ok in Har.
  destruct (existsb (String.eqb data_type) ["acc"; "gyr"; "mag"]) eqn:Hv.
  { apply Nat.leb_le in Har.
    apply (for_each_returns (holds_series d s)); [|exact Hs].
    intros [i val] t Hin Ht. apply In_enumerate in Hin.
    unfold bind at 1, get at 1.
    destruct (nth_error ["x"; "y"; "z"] i) as [axis|] eqn:Hi;
      [|apply nth_error_None in Hi; simpl in Hi; lia].
    assert (Hl : In (data_type ++ "_" ++ axis)%string labels)
      by exact (axis_label_known _ _ _ Hv Hi).
    unfold index. rewrite (proj1 Ht), Hi. unfold lift_opt, bind at 1, ret at 1.
    destruct (list_append_returns d s _ val t Ht Hl) as (t1 & E1 & H1).
    rewrite (run_bind _ _ _ _ _ E1). apply trim_returns; assumption. }
  destruct (data_type =? "ori")%string eqn:Ho.
  { apply String.eqb_eq in Ho. subst data_type. apply Nat.leb_le in Har.
    destruct value as [|v0 [|v1 [|v2 value]]]; simpl in Har; try lia.
    simpl nth_error.
    destruct (list_append_returns d s ("ori" ++ "_p")%string v0 self Hs) as (t1 & E1 & H1);
      [simpl; tauto|].
    rewrite (run_bind _ _ _ _ _ E1).
    destruct (list_append_returns d s ("ori" ++ "_r")%string v1 t1 H1) as (t2 & E2 & H2);
      [simpl; tauto|].
    rewrite (run_bind _ _ _ _ _ E2).
    destruct (list_append_returns d s ("ori" ++ "_y")%string v2 t2 H2) as (t3 & E3 & H3);
      [simpl; tauto|].
    rewrite (run_bind _ _ _ _ _ E3).
    apply (for_each_returns (holds_series d s)); [|exact H3].
    intros pry t Hin Ht. apply trim_returns; [exact Ht|].
    simpl in Hin. destruct Hin as [<-|[<-|[<-|[]]]]; simpl; tauto. }
  destruct (data_type =? "rot")%string eqn:Hr.
  { apply String.eqb_eq in Hr. subst data_type. apply Nat.leb_le in Har.
    destruct value as [|v0 value]; simpl in Har; try lia.
    simpl nth_error.
    destruct (list_append_returns d s "rot" v0 self Hs) as (t1 & E1 & H1);
      [simpl; tauto|].
    rewrite (run_bind _ _ _ _ _ E1). apply trim_returns; [exact H1|simpl; tauto]. }
  destruct (data_type =? "tot_a")%string eqn:Ht.
  { apply String.eqb_eq in Ht. subst data_type. apply Nat.leb_le in Har.
    destruct value as [|v0 [|v1 value]]; simpl in Har; try lia.
    simpl nth_error.
    destruct (list_append_returns d s "tot_a" v0 self Hs) as (t1 & E1 & H1);
      [simpl; tauto|].
    rewrite (run_bind _ _ _ _ _ E1).
    destruct (list_append_returns d s ("b_" ++ "tot_a")%string v1 t1 H1) as (t2 & E2 & H2);
      [simpl; tauto|].
    rewrite (run_bind _ _ _ _ _ E2).
    destruct (trim_returns d s "tot_a" t2 H2) as (t3 & E3 & H3); [simpl; tauto|].
    rewrite (run_bind _ _ _ _ _ E3). apply trim_returns; [exact H3|simpl; tauto]. }
  exists self. split; [reflexivity|exact Hs].
Qed.

(** ** The invariant of the recording loop *)

Lemma forallb_impl {A} (f g : A -> bool) (l : list A) :
  (forall x, In x l -> f x = true -> g x = true) ->
  forallb f l = true -> forallb g l = true.
Proof.
  intros H Hf. apply forallb_forall. intros x Hx.
  apply H; [exact Hx|]. exact (proj1 (forallb_forall f l) Hf x Hx).
Qed.

Lemma present_some {A} (o : option A) : present o = true <-> o <> None.
Proof. destruct o; simpl; split; intros H; congruence. Qed.

Lemma recording_ready_kept self self' :
  shape_kept self self' -> bounds_apart self' ->
  recording_ready self -> recording_ready self'.
Proof.
  intros (Ha & Hl & Hk & Hs & Hc & Hf & Hb) Hap (Ra & _ & Rl & Rd & Ro).
  split; [congruence|]. split; [exact Hap|]. split; [|split; [lia|]].
  - revert Rl. apply forallb_impl. intros [sensor_id loc] _. unfold located_ready.
    cbn [fst snd]. intros H. apply andb_true_iff in H. destruct H as [H1 H2].
    apply andb_true_iff. split.
    + revert H1. apply forallb_impl. intros l _. apply Hs.
    + rewrite Hf. destruct (find_sensor sensor_id (s_minmax self)) as [idx|]; [|discriminate].
      apply andb_true_iff in H2. destruct H2 as [H2 H3].
      apply andb_true_iff. split; apply Hb; assumption.
  - revert Ro. unfold others_ready. rewrite Hk.
    destruct (keys_at self 0 "snsr_2") as [keys|]; [|discriminate].
    apply forallb_impl. intros label _ H.
    destruct (excluded label); [reflexivity|]. simpl in *.
    apply andb_true_iff in H. destruct H as [H H3].
    apply andb_true_iff in H. destruct H as [H1 H2].
    rewrite (Hs _ _ _ H1), (Hs _ _ _ H2), (Hc _ _ _ _ H3). reflexivity.
Qed.

Lemma shape_kept_put_series self d0 s0 l0 xs ys :
  entry_at self d0 s0 l0 = Some (Series xs) ->
  shape_kept self (snd (put_entry d0 s0 l0 (Series ys) self)).
Proof.
  intros He. split; [apply put_entry_axes|].
  split; [apply (same_attributes_put self self); apply same_attributes_refl|].
  split; [intros d s; apply keys_at_put|].
  split; [|split; [|split; [reflexivity|intros idx key i H; exact H]]].
  - intros d s l. rewrite (series_at_put_series _ _ _ _ xs ys _ _ _
                             (proj2 (series_at_entry _ _ _ _ _) He)).
    destruct (same_path d s l d0 s0 l0); [reflexivity|auto].
  - intros d s l k. unfold corr_at. rewrite entry_at_put.
    destruct (same_path d s l d0 s0 l0) eqn:Pth; [|auto].
    apply same_path_eq in Pth. destruct Pth as (-> & -> & ->). rewrite He. simpl. auto.
Qed.

Lemma find_sensor_list_upd sensor_id (f : MinMax -> MinMax) :
  (forall x, mm_id (f x) = mm_id x) ->
  forall mm i, find_sensor sensor_id (list_upd i f mm) = find_sensor sensor_id mm.
Proof.
  intros Hf. induction mm as [|x mm IH]; intros i; [destruct i; reflexivity|].
  destruct i as [|i]; simpl; unfold id_is.
  - rewrite Hf. reflexivity.
  - rewrite IH. reflexivity.
Qed.

Lemma shape_kept_bound_set self idx key i val :
  shape_kept self (snd (bound_set idx key i val self)).
Proof.
  split; [reflexivity|]. split; [reflexivity|]. split; [reflexivity|].
  split; [auto|]. split; [auto|]. split.
  - intros sensor_id. apply find_sensor_list_upd. reflexivity.
  - intros idx' key' i'. rewrite bound_at_set.
    destruct (_ && _ && _)%bool; [|auto].
    destruct (bound_at self idx' key' i'); auto.
Qed.

Lemma shape_kept_store_kept self self' : store_kept self self' -> shape_kept self self'.
Proof.
  intros ((Ha & _ & Hm & _ & _ & Hl) & Hs & Hk & Hc).
  split; [exact Ha|]. split; [exact Hl|]. split; [exact Hk|].
  split; [intros d s l; rewrite Hs; auto|].
  split; [intros d s l k H; apply present_some; apply Hc; apply present_some; exact H|].
  split; [intros sensor_id; rewrite Hm; reflexivity|].
  intros idx key i. unfold bound_at. rewrite Hm. auto.
Qed.

Lemma bounds_apart_minmax self self' :
  s_minmax self' = s_minmax self -> bounds_apart self -> bounds_apart self'.
Proof.
  intros Hm Hb idx dt i. specialize (Hb idx dt i). unfold bound_at in *.
  rewrite Hm. exact Hb.
Qed.

Lemma recording_ready_series d0 s0 : series_updates_keep recording_ready d0 s0.
Proof.
  intros self l xs ys Hr He.
  apply (recording_ready_kept self); [exact (shape_kept_put_series _ _ _ _ _ ys He)| |exact Hr].
  apply (bounds_apart_minmax self); [reflexivity|]. exact (proj1 (proj2 Hr)).
Qed.

Lemma recording_ready_guarded : guarded_updates_keep recording_ready.
Proof.
  intros self idx dt i val lo hi Hr Elo Ehi.
  destruct (bounds_apart_guarded self idx dt i val lo hi (proj1 (proj2 Hr)) Elo Ehi)
    as [Hmin Hmax].
  split; intros Hlt.
  - apply (recording_ready_kept self); [apply shape_kept_bound_set|exact (Hmin Hlt)|exact Hr].
  - apply (recording_ready_kept self); [apply shape_kept_bound_set|exact (Hmax Hlt)|exact Hr].
Qed.

Lemma recording_ready_located self sensor_id loc :
  recording_ready self -> dict_get sensor_id locations = Some loc ->
  holds_series (loc_dancer loc - 1) (snsr (loc_sensor loc)) self /\
  exists idx, find_sensor sensor_id (s_minmax self) = Some idx /\
              has_bounds self idx "rot" 1.
Proof.
  intros (Ra & _ & Rl & _) Hloc. apply dict_get_In in Hloc.
  pose proof (proj1 (forallb_forall _ _) Rl _ Hloc) as H. cbn [fst snd] in H.
  unfold located_ready in H. apply andb_true_iff in H. destruct H as [H1 H2].
  split.
  - split; [exact Ra|]. intros l Hl. apply present_some.
    exact (proj1 (forallb_forall _ _) H1 l Hl).
  - destruct (find_sensor sensor_id (s_minmax self)) as [idx|]; [|discriminate].
    exists idx. split; [reflexivity|]. apply andb_true_iff in H2. destruct H2 as [H2 H3].
    intros i Hi. assert (i = 0) by lia. subst i.
    split; apply present_some; assumption.
Qed.

Lemma recording_ready_pair self :
  recording_ready self -> pair_ready self 0 "snsr_2" 1 "snsr_2" "dancer_3" = true.
Proof.
  intros (_ & _ & _ & _ & Ro). revert Ro. unfold others_ready, pair_ready.
  destruct (keys_at self 0 "snsr_2") as [keys|]; [|discriminate].
  apply forallb_impl. intros label _ H.
  destruct (excluded label); [reflexivity|]. simpl in *.
  destruct (series_at self 0 "snsr_2" label); [|discriminate].
  destruct (series_at self 1 "snsr_2" label); [|discriminate].
  destruct (corr_at self 0 "snsr_2" (correlation_key label) "dancer_3"); [|discriminate].
  apply orb_true_r.
Qed.

Lemma Sensors_ready_recording : recording_ready Sensors_ready.
Proof.
  split; [vm_compute; reflexivity|].
  split; [exact Sensors_ready_bounds_apart|].
  split; [vm_compute; reflexivity|].
  split; [apply Nat.ltb_lt; vm_compute; reflexivity|].
  vm_compute; reflexivity.
Qed.

(** X21. [send_data] returns, for a located sensor id, on an object with the axes
    of [__init__] whose store holds a series under each of the fifteen labels of
    the sensor, when the value has a number of components the branch of the data
    type can read (at most three for [acc], [gyr] and [mag], at least three for
    [ori], one for [rot], two for [tot_a]; any for another data type, which is
    ignored).  The object it leaves satisfies the same condition. *)
Theorem send_data_returns
    (sensor_id data_type : string) (value : list float) (self : Sensors)
    (loc : string * nat * nat) :
  dict_get sensor_id locations = Some loc ->
  holds_series (loc_dancer loc - 1) (snsr (loc_sensor loc)) self ->
  arity_ok data_type (List.length value) = true ->
  exists self',
    send_data sensor_id data_type value self = (Ok tt, self') /\
    holds_series (loc_dancer loc - 1) (snsr (loc_sensor loc)) self'.
Proof.
  intros Hloc Hs Har.
  destruct (send_data_series_run sensor_id data_type value self loc Hloc Hs Har)
    as (self' & E & Hs').
  exists self'. split; [exact E|exact Hs'].
Qed.

Lemma send_data_returns_witness :
  (dict_get "00B4F119" locations = Some ("torso", 2, 3) /\
   holds_series (loc_dancer ("torso", 2, 3) - 1) (snsr (loc_sensor ("torso", 2, 3)))
                Sensors_ready /\
   arity_ok "tot_a" (List.length [31.5; 1]%float) = true) /\
  exists self',
    send_data "00B4F119" "tot_a" [31.5; 1]%float Sensors_ready = (Ok tt, self') /\
    holds_series (loc_dancer ("torso", 2, 3) - 1) (snsr (loc_sensor ("torso", 2, 3))) self'.
Proof.
  assert (H1 : dict_get "00B4F119" locations = Some ("torso", 2, 3)) by reflexivity.
  assert (H2 : holds_series (loc_dancer ("torso", 2, 3) - 1)
                            (snsr (loc_sensor ("torso", 2, 3))) Sensors_ready)
    by exact (proj1 (recording_ready_located Sensors_ready "00B4F119" ("torso", 2, 3)
                       Sensors_ready_recording H1)).
  assert (H3 : arity_ok "tot_a" (List.length [31.5; 1]%float) = true) by reflexivity.
  split; [split; [exact H1|split; [exact H2|exact H3]]|].
  exact (send_data_returns "00B4F119" "tot_a" _ Sensors_ready ("torso", 2, 3) H1 H2 H3).
Defined.

(** ** The recording loop returns *)


Lemma returns_bind {S A B} (I : S -> Prop) (m : M S A) (k : A -> M S B)
    (Q : A -> Prop) (R : B -> Prop) :
  returns I m Q -> (forall a, Q a -> returns I (k a) R) -> returns I (bind m k) R.
Proof.
  intros Hm Hk s Hs. destruct (Hm s Hs) as (a & s1 & E & H1 & Hq).
  rewrite (run_bind _ _ _ _ _ E). exact (Hk a Hq s1 H1).
Qed.

Lemma returns_ret {S A} (I : S -> Prop) (a : A) (Q : A -> Prop) :
  Q a -> returns I (ret a) Q.
Proof. intros Hq s Hs. exists a, s. split; [reflexivity|]. split; assumption. Qed.

Lemma returns_any {S A} (I : S -> Prop) (m : M S A) (Q : A -> Prop) :
  returns I m Q -> returns I m (fun _ => True).
Proof.
  intros Hm s Hs. destruct (Hm s Hs) as (a & s1 & E & H1 & _). exists a, s1. auto.
Qed.

Lemma send_data_run sensor_id loc data_type value :
  dict_get sensor_id locations = Some loc ->
  arity_ok data_type (List.length value) = true ->
  returns recording_ready (send_data sensor_id data_type value) (fun _ => True).
Proof.
  intros Hloc Har self Hr.
  destruct (recording_ready_located _ _ _ Hr Hloc) as [Hs _].
  destruct (send_data_series_run _ _ _ _ _ Hloc Hs Har) as (self' & E & _).
  exists tt, self'. split; [exact E|]. split; [|exact Logic.I].
  replace self' with (snd (send_data sensor_id data_type value self))
    by (rewrite E; reflexivity).
  apply send_data_keeps; [|exact Hr]. intros loc' _. apply recording_ready_series.
Qed.

Lemma scale_rot_run sensor_id loc v :
  dict_get sensor_id locations = Some loc ->
  returns recording_ready (scale_data sensor_id "rot" [v])
          (fun out => List.length out = 1).
Proof.
  intros Hloc self Hr.
  destruct (recording_ready_located _ _ _ Hr Hloc) as [_ (idx & Hf & Hb)].
  pose proof (scale_data_found sensor_id "rot" [v] self idx Hf) as Hsd.
  destruct (proj2 (scale_loop_outcome idx "rot" [v] 0 [] self (proj1 (proj2 Hr))) Hb)
    as (out & self' & E).
  exists out, self'. split; [rewrite Hsd; exact E|]. split.
  - replace self' with (snd (scale_data sensor_id "rot" [v] self))
      by (rewrite Hsd, E; reflexivity).
    apply scale_data_keeps; [apply recording_ready_guarded|exact Hr].
  - destruct (scale_loop_spec _ _ _ _ _ _ _ _ E) as [Hm _].
    apply (f_equal (@List.length _)) in Hm. rewrite length_map in Hm. exact Hm.
Qed.

Section LoopRuns.

Variable np_corrcoef : list float -> list float -> float.
Variable np_round5 : float -> float.
Variable py_round5 : float -> float.

Lemma correlation_others_run :
  returns recording_ready (calculate_correlation_others np_corrcoef) (fun _ => True).
Proof.
  intros self Hr.
  pose proof (recording_ready_pair self Hr) as Hp.
  assert (Hlen : 1 < List.length (s_dancers self)) by apply Hr.
  unfold calculate_correlation_others, correlation_others_combos.
  cbn [for_yield]. change (12 =? 22)%nat with false. cbv iota.
  unfold bind at 1. unfold bind at 1. unfold get at 1.
  change (round_div10 12) with 1. change (round_div10 22) with 2.
  change (12 mod 10) with 2. change (22 mod 10) with 2.
  change (snsr 2) with "snsr_2". change (dancer_key (2 + 1)) with "dancer_3".
  assert (P0 : py_pos (List.length (s_dancers self)) (Z.of_nat 1 - 1) = Some 0).
  { unfold py_pos. simpl Z.sub. simpl Z.ltb.
    destruct (Z.ltb_spec 0 (Z.of_nat (List.length (s_dancers self)))); [reflexivity|lia]. }
  assert (P1 : py_pos (List.length (s_dancers self)) (Z.of_nat 2 - 1) = Some 1).
  { unfold py_pos. simpl Z.sub. simpl Z.ltb.
    destruct (Z.ltb_spec 1 (Z.of_nat (List.length (s_dancers self)))); [reflexivity|lia]. }
  unfold bind at 1. rewrite P0. unfold lift_opt at 1. unfold ret at 1.
  unfold bind at 1. rewrite P1. unfold lift_opt at 1. unfold ret at 1.
  destruct (pair_run np_corrcoef self self 0 "snsr_2" 1 "snsr_2" "dancer_3"
              (store_kept_refl self) Hp) as (self' & E & Hk).
  rewrite E. eexists _, self'. split; [reflexivity|]. split; [|exact Logic.I].
  apply (recording_ready_kept self); [apply shape_kept_store_kept; exact Hk| |exact Hr].
  apply (bounds_apart_minmax self); [apply Hk|apply Hr].
Qed.

Lemma on_sensors_returns {A} (m : M Sensors A) (Q : A -> Prop) :
  returns recording_ready m Q -> returns loop_ready (on_sensors m) Q.
Proof.
  intros Hm r [Hr Hl]. destruct (Hm _ Hr) as (a & s' & E & Hs' & Hq).
  unfold on_sensors. rewrite E. eexists a, _. split; [reflexivity|].
  split; [|exact Hq]. split; [exact Hs'|exact Hl].
Qed.

Lemma sensor_id_returns :
  returns loop_ready (local "sensor_id" r_sensor_id)
          (fun sensor_id => exists loc, dict_get sensor_id locations = Some loc).
Proof.
  intros r Hr. destruct Hr as [Hs (sensor_id & loc & Hloc & Hid & Hd & Hn)].
  exists sensor_id, r. unfold local, bind, get. rewrite Hid.
  split; [reflexivity|]. split; [|exists loc; exact Hloc].
  split; [exact Hs|]. exists sensor_id, loc. auto.
Qed.

Lemma dancer_sensor_returns {B} (k : nat -> nat -> M Recorder B) (R : B -> Prop) :
  (forall dancer sensor, returns loop_ready (k dancer sensor) R) ->
  returns loop_ready (dancer <- local "dancer" r_dancer ;;
                      sensor <- local "sensor" r_sensor ;; k dancer sensor) R.
Proof.
  intros Hk r Hr. pose proof Hr as [_ (sensor_id & loc & _ & _ & Hd & Hn)].
  unfold local at 1 2. unfold bind at 1 2, get at 1. rewrite Hd. cbn [lift_opt ret].
  unfold bind at 1 2, get at 1. rewrite Hn. cbn [lift_opt ret].
  exact (Hk _ _ r Hr).
Qed.

Lemma osc_send_returns address osc_msg :
  returns loop_ready (osc_send address osc_msg) (fun _ => True).
Proof.
  intros r [Hr Hl]. eexists tt, _. split; [reflexivity|]. split; [|exact Logic.I].
  split; [exact Hr|exact Hl].
Qed.

Lemma calibrated_block_run packet :
  returns loop_ready (calibrated_block np_round5 py_round5 packet) (fun _ => True).
Proof.
  unfold calibrated_block.
  destruct (freeAcceleration packet) as [[a0 a1] a2].
  destruct (calibratedGyroscopeData packet) as [[g0 g1] g2].
  destruct (calibratedMagneticField packet) as [[m0 m1] m2].
  cbv zeta.
  apply (returns_bind loop_ready _ _ (fun _ => True));
    [intros r Hr; exists r, r; split; [reflexivity|split; [exact Hr|exact Logic.I]]|].
  intros r0 _.
  apply (returns_bind loop_ready _ _ (fun _ => True)).
  { destruct (_ && _)%bool; [|apply returns_ret; exact Logic.I].
    intros r [Hr Hl]. eexists tt, _. split; [reflexivity|]. split; [|exact Logic.I].
    split; [exact Hr|exact Hl]. }
  intros _ _.
  apply (returns_bind _ _ _ _ _ sensor_id_returns). intros sensor_id [loc Hloc].
  apply (returns_bind loop_ready _ _ (fun _ => True));
    [apply on_sensors_returns; apply (send_data_run _ loc); [exact Hloc|reflexivity]|].
  intros _ _.
  apply (returns_bind loop_ready _ _ (fun _ => True));
    [apply on_sensors_returns; apply (send_data_run _ loc); [exact Hloc|reflexivity]|].
  intros _ _.
  apply (returns_bind loop_ready _ _ (fun out => List.length out = 1));
    [apply on_sensors_returns; apply (scale_rot_run _ loc); exact Hloc|].
  intros rot_value Hlen.
  destruct rot_value as [|rot0 [|]]; try discriminate. clear Hlen.
  apply (returns_bind loop_ready _ _ (fun _ => True));
    [apply returns_ret; exact Logic.I|].
  intros rot0' _.
  apply (returns_bind loop_ready _ _ (fun _ => True));
    [apply on_sensors_returns; apply (send_data_run _ loc); [exact Hloc|reflexivity]|].
  intros _ _.
  apply (returns_bind loop_ready _ _ (fun _ => True));
    [apply on_sensors_returns; apply (send_data_run _ loc); [exact Hloc|reflexivity]|].
  intros _ _.
  apply (returns_bind loop_ready _ _ (fun _ => True));
    [apply on_sensors_returns; apply (send_data_run _ loc); [exact Hloc|reflexivity]|].
  intros _ _. apply returns_ret. exact Logic.I.
Qed.

Lemma orientation_block_run packet :
  returns loop_ready (orientation_block packet) (fun _ => True).
Proof.
  unfold orientation_block.
  destruct (orientationQuaternion packet) as [[[q0 q1] q2] q3].
  destruct (orientationEuler packet) as [[e0 e1] e2]. cbv zeta.
  apply (returns_bind _ _ _ _ _ sensor_id_returns). intros sensor_id [loc Hloc].
  apply (returns_bind loop_ready _ _ (fun _ => True));
    [apply on_sensors_returns; apply (send_data_run _ loc); [exact Hloc|reflexivity]|].
  intros _ _. apply returns_ret. exact Logic.I.
Qed.

Lemma handle_packet_run packet r :
  known_sender packet = true ->
  recording_ready (r_sensors r) ->
  (containsStoredDeviceId packet = true \/ loop_ready r) ->
  exists r',
    handle_packet np_corrcoef np_round5 py_round5 packet r = (Ok tt, r') /\
    loop_ready r'.
Proof.
  intros Hk Hr Hid. unfold handle_packet.
  assert (H1 : exists osc_id r1,
            (if containsStoredDeviceId packet then
               let sensor_id := deviceId packet in
               assign_sensor_id sensor_id ;;
               loc <- lift_opt (KeyError sensor_id) (dict_get sensor_id locations) ;;
               assign_dancer (loc_dancer loc) ;;
               assign_sensor (loc_sensor loc) ;;
               ret [OscInt (loc_dancer loc * 10 + loc_sensor loc)]
             else ret []) r = (Ok osc_id, r1) /\ loop_ready r1).
  { unfold known_sender in Hk. destruct (containsStoredDeviceId packet).
    - unfold dict_mem in Hk. cbv zeta.
      destruct (dict_get (deviceId packet) locations) as [loc|] eqn:Hloc; [|discriminate].
      eexists _, _. split; [reflexivity|]. split; [exact Hr|].
      exists (deviceId packet), loc. simpl. auto.
    - destruct Hid as [Hid|Hid]; [discriminate|].
      exists [], r. split; [reflexivity|exact Hid]. }
  destruct H1 as (osc_id & r1 & E1 & H1). rewrite (run_bind _ _ _ _ _ E1).
  match goal with
  | |- exists r', ?m r1 = _ /\ _ =>
      assert (X : returns loop_ready m (fun _ => True))
  end.
  { apply (returns_bind loop_ready _ _ (fun _ => True)).
    { destruct (containsCalibratedData packet);
        [apply calibrated_block_run|apply returns_ret; exact Logic.I]. }
    intros calibrated _.
    apply (returns_bind loop_ready _ _ (fun _ => True)).
    { destruct (containsOrientation packet);
        [apply orientation_block_run|apply returns_ret; exact Logic.I]. }
    intros orientation _. cbv zeta.
    apply dancer_sensor_returns. intros dancer sensor.
    apply (returns_bind _ _ _ _ _ (osc_send_returns _ _)). intros _ _.
    destruct ((sensor =? 1) && (dancer =? 1))%nat; [|apply returns_ret; exact Logic.I].
    apply (returns_bind loop_ready _ _ (fun _ => True));
      [apply on_sensors_returns; apply correlation_others_run|].
    intros correlations _. apply osc_send_returns. }
  destruct (X r1 H1) as ([] & r' & E & H' & _). exists r'. auto.
Qed.

Lemma recording_loop_run : forall packets r,
  forallb known_sender packets = true ->
  recording_ready (r_sensors r) ->
  (starts_identified packets = true \/ loop_ready r) ->
  exists r',
    recording_loop np_corrcoef np_round5 py_round5 packets r = (Ok tt, r') /\
    recording_ready (r_sensors r').
Proof.
  unfold recording_loop.
  induction packets as [|packet packets IH]; intros r Hk Hr Hid.
  - exists r. split; [reflexivity|exact Hr].
  - simpl in Hk. apply andb_true_iff in Hk. destruct Hk as [Hk Hks].
    destruct (handle_packet_run packet r Hk Hr Hid) as (r1 & E1 & H1).
    cbn [for_each]. rewrite (run_bind _ _ _ _ _ E1).
    apply IH; [exact Hks|apply H1|right; exact H1].
Qed.

(** X22. The recording loop handles every packet and ends without an exception,
    whatever the threshold and the readings, when it starts on the object after
    [__init__] and the registration of the nine sensors, the first packet carries
    a device id, and every device id a packet carries is one of [locations]: no
    call of [send_data], [scale_data] or [calculate_correlation_others] and no
    read of a loop variable raises, for any [np.corrcoef] and [round] that
    return. *)
Theorem recording_loop_returns (threshold : float) (packets : list Packet) :
  forallb known_sender packets = true ->
  starts_identified packets = true ->
  exists r',
    recording_loop np_corrcoef np_round5 py_round5 packets
      (recorder_start Sensors_ready threshold) = (Ok tt, r').
Proof.
  intros Hk Hs.
  destruct (recording_loop_run packets (recorder_start Sensors_ready threshold) Hk)
    as (r' & E & _); [exact Sensors_ready_recording|left; exact Hs|].
  exists r'. exact E.
Qed.

End LoopRuns.

Lemma recording_loop_returns_witness :
  (forallb known_sender [full_packet "00B4F11A"; anonymous_packet;
                         full_packet "00B4F116"] = true /\
   starts_identified [full_packet "00B4F11A"; anonymous_packet;
                      full_packet "00B4F116"] = true) /\
  exists r',
    recording_loop ref_corrcoef ref_round5 ref_round5
      [full_packet "00B4F11A"; anonymous_packet; full_packet "00B4F116"]
      (recorder_start Sensors_ready 30) = (Ok tt, r').
Proof.
  split; [split; reflexivity|].
  apply (recording_loop_returns ref_corrcoef ref_round5 ref_round5 30%float
           [full_packet "00B4F11A"; anonymous_packet; full_packet "00B4F116"]);
    reflexivity.
Defined.

